(** * logiops-gui: the configuration pipeline

    A shallow embedding of the configuration-language core of the
    application: the libconfig tokenizer and parser
    (renderer/utils/libconfigParser.ts), the mapper and the generator
    (renderer/utils/configParser.ts), the data model (renderer/types/logiops.ts)
    and the validators (renderer/utils/validation.ts), the display format,
    the summary and the device lookup of renderer/utils/serialization.ts
    and the field filter of renderer/hooks/useValidation.ts, followed by
    the properties proved about them.

    Conventions of the embedding.
    - Text is a Stdlib [string]; the character classes [\s], [\d],
      [[a-zA-Z_]] and the case conversions are those of the ASCII range,
      which is what the configuration language is written in.
    - A JavaScript number is an exact decimal [mant / 10^scale], or NaN:
      every number of the pipeline comes from a decimal literal and is only
      compared, tested for divisibility and printed.  Rounding to a double,
      infinities and the exponent notation are outside the model.
    - A value of the generic tree is a [Value]; a member that is absent reads
      as [None] (JavaScript's [undefined]).  An object is an association list
      in insertion order, an assignment to a member that exists overwriting
      it in place.  An object has the prototype of an object literal: a
      member named [toString] hides the method that [String()] and
      [Number()] call, which then throw; a member named [__proto__], which
      JavaScript would make the prototype of the object, is a member like
      the others here: a text with such a member is outside the model.
    - A function that can throw returns an [outcome].  A loop or a recursion
      that is not structural takes a [fuel] argument and yields [Diverge]
      (or [None], in the tokenizer, which cannot throw) when it runs out;
      the fuel the entry points pass is shown to be enough on every input.
    - The data model follows the TypeScript interfaces; a member that the
      code tests at run time, or that the mapper fills with a value of the
      generic tree as it stands (the [dpi] settings), is kept as loose as
      the code treats it. *)

From Stdlib Require Import String Ascii List ZArith Bool Arith Lia DecimalString.
Import ListNotations.
Local Open Scope list_scope.
Local Open Scope string_scope.
Local Open Scope nat_scope.

Set Warnings "-register-all".

(** List append, kept apart from the append of strings. *)
Local Infix "+++" := app (right associativity, at level 60).

(* ================================================================== *)
(** * JavaScript base layer *)
(* ================================================================== *)

(** ** Characters and strings *)

Definition dquote : ascii := "034"%char.
Definition backslash : ascii := "092"%char.
Definition newline : ascii := "010"%char.
Definition tab : ascii := "009"%char.
Definition carriage : ascii := "013"%char.

Definition code (c : ascii) : nat := nat_of_ascii c.

Definition between (lo hi : nat) (c : ascii) : bool :=
  (lo <=? code c) && (code c <=? hi).

(** [/\s/] on the ASCII range: tab, line feed, vertical tab, form feed,
    carriage return, space. *)
Definition isSpace (c : ascii) : bool :=
  between 9 13 c || (code c =? 32).

(** [/\d/] *)
Definition isDigit (c : ascii) : bool := between 48 57 c.

Definition isUpper (c : ascii) : bool := between 65 90 c.
Definition isLower (c : ascii) : bool := between 97 122 c.

(** [/[0-9a-fA-F]/] *)
Definition isHexDigit (c : ascii) : bool :=
  isDigit c || between 97 102 c || between 65 70 c.

(** [/[\d\.]/] *)
Definition isDecimalChar (c : ascii) : bool :=
  isDigit c || Ascii.eqb c "."%char.

(** [/[a-zA-Z_]/] *)
Definition isIdentStart (c : ascii) : bool :=
  isLower c || isUpper c || Ascii.eqb c "_"%char.

(** [/[a-zA-Z0-9_]/] *)
Definition isIdentChar (c : ascii) : bool :=
  isIdentStart c || isDigit c.

Definition lowerChar (c : ascii) : ascii :=
  if isUpper c then ascii_of_nat (code c + 32) else c.

Definition upperChar (c : ascii) : ascii :=
  if isLower c then ascii_of_nat (code c - 32) else c.

(** [s.toLowerCase()] *)
Fixpoint toLowerCase (s : string) : string :=
  match s with
  | EmptyString => EmptyString
  | String c s' => String (lowerChar c) (toLowerCase s')
  end.

Fixpoint trimStart (s : string) : string :=
  match s with
  | String c s' => if isSpace c then trimStart s' else s
  | EmptyString => EmptyString
  end.

(** Drops the white space at the end: a character is kept when it is not
    white space or when something is kept after it. *)
Fixpoint trimEnd (s : string) : string :=
  match s with
  | EmptyString => EmptyString
  | String c s' =>
      match trimEnd s' with
      | EmptyString => if isSpace c then EmptyString else String c EmptyString
      | t => String c t
      end
  end.

(** [s.trim()] *)
Definition trim (s : string) : string := trimEnd (trimStart s).

(** [s.startsWith(p)] *)
Fixpoint startsWith (s p : string) {struct p} : bool :=
  match p with
  | EmptyString => true
  | String a p' =>
      match s with
      | String b s' => Ascii.eqb a b && startsWith s' p'
      | EmptyString => false
      end
  end.

(** [s.includes(needle)] *)
Fixpoint includes (s needle : string) : bool :=
  startsWith s needle ||
  match s with
  | EmptyString => false
  | String _ s' => includes s' needle
  end.

(** Every character of [s] passes [test]. *)
Fixpoint allChars (test : ascii -> bool) (s : string) : bool :=
  match s with
  | EmptyString => true
  | String c s' => test c && allChars test s'
  end.

(** [s.split('\n')] *)
Fixpoint splitLines (s : string) : list string :=
  match s with
  | EmptyString => [EmptyString]
  | String c s' =>
      if Ascii.eqb c newline then EmptyString :: splitLines s'
      else match splitLines s' with
           | l :: ls => String c l :: ls
           | [] => [String c EmptyString]
           end
  end.

(** [parts.join(sep)] *)
Fixpoint join (sep : string) (parts : list string) : string :=
  match parts with
  | [] => EmptyString
  | [p] => p
  | p :: ps => p ++ sep ++ join sep ps
  end.

Definition newlineStr : string := String newline EmptyString.

(** A string in double quotes, as a template such as ["${key}"] builds it. *)
Definition quoted (s : string) : string :=
  String dquote (s ++ String dquote EmptyString).

Definition string_of_nat (n : nat) : string :=
  NilZero.string_of_uint (Nat.to_uint n).

Definition string_of_Z (z : Z) : string :=
  NilZero.string_of_int (Z.to_int z).

(** ** Numbers *)

(** The decimal [mant / 10^scale]. *)
Record Decimal := mkDecimal { mant : Z; scale : nat }.

Inductive JsNumber :=
| JNaN
| JNum (d : Decimal).

Definition pow10 (n : nat) : Z := Z.pow 10 (Z.of_nat n).

Definition dec_of_Z (z : Z) : Decimal := mkDecimal z 0.
Definition num_of_Z (z : Z) : JsNumber := JNum (dec_of_Z z).

(** [a < b], by cross multiplication. *)
Definition dec_ltb (a b : Decimal) : bool :=
  (mant a * pow10 (scale b) <? mant b * pow10 (scale a))%Z.

Definition dec_eqb (a b : Decimal) : bool :=
  (mant a * pow10 (scale b) =? mant b * pow10 (scale a))%Z.

(** [a < b] and [a > b] on numbers; a comparison with NaN is false. *)
Definition num_ltb (a b : JsNumber) : bool :=
  match a, b with
  | JNum x, JNum y => dec_ltb x y
  | _, _ => false
  end.

Definition num_gtb (a b : JsNumber) : bool := num_ltb b a.

(** [a % k !== 0] for a positive integer [k]: the remainder of a decimal is
    zero exactly when the mantissa is a multiple of [k * 10^scale]; the
    remainder of NaN is NaN, which differs from 0. *)
Definition num_rem_nonzero (a : JsNumber) (k : Z) : bool :=
  match a with
  | JNaN => true
  | JNum d => negb (Z.rem (mant d) (k * pow10 (scale d)) =? 0)%Z
  end.

(** Drops the trailing zeros of the fraction. *)
Fixpoint dec_normalize_aux (m : Z) (s : nat) : Decimal :=
  match s with
  | 0 => mkDecimal m 0
  | S s' => if (Z.rem m 10 =? 0)%Z then dec_normalize_aux (Z.quot m 10) s'
            else mkDecimal m s
  end.

Definition dec_normalize (d : Decimal) : Decimal :=
  dec_normalize_aux (mant d) (scale d).

Fixpoint zeros (n : nat) : string :=
  match n with
  | 0 => EmptyString
  | S n' => String "0"%char (zeros n')
  end.

(** [String(n)] for a number, in plain decimal notation (the exponent
    notation JavaScript switches to beyond 1e21 and below 1e-6 is not
    modelled). *)
Definition string_of_decimal (d : Decimal) : string :=
  let d := dec_normalize d in
  let m := Z.abs (mant d) in
  let sign := if (mant d <? 0)%Z then "-" else EmptyString in
  match scale d with
  | 0 => sign ++ string_of_Z m
  | s =>
      let ip := Z.quot m (pow10 s) in
      let fp := string_of_Z (Z.rem m (pow10 s)) in
      sign ++ string_of_Z ip ++ "." ++ zeros (s - String.length fp) ++ fp
  end.

Definition string_of_number (n : JsNumber) : string :=
  match n with
  | JNaN => "NaN"
  | JNum d => string_of_decimal d
  end.

Definition digitVal (c : ascii) : Z := Z.of_nat (code c - 48).

Definition hexVal (c : ascii) : Z :=
  if isDigit c then Z.of_nat (code c - 48)
  else if between 97 102 c then Z.of_nat (code c - 87)
  else Z.of_nat (code c - 55).

(** Reads the digits at the head of [s] into the mantissa [acc]; returns the
    mantissa, the number of digits read and the rest. *)
Fixpoint readDigits (s : string) (acc : Z) (n : nat) : Z * nat * string :=
  match s with
  | String c s' =>
      if isDigit c then readDigits s' (acc * 10 + digitVal c)%Z (S n)
      else (acc, n, s)
  | EmptyString => (acc, n, s)
  end.

(** [parseFloat(s)] on the text of a number token, which starts with a digit
    and holds digits and dots only: the longest prefix [digits] or
    [digits.digits] is the number. *)
Definition parseFloat (s : string) : JsNumber :=
  let '(ip, n, rest) := readDigits s 0%Z 0 in
  match n with
  | 0 => JNaN
  | _ =>
      match rest with
      | String "."%char rest' =>
          let '(m, k, _) := readDigits rest' ip 0 in
          JNum (mkDecimal m k)
      | _ => JNum (mkDecimal ip 0)
      end
  end.

(** Reads the digits of base [radix] at the head of [s] into [acc], a
    letter standing for a digit from ten on. *)
Definition radixVal (c : ascii) : Z :=
  if isDigit c then digitVal c else hexVal c.

Definition isRadixDigit (radix : Z) (c : ascii) : bool :=
  isHexDigit c && (radixVal c <? radix)%Z.

Fixpoint readRadixDigits (radix : Z) (s : string) (acc : Z) (n : nat) : Z * nat * string :=
  match s with
  | String c s' =>
      if isRadixDigit radix c
      then readRadixDigits radix s' (acc * radix + radixVal c)%Z (S n)
      else (acc, n, s)
  | EmptyString => (acc, n, s)
  end.

(** An integer literal of base 16, 8 or 2: [0x], [0o] or [0b], in either
    case, and digits to the end. *)
Definition radixLiteral (t : string) : option JsNumber :=
  match t with
  | String "0"%char (String x digits) =>
      let radix :=
        if Ascii.eqb (lowerChar x) "x"%char then Some 16%Z
        else if Ascii.eqb (lowerChar x) "o"%char then Some 8%Z
        else if Ascii.eqb (lowerChar x) "b"%char then Some 2%Z
        else None in
      match radix with
      | Some r =>
          match readRadixDigits r digits 0%Z 0 with
          | (v, S _, EmptyString) => Some (num_of_Z v)
          | _ => Some JNaN
          end
      | None => None
      end
  | _ => None
  end.

(** The exponent part that ends a decimal literal: none, or [e] or [E], a
    sign or none, and digits to the end. *)
Definition exponentPart (rest : string) : option Z :=
  match rest with
  | EmptyString => Some 0%Z
  | String e rest' =>
      if Ascii.eqb (lowerChar e) "e"%char then
        let '(negative, digits) :=
          match rest' with
          | String "-"%char d => (true, d)
          | String "+"%char d => (false, d)
          | _ => (false, rest')
          end in
        match readDigits digits 0%Z 0 with
        | (v, S _, EmptyString) => Some (if negative then (- v)%Z else v)
        | _ => None
        end
      else None
  end.

(** The decimal [m / 10^k] times [10^e]. *)
Definition scaled (m : Z) (k : nat) (e : Z) : Decimal :=
  let shift := (e - Z.of_nat k)%Z in
  if (0 <=? shift)%Z then mkDecimal (m * Z.pow 10 shift) 0
  else mkDecimal m (Z.to_nat (- shift)).

(** A decimal literal [digits], [digits.digits], [digits.] or [.digits],
    with an exponent part or none, that spans the whole of [u]; NaN
    otherwise. *)
Definition decimalLiteral (neg : bool) (u : string) : JsNumber :=
  let '(ip, n, rest) := readDigits u 0%Z 0 in
  let mk (m : Z) (k : nat) (tail : string) :=
    match exponentPart tail with
    | Some e => JNum (scaled (if neg then (- m)%Z else m) k e)
    | None => JNaN
    end in
  match rest with
  | String "."%char rest' =>
      let '(m, k, tail) := readDigits rest' ip 0 in
      if n + k =? 0 then JNaN else mk m k tail
  | _ => if n =? 0 then JNaN else mk ip 0 rest
  end.

(** [Number(s)] for a string: white space is trimmed; the empty string is 0;
    [0x], [0o] and [0b] introduce an integer of base 16, 8 and 2, which takes
    no sign; a decimal literal may carry a sign, a fraction and an exponent;
    anything else is NaN.  The value is kept exact: the rounding to a double
    and [Infinity], written out or reached by a large exponent, are outside
    the model, and no property below depends on the number that a string
    converts to. *)
Definition stringToNumber (s : string) : JsNumber :=
  let t := trim s in
  match t with
  | EmptyString => num_of_Z 0
  | String sg u =>
      match radixLiteral t with
      | Some n => n
      | None =>
          if Ascii.eqb sg "-"%char then decimalLiteral true u
          else if Ascii.eqb sg "+"%char then decimalLiteral false u
          else decimalLiteral false t
      end
  end.

(** ** Values of the generic tree *)

(** What the libconfig parser builds: strings, numbers, booleans, objects
    and arrays.  An object lists its members in insertion order. *)
Inductive Value :=
| VStr (s : string)
| VNum (n : JsNumber)
| VBool (b : bool)
| VObj (members : list (string * Value))
| VArr (items : list Value).

Fixpoint lookup (key : string) (members : list (string * Value)) : option Value :=
  match members with
  | [] => None
  | (k, v) :: rest => if String.eqb k key then Some v else lookup key rest
  end.

(** [obj[key] = v]: an existing member keeps its place and takes the new
    value, a new member goes last (the key [__proto__] like any other: see
    the conventions). *)
Fixpoint assign (key : string) (v : Value) (members : list (string * Value))
  : list (string * Value) :=
  match members with
  | [] => [(key, v)]
  | (k, x) :: rest =>
      if String.eqb k key then (k, v) :: rest else (k, x) :: assign key v rest
  end.

(** [data.key] for the member names the mapper reads: only an object has
    them; on a string, a number, a boolean or an array they read as
    [undefined]. *)
Definition get (data : Value) (key : string) : option Value :=
  match data with
  | VObj members => lookup key members
  | _ => None
  end.

(** The string [String(v)] returns, when it returns (see [StringOf]): an
    object prints as [[object Object]], an array as its items joined by
    commas. *)
Fixpoint toStr (v : Value) : string :=
  match v with
  | VStr s => s
  | VNum n => string_of_number n
  | VBool b => if b then "true" else "false"
  | VObj _ => "[object Object]"
  | VArr items => join "," (map toStr items)
  end.

(** The same where [x] may be [undefined]. *)
Definition String_ (x : option Value) : string :=
  match x with
  | Some v => toStr v
  | None => "undefined"
  end.

(** Truthiness: the empty string, 0, NaN and [false] are falsy; objects and
    arrays are truthy. *)
Definition truthyV (v : Value) : bool :=
  match v with
  | VStr s => negb (String.eqb s EmptyString)
  | VNum JNaN => false
  | VNum (JNum d) => negb (mant d =? 0)%Z
  | VBool b => b
  | VObj _ | VArr _ => true
  end.

Definition truthy (x : option Value) : bool :=
  match x with
  | Some v => truthyV v
  | None => false
  end.

(** [Boolean(x)] *)
Definition Boolean_ (x : option Value) : bool := truthy x.

Definition isDefined (x : option Value) : bool :=
  match x with Some _ => true | None => false end.

(** The number [Number(v)] returns, when it returns (see [NumberOf]). *)
Definition toNumber (v : Value) : JsNumber :=
  match v with
  | VStr s => stringToNumber s
  | VNum n => n
  | VBool b => num_of_Z (if b then 1 else 0)
  | VObj _ => JNaN
  | VArr _ => stringToNumber (toStr v)
  end.

Definition Number_ (x : option Value) : JsNumber :=
  match x with
  | Some v => toNumber v
  | None => JNaN
  end.

(** ** Exceptions *)

Inductive JsError :=
| PlainError (message : string)
| TypeError (message : string)
| ConfigParseError (message : string) (line column : option nat).

(** [error.message] *)
Definition errorMessage (e : JsError) : string :=
  match e with
  | PlainError m | TypeError m | ConfigParseError m _ _ => m
  end.

(** [error instanceof ConfigParseError] *)
Definition isConfigParseError (e : JsError) : bool :=
  match e with
  | ConfigParseError _ _ _ => true
  | _ => false
  end.

Inductive outcome (A : Type) :=
| Return (a : A)
| Throw (e : JsError)
| Diverge.

Arguments Return {A} a.
Arguments Throw {A} e.
Arguments Diverge {A}.

Definition bind {A B : Type} (m : outcome A) (f : A -> outcome B) : outcome B :=
  match m with
  | Return a => f a
  | Throw e => Throw e
  | Diverge => Diverge
  end.

Notation "x <- m ;; k" := (bind m (fun x => k))
  (at level 61, m at next level, right associativity).
Notation "' pat <- m ;; k" := (bind m (fun x => match x with pat => k end))
  (at level 61, pat pattern, m at next level, right associativity).

(** [xs.map(f)] for a callback that can throw: the first exception ends the
    traversal. *)
Fixpoint mapM {A B : Type} (f : A -> outcome B) (xs : list A) : outcome (list B) :=
  match xs with
  | [] => Return []
  | x :: rest =>
      y <- f x ;;
      ys <- mapM f rest ;;
      Return (y :: ys)
  end.

(** [xs.filter(Boolean)] over results that are an object or [null]. *)
Fixpoint filterSome {A : Type} (xs : list (option A)) : list A :=
  match xs with
  | [] => []
  | Some x :: rest => x :: filterSome rest
  | None :: rest => filterSome rest
  end.

(** ** Conversions that can throw *)

(** [String(v)] and [Number(v)] convert an object or an array to a primitive
    first, through its methods [toString] and [valueOf].  An object of the
    tree inherits them from [Object.prototype], unless it has a member of
    that name.  No value of the tree is a function: a member [toString]
    leaves the conversion without a method that yields a primitive
    ([valueOf], inherited, returns the object itself, and a member [valueOf]
    is stepped over), and the conversion throws.  An array is converted by
    [join], which converts its items the same way. *)
Fixpoint convertible (v : Value) : bool :=
  match v with
  | VObj members =>
      match lookup "toString" members with
      | Some _ => false
      | None => true
      end
  | VArr items => forallb convertible items
  | _ => true
  end.

Definition converts (x : option Value) : bool :=
  match x with
  | Some v => convertible v
  | None => true
  end.

Definition cannotConvert : JsError :=
  TypeError "Cannot convert object to primitive value".

(** The calls [String(x)] and [Number(x)]. *)
Definition StringOf (x : option Value) : outcome string :=
  if converts x then Return (String_ x) else Throw cannotConvert.

Definition NumberOf (x : option Value) : outcome JsNumber :=
  if converts x then Return (Number_ x) else Throw cannotConvert.

(** [Number(x)] under the test [x !== undefined]. *)
Definition numberIfDefined (x : option Value) : outcome (option JsNumber) :=
  if isDefined x then n <- NumberOf x ;; Return (Some n) else Return None.

(* ================================================================== *)
(** * libconfigParser.ts *)
(* ================================================================== *)

Inductive TokenType :=
| TIdentifier | TString | TNumber | TBoolean | TOperator | TDelimiter | TComment.

Record Token := mkToken {
  tok_type : TokenType;
  tok_value : string;
  tok_line : nat;
  tok_column : nat
}.

(** ** tokenize *)

(** The escape sequences of a string literal. *)
Definition unescape (escaped : ascii) : ascii :=
  if Ascii.eqb escaped "n"%char then newline
  else if Ascii.eqb escaped "t"%char then tab
  else if Ascii.eqb escaped "r"%char then carriage
  else escaped.

(** The loop over the body of a string literal, entered after the opening
    quote: returns the value, the column reached and the remainder of the
    line (at the closing quote, or empty). *)
Fixpoint scanString (rest : string) (column : nat) : string * nat * string :=
  match rest with
  | EmptyString => (EmptyString, column, EmptyString)
  | String c rest' =>
      if Ascii.eqb c dquote then (EmptyString, column, rest)
      else if Ascii.eqb c backslash then
        match rest' with
        | String escaped rest'' =>
            let '(value, column', remaining) := scanString rest'' (column + 2) in
            (String (unescape escaped) value, column', remaining)
        | EmptyString => (String c EmptyString, column + 1, EmptyString)
        end
      else
        let '(value, column', remaining) := scanString rest' (column + 1) in
        (String c value, column', remaining)
  end.

(** [while (column < line.length && test(line[column])) value += line[column++]] *)
Fixpoint scanWhile (test : ascii -> bool) (rest : string) (column : nat)
  : string * nat * string :=
  match rest with
  | EmptyString => (EmptyString, column, EmptyString)
  | String c rest' =>
      if test c then
        let '(value, column', remaining) := scanWhile test rest' (column + 1) in
        (String c value, column', remaining)
      else (EmptyString, column, rest)
  end.

(** [line[column + 1] === c], where [rest] is the line from [column]. *)
Definition nextIs (rest : string) (c : ascii) : bool :=
  match rest with
  | String _ (String d _) => Ascii.eqb d c
  | _ => false
  end.

(** ['=:;,{}()'.includes(char)] *)
Definition isPunctuation (c : ascii) : bool :=
  existsb (Ascii.eqb c) (list_ascii_of_string "=:;,{}()").

(** What one pass of the loop over a line does: it leaves the loop (a
    comment runs to the end of the line), or it goes on at a later column,
    having pushed a token or not. *)
Inductive Step :=
| Break
| Continue (pushed : option Token) (column : nat) (rest : string).

(** The body of the loop, at the character [char] of column [column], with
    [rest'] the line after it.  A token records the line number and its
    starting column, both counted from 1. *)
Definition lineStep (lineNum column : nat) (char : ascii) (rest' : string) : Step :=
  let rest := String char rest' in
  if isSpace char then Continue None (column + 1) rest'
  else if Ascii.eqb char "/"%char && nextIs rest "/"%char then Break
  else if Ascii.eqb char "#"%char then Break
  else if Ascii.eqb char dquote then
    let start := column in
    let '(value, column', remaining) := scanString rest' (column + 1) in
    let token := mkToken TString value (lineNum + 1) (start + 1) in
    match remaining with
    | String _ afterQuote => Continue (Some token) (column' + 1) afterQuote
    | EmptyString => Continue (Some token) column' remaining
    end
  else if isDigit char then
    let start := column in
    let '(value, column', remaining) :=
      if Ascii.eqb char "0"%char && nextIs rest "x"%char then
        match rest' with
        | String x rest'' =>
            let '(digits, c', r) := scanWhile isHexDigit rest'' (column + 2) in
            (String char (String x digits), c', r)
        | EmptyString => (String char EmptyString, column + 1, rest')
        end
      else scanWhile isDecimalChar rest column in
    Continue (Some (mkToken TNumber value (lineNum + 1) (start + 1))) column' remaining
  else if isIdentStart char then
    let start := column in
    let '(value, column', remaining) := scanWhile isIdentChar rest column in
    let type :=
      if String.eqb value "true" || String.eqb value "false"
      then TBoolean else TIdentifier in
    Continue (Some (mkToken type value (lineNum + 1) (start + 1))) column' remaining
  else if isPunctuation char then
    let type :=
      if Ascii.eqb char "="%char || Ascii.eqb char ":"%char
      then TOperator else TDelimiter in
    Continue (Some (mkToken type (String char EmptyString) (lineNum + 1) (column + 1)))
             (column + 1) rest'
  else Continue None (column + 1) rest'.

(** The loop over one line: [rest] is the line from [column] on. *)
Fixpoint tokenizeLine (fuel : nat) (lineNum column : nat) (rest : string)
  : option (list Token) :=
  match fuel with
  | 0 => None
  | S fuel' =>
      match rest with
      | EmptyString => Some []
      | String char rest' =>
          match lineStep lineNum column char rest' with
          | Break => Some []
          | Continue None column' remaining =>
              tokenizeLine fuel' lineNum column' remaining
          | Continue (Some token) column' remaining =>
              option_map (cons token) (tokenizeLine fuel' lineNum column' remaining)
          end
      end
  end.

(** The loop over the lines. *)
Fixpoint tokenizeLines (lineNum : nat) (lines : list string) : option (list Token) :=
  match lines with
  | [] => Some []
  | line :: rest =>
      match tokenizeLine (S (String.length line)) lineNum 0 line with
      | Some toks =>
          option_map (app toks) (tokenizeLines (S lineNum) rest)
      | None => None
      end
  end.

Definition tokenize (content : string) : option (list Token) :=
  tokenizeLines 0 (splitLines content).

(** ** parseValue, parseObject, parseArray *)

Definition isDelimiter (token : Token) (value : string) : bool :=
  match tok_type token with
  | TDelimiter => String.eqb (tok_value token) value
  | _ => false
  end.

Definition isAssignOperator (token : Token) : bool :=
  match tok_type token with
  | TOperator => String.eqb (tok_value token) ":" || String.eqb (tok_value token) "="
  | _ => false
  end.

Definition unexpectedToken (token : Token) : JsError :=
  PlainError ("Unexpected token: " ++ tok_value token ++ " at line "
              ++ string_of_nat (tok_line token)).

Definition expectedOperator (key : string) (token : Token) : JsError :=
  PlainError ("Expected : or = after " ++ key ++ " at line "
              ++ string_of_nat (tok_line token)).

(** The optional separator after a member or an array element. *)
Definition skipSeparator (separators : list string) (tokens : list Token)
  : list Token :=
  match tokens with
  | token :: rest =>
      if existsb (isDelimiter token) separators then rest else tokens
  | [] => []
  end.

(** [tokens] is the token array from [index] on, and the token list a
    function returns is the array from [nextIndex] on.  [parseObject] and
    [parseArray] carry the object and the array under construction through
    their loop. *)
Fixpoint parseValue (fuel : nat) (tokens : list Token)
  : outcome (Value * list Token) :=
  match fuel with
  | 0 => Diverge
  | S fuel' =>
      match tokens with
      | [] => Throw (PlainError "Unexpected end of input")
      | token :: rest =>
          match tok_type token with
          | TString => Return (VStr (tok_value token), rest)
          | TNumber =>
              let numValue :=
                if startsWith (tok_value token) "0x"
                then VStr (tok_value token)
                else VNum (parseFloat (tok_value token)) in
              Return (numValue, rest)
          | TBoolean => Return (VBool (String.eqb (tok_value token) "true"), rest)
          | TDelimiter =>
              if String.eqb (tok_value token) "{" then parseObject fuel' [] rest
              else if String.eqb (tok_value token) "(" then parseArray fuel' [] rest
              else Throw (unexpectedToken token)
          | _ => Throw (unexpectedToken token)
          end
      end
  end

with parseObject (fuel : nat) (obj : list (string * Value)) (tokens : list Token)
  : outcome (Value * list Token) :=
  match fuel with
  | 0 => Diverge
  | S fuel' =>
      match tokens with
      | [] => Return (VObj obj, [])
      | token :: rest =>
          if isDelimiter token "}" then Return (VObj obj, rest)
          else
            match tok_type token with
            | TIdentifier =>
                let key := tok_value token in
                match rest with
                | op :: rest' =>
                    if isAssignOperator op then
                      '(value, next) <- parseValue fuel' rest' ;;
                      parseObject fuel' (assign key value obj)
                                  (skipSeparator [";"; ","] next)
                    else Throw (expectedOperator key token)
                | [] => Throw (expectedOperator key token)
                end
            | _ => parseObject fuel' obj rest
            end
      end
  end

with parseArray (fuel : nat) (arr : list Value) (tokens : list Token)
  : outcome (Value * list Token) :=
  match fuel with
  | 0 => Diverge
  | S fuel' =>
      match tokens with
      | [] => Throw (PlainError "Unterminated array")
      | token :: rest =>
          if isDelimiter token ")" then Return (VArr arr, rest)
          else
            '(value, next) <- parseValue fuel' tokens ;;
            parseArray fuel' (arr +++ [value]) (skipSeparator [","] next)
      end
  end.

(** Fuel for the parser: a chain of calls is at most twice as long as the
    token list, [parseArray] calling [parseValue] on the tokens it was given. *)
Definition parserFuel (tokens : list Token) : nat := 2 * length tokens + 2.

Definition parseLibconfig (content : string) : outcome Value :=
  match tokenize content with
  | None => Diverge
  | Some tokens =>
      let startsWithIdentifier :=
        match tokens with
        | token :: _ =>
            match tok_type token with TIdentifier => true | _ => false end
        | [] => false
        end in
      if startsWithIdentifier
      then '(value, _) <- parseObject (parserFuel tokens) [] tokens ;; Return value
      else '(value, _) <- parseValue (parserFuel tokens) tokens ;; Return value
  end.

(* ================================================================== *)
(** * types/logiops.ts *)
(* ================================================================== *)

Record SmartShiftSettings := mkSmartShift {
  ss_on : bool;
  ss_threshold : JsNumber
}.

(** [ButtonAction], [ButtonActionParameters] and [GestureMapping]: an action
    of type [gesture] holds gestures, each of which holds an action. *)
Inductive ButtonAction :=
| mkAction (type : string) (parameters : option ButtonActionParameters)

with ButtonActionParameters :=
| mkParameters (keys : option (list string))
               (sensor : option JsNumber)
               (gestures : option (list GestureMapping))
               (mode : option string)
               (axis : option string)
               (axis_multiplier : option JsNumber)

with GestureMapping :=
| mkGesture (direction : string) (mode : string) (action : ButtonAction)
            (threshold : option JsNumber) (interval : option JsNumber).

Definition act_type (a : ButtonAction) : string :=
  let 'mkAction t _ := a in t.
Definition act_parameters (a : ButtonAction) : option ButtonActionParameters :=
  let 'mkAction _ p := a in p.

Definition par_keys (p : ButtonActionParameters) :=
  let 'mkParameters k _ _ _ _ _ := p in k.
Definition par_sensor (p : ButtonActionParameters) :=
  let 'mkParameters _ s _ _ _ _ := p in s.
Definition par_gestures (p : ButtonActionParameters) :=
  let 'mkParameters _ _ g _ _ _ := p in g.
Definition par_mode (p : ButtonActionParameters) :=
  let 'mkParameters _ _ _ m _ _ := p in m.
Definition par_axis (p : ButtonActionParameters) :=
  let 'mkParameters _ _ _ _ a _ := p in a.
Definition par_axis_multiplier (p : ButtonActionParameters) :=
  let 'mkParameters _ _ _ _ _ x := p in x.

Definition ges_direction (g : GestureMapping) :=
  let 'mkGesture d _ _ _ _ := g in d.
Definition ges_mode (g : GestureMapping) :=
  let 'mkGesture _ m _ _ _ := g in m.
Definition ges_action (g : GestureMapping) :=
  let 'mkGesture _ _ a _ _ := g in a.
Definition ges_threshold (g : GestureMapping) :=
  let 'mkGesture _ _ _ t _ := g in t.
Definition ges_interval (g : GestureMapping) :=
  let 'mkGesture _ _ _ _ i := g in i.

(** The parameter shapes the mapper builds. *)
Definition keysParameters (keys : list string) : ButtonActionParameters :=
  mkParameters (Some keys) None None None None None.
Definition gesturesParameters (gestures : list GestureMapping) : ButtonActionParameters :=
  mkParameters None None (Some gestures) None None None.
Definition axisParameters (mode axis : string) (axis_multiplier : option JsNumber)
  : ButtonActionParameters :=
  mkParameters None None None (Some mode) (Some axis) axis_multiplier.
Definition sensorParameters (sensor : JsNumber) : ButtonActionParameters :=
  mkParameters None (Some sensor) None None None None.

Record ButtonMapping := mkButton {
  btn_cid : string;
  btn_action : ButtonAction
}.

Record ScrollWheelSettings := mkScrollWheel {
  sw_hires : option bool;
  sw_invert : option bool;
  sw_target : option bool;
  sw_up : option ButtonAction;
  sw_down : option ButtonAction;
  sw_left : option ButtonAction;
  sw_right : option ButtonAction
}.

(** A device.  [dev_dpi] is the [DPISettings] object as it stands: the
    mapper stores the [dpi] block of the file unchanged when it has a
    [sensors] member, and the validator inspects it dynamically. *)
Record Device := mkDevice {
  dev_name : string;
  dev_vid : option string;
  dev_pid : option string;
  dev_timeout : option JsNumber;
  dev_smartshift : option SmartShiftSettings;
  dev_dpi : option Value;
  dev_buttons : option (list ButtonMapping);
  dev_gestures : option (list GestureMapping);
  dev_scrollWheel : option ScrollWheelSettings
}.

(** A [Date], by the text [toISOString] gives for it. *)
Record Date := mkDate { toISOString : string }.

(** The values that the two [new Date()] of a call give, the one stored as
    [created] and the one stored as [modified]. *)
Record Clock := mkClock { clock_created : Date; clock_modified : Date }.

Record ConfigurationMetadata := mkMetadata {
  meta_version : string;
  meta_created : Date;
  meta_modified : Date;
  meta_filename : option string;
  meta_originalContent : option string
}.

(** A configuration.  Both members are checked for presence by the
    validator, so both may be missing here. *)
Record LogiopsConfiguration := mkConfiguration {
  cfg_devices : option (list Device);
  cfg_metadata : option ConfigurationMetadata
}.

Record ValidationError := mkError {
  err_path : string;
  err_message : string;
  err_severity : string;
  err_field : option string
}.

Record ValidationResult := mkResult {
  isValid : bool;
  errors : list ValidationError;
  warnings : list ValidationError
}.

Record DeviceInfo := mkDeviceInfo {
  info_name : string;
  info_vid : string;
  info_pid : string
}.

Definition DPI_MIN : JsNumber := num_of_Z 50.
Definition DPI_MAX : JsNumber := num_of_Z 25600.
Definition GESTURE_THRESHOLD_MIN : JsNumber := num_of_Z 1.
Definition GESTURE_THRESHOLD_MAX : JsNumber := num_of_Z 100.
Definition GESTURE_INTERVAL_MIN : JsNumber := num_of_Z 1.
Definition GESTURE_INTERVAL_MAX : JsNumber := num_of_Z 1000.

(** [/^0x[0-9a-fA-F]{n}$/] *)
Definition hexPattern (n : nat) (s : string) : bool :=
  match s with
  | String "0"%char (String "x"%char digits) =>
      (String.length digits =? n) && allChars isHexDigit digits
  | _ => false
  end.

Definition BUTTON_CID_PATTERN : string -> bool := hexPattern 2.
Definition DEVICE_ID_PATTERN : string -> bool := hexPattern 4.

Definition COMMON_LOGITECH_DEVICES : list DeviceInfo :=
  [ mkDeviceInfo "MX Master 3S" "0x046d" "0x4082";
    mkDeviceInfo "MX Master 2S" "0x046d" "0x4069";
    mkDeviceInfo "G502 HERO" "0x046d" "0xc08b" ].

(* ================================================================== *)
(** * configParser.ts: from the generic tree to the model *)
(* ================================================================== *)

(** ** normalizeHexValue *)

Definition normalizeHexValue (value : string) : string :=
  let cleaned := toLowerCase (trim value) in
  if startsWith cleaned "0x" then cleaned else "0x" ++ cleaned.

(** ** Actions and gestures *)

(** The aliasing of type names shared by [parseActionFromData] and
    [normalizeActionData]. *)
Definition aliasType (normalizedType : string) : string :=
  if String.eqb normalizedType "keypress" then "key"
  else if String.eqb normalizedType "gestures" then "gesture"
  else if String.eqb normalizedType "changedpi" then "changeDPI"
  else normalizedType.

Definition isArray (x : option Value) : bool :=
  match x with
  | Some (VArr _) => true
  | _ => false
  end.

Definition arrayItems (x : option Value) : list Value :=
  match x with
  | Some (VArr items) => items
  | _ => []
  end.

(** [keys] as a list of strings: an array item by item, anything else as
    the one string it prints as. *)
Definition keysOf (keys : option Value) : outcome (list string) :=
  match keys with
  | Some (VArr items) => mapM (fun k => StringOf (Some k)) items
  | _ => key <- StringOf keys ;; Return [ key ]
  end.

(** The parameters of an axis action: the mode, the axis and then, when
    there is one, the axis_multiplier. *)
Definition axisParametersOf (data : Value) : outcome ButtonActionParameters :=
  mode <- StringOf (get data "mode") ;;
  axis <- StringOf (get data "axis") ;;
  axis_multiplier <- numberIfDefined (get data "axis_multiplier") ;;
  Return (axisParameters mode axis axis_multiplier).

(** [parseActionFromData] and [parseGestureFromData] call each other on the
    nested gestures of an action; [fuel] bounds the nesting.  A result of
    [None] is the [null] of the source. *)
Fixpoint parseActionFromData (fuel : nat) (data : option Value)
  : outcome (option ButtonAction) :=
  match fuel with
  | 0 => Diverge
  | S fuel' =>
      match data with
      | None => Return None
      | Some data =>
          if negb (truthyV data) || negb (truthy (get data "type")) then Return None
          else
            originalType <- StringOf (get data "type") ;;
            let normalizedType := toLowerCase originalType in
            let actionType := aliasType normalizedType in
            let switch := toLowerCase actionType in
            if String.eqb switch "keypress" || String.eqb switch "key" then
              if truthy (get data "keys") then
                keys <- keysOf (get data "keys") ;;
                Return (Some (mkAction actionType (Some (keysParameters keys))))
              else Return (Some (mkAction actionType None))
            else if String.eqb switch "gestures" || String.eqb switch "gesture" then
              if truthy (get data "gestures") && isArray (get data "gestures") then
                mapped <- mapM (parseGestureFromData fuel')
                               (arrayItems (get data "gestures")) ;;
                Return (Some (mkAction actionType
                                (Some (gesturesParameters (filterSome mapped)))))
              else Return (Some (mkAction actionType None))
            else if String.eqb switch "axis" then
              if truthy (get data "mode") && truthy (get data "axis") then
                parameters <- axisParametersOf data ;;
                Return (Some (mkAction actionType (Some parameters)))
              else Return (Some (mkAction actionType None))
            else if String.eqb switch "changedpi" then
              if isDefined (get data "sensor") then
                sensor <- NumberOf (get data "sensor") ;;
                Return (Some (mkAction actionType (Some (sensorParameters sensor))))
              else Return (Some (mkAction actionType None))
            else Return (Some (mkAction actionType None))
      end
  end

with parseGestureFromData (fuel : nat) (data : Value)
  : outcome (option GestureMapping) :=
  match fuel with
  | 0 => Diverge
  | S fuel' =>
      if negb (truthy (get data "direction")) || negb (truthy (get data "mode"))
      then Return None
      else
        action <- parseActionFromData fuel' (get data "action") ;;
        match action with
        | None => Return None
        | Some action =>
            direction <- StringOf (get data "direction") ;;
            mode <- StringOf (get data "mode") ;;
            threshold <- numberIfDefined (get data "threshold") ;;
            interval <- numberIfDefined (get data "interval") ;;
            Return (Some (mkGesture direction mode action threshold interval))
        end
  end.

(** Reading a member of [undefined]. *)
Definition cannotRead (member : string) : JsError :=
  TypeError ("Cannot read properties of undefined (reading '" ++ member ++ "')").

(** [normalizeActionData]: the action of a button, and recursively the
    action of each of its gestures.  The action of a gesture that has none is
    [undefined], and reading its [type] throws.  Of a gesture the direction
    and the mode are converted before its action is normalized. *)
Fixpoint normalizeActionData (fuel : nat) (actionData : option Value)
  : outcome ButtonAction :=
  match fuel with
  | 0 => Diverge
  | S fuel' =>
      match actionData with
      | None => Throw (cannotRead "type")
      | Some actionData =>
          originalType <- StringOf (get actionData "type") ;;
          let normalizedType := toLowerCase originalType in
          let actionType := aliasType normalizedType in
          if String.eqb actionType "key" && truthy (get actionData "keys") then
            keys <- keysOf (get actionData "keys") ;;
            Return (mkAction actionType (Some (keysParameters keys)))
          else if String.eqb actionType "gesture"
                  && truthy (get actionData "gestures")
                  && isArray (get actionData "gestures") then
            gestures <-
              mapM (fun gestureData =>
                      direction <- StringOf (get gestureData "direction") ;;
                      mode <- StringOf (get gestureData "mode") ;;
                      action <- normalizeActionData fuel' (get gestureData "action") ;;
                      Return (mkGesture direction mode action None None))
                   (arrayItems (get actionData "gestures")) ;;
            Return (mkAction actionType (Some (gesturesParameters gestures)))
          else if String.eqb actionType "axis"
                  && truthy (get actionData "mode")
                  && truthy (get actionData "axis") then
            parameters <- axisParametersOf actionData ;;
            Return (mkAction actionType (Some parameters))
          else if String.eqb actionType "changeDPI"
                  && isDefined (get actionData "sensor") then
            sensor <- NumberOf (get actionData "sensor") ;;
            Return (mkAction actionType (Some (sensorParameters sensor)))
          else Return (mkAction actionType None)
      end
  end.

(** The nesting depth of a value, which bounds the recursion of the mapper
    on it. *)
Fixpoint depth (v : Value) : nat :=
  match v with
  | VObj members =>
      S ((fix membersDepth (ms : list (string * Value)) : nat :=
            match ms with
            | [] => 0
            | (_, x) :: rest => Nat.max (depth x) (membersDepth rest)
            end) members)
  | VArr items =>
      S ((fix itemsDepth (xs : list Value) : nat :=
            match xs with
            | [] => 0
            | x :: rest => Nat.max (depth x) (itemsDepth rest)
            end) items)
  | _ => 1
  end.

Definition mapperFuel (data : Value) : nat := 2 * depth data + 2.

(** ** parseScrollWheelFromData *)

(** One pass of the loop over the directions: the action to store for
    [direction], if any. *)
Definition parseDirection (fuel : nat) (data : Value) (direction : string)
  : outcome (option ButtonAction) :=
  if truthy (get data direction) then
    match get data direction with
    | Some directionData =>
        if negb (truthy (get directionData "type"))
           && truthy (get directionData "mode")
           && truthy (get directionData "axis")
        then
          parameters <- axisParametersOf directionData ;;
          Return (Some (mkAction "cycleHiRes" (Some parameters)))
        else parseActionFromData fuel (Some directionData)
    | None => Return None
    end
  else Return None.

Definition booleanIfDefined (x : option Value) : option bool :=
  if isDefined x then Some (Boolean_ x) else None.

Definition parseScrollWheelFromData (fuel : nat) (data : Value)
  : outcome ScrollWheelSettings :=
  up <- parseDirection fuel data "up" ;;
  down <- parseDirection fuel data "down" ;;
  left_ <- parseDirection fuel data "left" ;;
  right_ <- parseDirection fuel data "right" ;;
  Return (mkScrollWheel
            (booleanIfDefined (get data "hires"))
            (booleanIfDefined (get data "invert"))
            (booleanIfDefined (get data "target"))
            up down left_ right_).

(** ** parseDeviceFromData, parseDevicesFromData *)

Definition defaultSensor (dpi : JsNumber) : Value :=
  VObj [("sensors", VArr [VObj [("dpi", VNum dpi); ("default", VBool true)]])].

Definition parseDpi (dpi : option Value) : option Value :=
  match dpi with
  | None => None
  | Some (VNum n) => Some (defaultSensor n)
  | Some v => if truthyV v && truthy (get v "sensors") then Some v else None
  end.

Definition parseSmartshift (smartshift : option Value)
  : outcome (option SmartShiftSettings) :=
  match smartshift with
  | Some v =>
      if truthyV v then
        threshold <-
          (if truthy (get v "threshold") then NumberOf (get v "threshold")
           else Return (num_of_Z 20)) ;;
        Return (Some (mkSmartShift (Boolean_ (get v "on")) threshold))
      else Return None
  | None => Return None
  end.

(** [a || b || c] *)
Definition firstTruthy (xs : list (option Value)) : option Value :=
  find truthyV (filterSome xs).

Definition parseButton (fuel : nat) (buttonData : Value)
  : outcome (option ButtonMapping) :=
  if negb (truthy (get buttonData "cid")) || negb (truthy (get buttonData "action"))
  then Return None
  else
    normalizedAction <- normalizeActionData fuel (get buttonData "action") ;;
    cid <- StringOf (get buttonData "cid") ;;
    Return (Some (mkButton (normalizeHexValue cid) normalizedAction)).

(** [x ? normalizeHexValue(String(x)) : ''] *)
Definition hexOrEmpty (x : option Value) : outcome string :=
  if truthy x then
    text <- StringOf x ;;
    Return (normalizeHexValue text)
  else Return EmptyString.

Definition parseDeviceFromData (data : Value) : outcome (option Device) :=
  if negb (truthy (get data "name")) then Return None
  else
    let fuel := mapperFuel data in
    name <- StringOf (get data "name") ;;
    vid <- hexOrEmpty (get data "vid") ;;
    pid <- hexOrEmpty (get data "pid") ;;
    timeout <- numberIfDefined (get data "timeout") ;;
    let dpi := parseDpi (get data "dpi") in
    smartshift <- parseSmartshift (get data "smartshift") ;;
    scrollWheel <-
      match firstTruthy [get data "hiresscroll"; get data "scrollwheel";
                         get data "scroll_wheel"] with
      | Some scrollData =>
          settings <- parseScrollWheelFromData fuel scrollData ;;
          Return (Some settings)
      | None => Return None
      end ;;
    buttons <-
      (if truthy (get data "buttons") && isArray (get data "buttons") then
         mapped <- mapM (parseButton fuel) (arrayItems (get data "buttons")) ;;
         Return (Some (filterSome mapped))
       else Return None) ;;
    gestures <-
      (if truthy (get data "gestures") && isArray (get data "gestures") then
         mapped <- mapM (parseGestureFromData fuel) (arrayItems (get data "gestures")) ;;
         Return (Some (filterSome mapped))
       else Return None) ;;
    Return (Some (mkDevice name (Some vid) (Some pid) timeout smartshift dpi
                           buttons gestures scrollWheel)).

(** [for (const deviceData of devicesData)]: an array is traversed item by
    item and a string character by character; a number, a boolean or an
    object is not iterable. *)
Definition iterate (name : string) (v : Value) : outcome (list Value) :=
  match v with
  | VArr items => Return items
  | VStr s => Return (map (fun c => VStr (String c EmptyString)) (list_ascii_of_string s))
  | _ => Throw (TypeError (name ++ " is not iterable"))
  end.

Definition parseDevicesFromData (devicesData : Value) : outcome (list Device) :=
  items <- iterate "devicesData" devicesData ;;
  mapped <- mapM parseDeviceFromData items ;;
  Return (filterSome mapped).

(** ** parseConfigFile *)

(** The [catch] of [parseConfigFile] and the re-throw. *)
Definition wrapParseError {A : Type} (m : outcome A) : outcome A :=
  match m with
  | Throw e =>
      if isConfigParseError e then Throw e
      else Throw (ConfigParseError
                    ("Failed to parse configuration file: " ++ errorMessage e)
                    None None)
  | other => other
  end.

(** [clock] holds the values of the two [new Date()] of the call. *)
Definition parseConfigFile (clock : Clock) (content : string) (filename : option string)
  : outcome LogiopsConfiguration :=
  wrapParseError (
    parsed <- parseLibconfig content ;;
    let devicesData :=
      if truthy (get parsed "devices") then
        match get parsed "devices" with
        | Some v => v
        | None => VArr []
        end
      else VArr [] in
    devices <- parseDevicesFromData devicesData ;;
    let metadata :=
      mkMetadata "1.0.0" (clock_created clock) (clock_modified clock)
                 filename (Some content) in
    Return (mkConfiguration (Some devices) (Some metadata))).

(** ** validateConfigSyntax *)

Definition validateConfigSyntax (clock : Clock) (content : string)
  : outcome (bool * list string) :=
  match parseConfigFile clock content None with
  | Return _ => Return (true, [])
  | Throw e =>
      if isConfigParseError e then Return (false, [errorMessage e])
      else Return (false, ["Syntax validation failed: " ++ errorMessage e])
  | Diverge => Diverge
  end.

(* ================================================================== *)
(** * configParser.ts: from the model to text *)
(* ================================================================== *)

(** ** getButtonComment *)

Definition buttonComments : list (string * string) :=
  [ ("0xc3", "Thumb button");
    ("0xc4", "Forward button");
    ("0xc5", "Back button");
    ("0x53", "Scroll wheel button");
    ("0x56", "Gesture button") ].

Fixpoint lookupComment (cid : string) (table : list (string * string)) : option string :=
  match table with
  | [] => None
  | (k, v) :: rest => if String.eqb k cid then Some v else lookupComment cid rest
  end.

(** [buttonComments[cid.toLowerCase()] || 'Button'].  The table is an
    object literal, and the lookup also finds what it inherits from
    [Object.prototype]; two of these names are in lower case: [constructor],
    the function [Object], and [__proto__], the prototype itself, which the
    template of the comment line prints as V8 prints them. *)
Definition getButtonComment (cid : string) : string :=
  let key := toLowerCase cid in
  match lookupComment key buttonComments with
  | Some comment => comment
  | None =>
      if String.eqb key "constructor" then "function Object() { [native code] }"
      else if String.eqb key "__proto__" then "[object Object]"
      else "Button"
  end.

(** ** generateActionConfig *)

(** The spelling of an action type in the file. *)
Definition emittedType (type : string) : string :=
  let lower := toLowerCase type in
  if String.eqb lower "key" || String.eqb lower "keypress" then "Keypress"
  else if String.eqb lower "gesture" || String.eqb lower "gestures" then "Gestures"
  else if String.eqb lower "changedpi" then "ChangeDPI"
  else if String.eqb lower "axis" then "Axis"
  else if String.eqb lower "cyclehires" then "cycleHiRes"
  else type.

(** [s.charAt(0).toUpperCase() + s.slice(1)] *)
Definition capitalize (s : string) : string :=
  match s with
  | EmptyString => EmptyString
  | String c rest => String (upperChar c) rest
  end.

Definition boolText (b : bool) : string := if b then "true" else "false".

(** The lines of the inlined axis form, which replace the [type] line. *)
Definition axisLines (indent axis : string) (axis_multiplier : option JsNumber)
  : list string :=
  [ indent ++ "mode: " ++ quoted "Axis" ++ ";";
    indent ++ "axis: " ++ quoted axis ++ ";" ]
  +++ match axis_multiplier with
     | Some m => [ indent ++ "axis_multiplier: " ++ string_of_number m ++ ";" ]
     | None => []
     end.

Definition nonEmpty (s : string) : bool := negb (String.eqb s EmptyString).

Fixpoint generateActionConfig (action : ButtonAction) (indent : string) : list string :=
  let 'mkAction type parameters := action in
  let actionType := emittedType type in
  let typeLine := indent ++ "type: " ++ quoted actionType ++ ";" in
  if String.eqb actionType "Keypress" then
    match parameters with
    | Some (mkParameters (Some keys) _ _ _ _ _) =>
        [ typeLine;
          indent ++ "keys: [" ++ join ", " (map quoted keys) ++ "];" ]
    | _ => [ typeLine ]
    end
  else if String.eqb actionType "Gestures" then
    match parameters with
    | Some (mkParameters _ _ (Some gestures) _ _ _) =>
        [ typeLine; indent ++ "gestures: (" ]
        +++ (fix each (gs : list GestureMapping) : list string :=
              match gs with
              | [] => []
              | mkGesture direction mode gestureAction _ _ :: rest =>
                  [ indent ++ "  {";
                    indent ++ "    direction: " ++ quoted (capitalize direction) ++ ";";
                    indent ++ "    mode: " ++ quoted mode ++ ";";
                    indent ++ "    action =";
                    indent ++ "    {" ]
                  +++ generateActionConfig gestureAction (indent ++ "      ")
                  +++ [ indent ++ "    };";
                       indent ++ "  }" ++ match rest with [] => EmptyString | _ => "," end ]
                  +++ each rest
              end) gestures
        +++ [ indent ++ ");" ]
    | _ => [ typeLine ]
    end
  else if String.eqb actionType "Axis" || String.eqb actionType "cycleHiRes" then
    match parameters with
    | Some (mkParameters _ _ _ _ (Some axis) axis_multiplier) =>
        if nonEmpty axis then axisLines indent axis axis_multiplier
        else [ typeLine ]
    | _ => [ typeLine ]
    end
  else [ typeLine ].

(** ** generateDeviceConfig *)

Definition optionalLine (indent key : string) (value : option string) : list string :=
  match value with
  | Some v => [ indent ++ key ++ ": " ++ v ++ ";" ]
  | None => []
  end.

Definition directionLines (indent direction : string) (action : option ButtonAction)
  : list string :=
  match action with
  | Some action =>
      [ indent ++ "  " ++ direction ++ ": {" ]
      +++ generateActionConfig action (indent ++ "      ")
      +++ [ indent ++ "  }," ]
  | None => []
  end.

Definition scrollWheelLines (indent : string) (scrollWheel : option ScrollWheelSettings)
  : list string :=
  match scrollWheel with
  | Some sw =>
      [ indent ++ "hiresscroll:"; indent ++ "{" ]
      +++ optionalLine (indent ++ "  ") "hires" (option_map boolText (sw_hires sw))
      +++ optionalLine (indent ++ "  ") "invert" (option_map boolText (sw_invert sw))
      +++ optionalLine (indent ++ "  ") "target" (option_map boolText (sw_target sw))
      +++ directionLines indent "up" (sw_up sw)
      +++ directionLines indent "down" (sw_down sw)
      +++ directionLines indent "left" (sw_left sw)
      +++ directionLines indent "right" (sw_right sw)
      +++ [ indent ++ "};" ]
  | None => []
  end.

(** The [dpi] line.  [device.dpi.sensors] is expected to be an array; on a
    value of another shape the test of its [length] or the call of its
    [find] throws. *)
Definition dpiLines (indent : string) (dpi : option Value) : outcome (list string) :=
  match dpi with
  | None => Return []
  | Some dpi =>
      if negb (truthyV dpi) then Return []
      else
        match get dpi "sensors" with
        | None => Throw (cannotRead "length")
        | Some (VArr []) => Return []
        | Some (VArr (first :: others)) =>
            let defaultSensor :=
              match find (fun s => truthy (get s "default")) (first :: others) with
              | Some s => s
              | None => first
              end in
            text <- StringOf (get defaultSensor "dpi") ;;
            Return [ indent ++ "dpi: " ++ text ++ ";" ]
        | Some (VStr text) =>
            if nonEmpty text
            then Throw (TypeError "device.dpi.sensors.find is not a function")
            else Return []
        | Some (VObj members) =>
            length <- NumberOf (lookup "length" members) ;;
            if num_gtb length (num_of_Z 0)
            then Throw (TypeError "device.dpi.sensors.find is not a function")
            else Return []
        | Some _ => Return []
        end
  end.

Fixpoint buttonLines (indent : string) (buttons : list ButtonMapping) : list string :=
  match buttons with
  | [] => []
  | button :: rest =>
      [ indent ++ "  {";
        indent ++ "    # " ++ getButtonComment (btn_cid button);
        indent ++ "    cid: " ++ btn_cid button ++ ";";
        indent ++ "    action =";
        indent ++ "    {" ]
      +++ generateActionConfig (btn_action button) (indent ++ "      ")
      +++ [ indent ++ "    };";
           indent ++ "  }" ++ match rest with [] => EmptyString | _ => "," end ]
      +++ buttonLines indent rest
  end.

Definition truthyString (s : option string) : option string :=
  match s with
  | Some v => if nonEmpty v then Some v else None
  | None => None
  end.

Definition generateDeviceConfig (device : Device) (indent : string)
  : outcome (list string) :=
  dpi <- dpiLines indent (dev_dpi device) ;;
  Return (
    [ indent ++ "// For the " ++ dev_name device;
      indent ++ "name: " ++ quoted (dev_name device) ++ ";" ]
    +++ optionalLine indent "vid" (truthyString (dev_vid device))
    +++ optionalLine indent "pid" (truthyString (dev_pid device))
    +++ optionalLine indent "timeout" (option_map string_of_number (dev_timeout device))
    +++ match dev_smartshift device with
       | Some smartshift =>
           [ indent ++ "smartshift:";
             indent ++ "{";
             indent ++ "  on: " ++ boolText (ss_on smartshift) ++ ";";
             indent ++ "  threshold: " ++ string_of_number (ss_threshold smartshift) ++ ";";
             indent ++ "};" ]
       | None => []
       end
    +++ scrollWheelLines indent (dev_scrollWheel device)
    +++ dpi
    +++ match dev_buttons device with
       | Some (button :: rest) =>
           [ indent ++ "buttons: (" ]
           +++ buttonLines indent (button :: rest)
           +++ [ indent ++ ");" ]
       | _ => []
       end).

(** ** generateConfigFile *)

(** The loop over the devices: the lines of each device, and between two
    devices the closing and the opening brace. *)
Fixpoint devicesLines (devices : list Device) : outcome (list string) :=
  match devices with
  | [] => Return []
  | device :: rest =>
      lines <- generateDeviceConfig device "  " ;;
      others <- devicesLines rest ;;
      Return (lines
              +++ match rest with [] => [] | _ => [ "},"; "{" ] end
              +++ others)
  end.

Definition generateConfigFile (config : LogiopsConfiguration) : outcome string :=
  match cfg_metadata config with
  | None => Throw (cannotRead "created")
  | Some metadata =>
      let header :=
        [ "// Generated by logiops-gui";
          "// Created: " ++ toISOString (meta_created metadata);
          "// Modified: " ++ toISOString (meta_modified metadata);
          EmptyString ] in
      match cfg_devices config with
      | None => Throw (cannotRead "length")
      | Some [] => Return (join newlineStr header)
      | Some devices =>
          body <- devicesLines devices ;;
          Return (join newlineStr
                    (header +++ [ "devices: ("; "{" ] +++ body +++ [ "});" ]))
      end
  end.

(* ================================================================== *)
(** * validation.ts *)
(* ================================================================== *)

Definition error (path message : string) (field : option string) : ValidationError :=
  mkError path message "error" field.

Definition warning (path message : string) (field : option string) : ValidationError :=
  mkError path message "warning" field.

(** The object every validator returns:
    [{ isValid: errors.length === 0, errors, warnings }]. *)
Definition validationResult (errors warnings : list ValidationError) : ValidationResult :=
  mkResult (length errors =? 0) errors warnings.

(** The accumulation of the diagnostics of the parts: [forEach] with an
    index, pushing the errors and the warnings of each result. *)
Fixpoint collect {A : Type} (validate : A -> nat -> ValidationResult)
         (index : nat) (xs : list A)
  : list ValidationError * list ValidationError :=
  match xs with
  | [] => ([], [])
  | x :: rest =>
      let r := validate x index in
      let '(es, ws) := collect validate (S index) rest in
      (errors r +++ es, warnings r +++ ws)
  end.

Definition indexed (path : string) (index : nat) : string :=
  path ++ "[" ++ string_of_nat index ++ "]".

(** ** validateDPISensor *)

Definition validateDPISensor (sensor : Value) (basePath : string) : ValidationResult :=
  match get sensor "dpi" with
  | Some (VNum dpi) =>
      if num_ltb dpi DPI_MIN || num_gtb dpi DPI_MAX then
        validationResult
          [ error (basePath ++ ".dpi")
                  ("DPI must be between " ++ string_of_number DPI_MIN ++ " and "
                   ++ string_of_number DPI_MAX)
                  (Some "dpi") ]
          []
      else if num_rem_nonzero dpi 50 then
        validationResult []
          [ warning (basePath ++ ".dpi") "DPI values are typically multiples of 50"
                    (Some "dpi") ]
      else validationResult [] []
  | _ =>
      validationResult
        [ error (basePath ++ ".dpi") "DPI value must be a number" (Some "dpi") ]
        []
  end.

(** ** validateDPISettings *)

(** The number of sensors whose [default] is truthy. *)
Definition defaultCount (sensors : list Value) : nat :=
  length (filter (fun sensor => truthy (get sensor "default")) sensors).

Definition validateDPISettings (dpi : Value) (basePath : string) : ValidationResult :=
  match get dpi "sensors" with
  | Some (VArr []) =>
      validationResult
        [ error (basePath ++ ".sensors") "At least one DPI sensor must be configured" None ]
        []
  | Some (VArr sensors) =>
      let '(es, ws) :=
        collect (fun sensor index =>
                   validateDPISensor sensor (indexed (basePath ++ ".sensors") index))
                0 sensors in
      if defaultCount sensors =? 0 then
        validationResult es
          (ws +++ [ warning (basePath ++ ".sensors") "No default DPI sensor specified" None ])
      else if 1 <? defaultCount sensors then
        validationResult
          (es +++ [ error (basePath ++ ".sensors")
                          "Only one DPI sensor can be marked as default" None ])
          ws
      else validationResult es ws
  | _ =>
      validationResult
        [ error (basePath ++ ".sensors") "DPI sensors array is required" None ]
        []
  end.

(** ** validateButtonAction *)

Definition validTypes : list string :=
  [ "key"; "gesture"; "changeDPI"; "toggleSmartShift"; "cycleHiRes"; "toggleHiRes" ].

Definition member (s : string) (xs : list string) : bool :=
  existsb (String.eqb s) xs.

Definition validateButtonAction (action : ButtonAction) (basePath : string)
  : ValidationResult :=
  let type := act_type action in
  let typeErrors :=
    if negb (nonEmpty type) then
      [ error (basePath ++ ".type") "Action type is required" (Some "type") ]
    else if negb (member type validTypes) then
      [ error (basePath ++ ".type")
              ("Action type must be one of: " ++ join ", " validTypes)
              (Some "type") ]
    else [] in
  let keysErrors :=
    match act_parameters action with
    | Some (mkParameters (Some keys) _ _ _ _ _) =>
        if String.eqb type "key" && (length keys =? 0) then
          [ error (basePath ++ ".parameters.keys")
                  "Key action requires at least one key" None ]
        else []
    | _ => []
    end in
  let sensorErrors :=
    match act_parameters action with
    | Some (mkParameters _ (Some sensor) _ _ _ _) =>
        if String.eqb type "changeDPI" && num_ltb sensor (num_of_Z 0) then
          [ error (basePath ++ ".parameters.sensor")
                  "Sensor index must be a non-negative number" None ]
        else []
    | _ => []
    end in
  validationResult (typeErrors +++ keysErrors +++ sensorErrors) [].

(** ** validateButtonMapping *)

Definition validateButtonMapping (button : ButtonMapping) (basePath : string)
  : ValidationResult :=
  let cidErrors :=
    if negb (nonEmpty (btn_cid button)) then
      [ error (basePath ++ ".cid") "Button control ID (cid) is required" (Some "cid") ]
    else if negb (BUTTON_CID_PATTERN (btn_cid button)) then
      [ error (basePath ++ ".cid")
              "Button control ID must be in hexadecimal format (e.g., 0x52)"
              (Some "cid") ]
    else [] in
  let actionResult := validateButtonAction (btn_action button) (basePath ++ ".action") in
  validationResult (cidErrors +++ errors actionResult) (warnings actionResult).

(** ** validateGestureMapping *)

Definition validDirections : list string := [ "up"; "down"; "left"; "right"; "none" ].
Definition validModes : list string := [ "OnRelease"; "OnFewPixels"; "OnInterval" ].

(** [value < min || value > max] *)
Definition outOfRange (value lo hi : JsNumber) : bool :=
  num_ltb value lo || num_gtb value hi.

Definition validateGestureMapping (gesture : GestureMapping) (basePath : string)
  : ValidationResult :=
  let directionErrors :=
    if negb (nonEmpty (ges_direction gesture)) then
      [ error (basePath ++ ".direction") "Gesture direction is required"
              (Some "direction") ]
    else if negb (member (ges_direction gesture) validDirections) then
      [ error (basePath ++ ".direction")
              ("Gesture direction must be one of: " ++ join ", " validDirections)
              (Some "direction") ]
    else [] in
  let modeErrors :=
    if negb (nonEmpty (ges_mode gesture)) then
      [ error (basePath ++ ".mode") "Gesture mode is required" (Some "mode") ]
    else if negb (member (ges_mode gesture) validModes) then
      [ error (basePath ++ ".mode")
              ("Gesture mode must be one of: " ++ join ", " validModes)
              (Some "mode") ]
    else [] in
  let thresholdErrors :=
    match ges_threshold gesture with
    | Some threshold =>
        if String.eqb (ges_mode gesture) "OnFewPixels"
           && outOfRange threshold GESTURE_THRESHOLD_MIN GESTURE_THRESHOLD_MAX then
          [ error (basePath ++ ".threshold")
                  ("Threshold must be between " ++ string_of_number GESTURE_THRESHOLD_MIN
                   ++ " and " ++ string_of_number GESTURE_THRESHOLD_MAX)
                  (Some "threshold") ]
        else []
    | None => []
    end in
  let intervalErrors :=
    match ges_interval gesture with
    | Some interval =>
        if String.eqb (ges_mode gesture) "OnInterval"
           && outOfRange interval GESTURE_INTERVAL_MIN GESTURE_INTERVAL_MAX then
          [ error (basePath ++ ".interval")
                  ("Interval must be between " ++ string_of_number GESTURE_INTERVAL_MIN
                   ++ " and " ++ string_of_number GESTURE_INTERVAL_MAX)
                  (Some "interval") ]
        else []
    | None => []
    end in
  let actionResult := validateButtonAction (ges_action gesture) (basePath ++ ".action") in
  validationResult
    (directionErrors +++ modeErrors +++ thresholdErrors +++ intervalErrors
     +++ errors actionResult)
    (warnings actionResult).

(** ** validateScrollWheelSettings *)

(** The [hires], [invert] and [target] members are booleans by their type,
    so the three [typeof] checks of the source never fire here; what is left
    is the validation of the action of each direction that has one. *)
Definition validateScrollWheelSettings (scrollWheel : ScrollWheelSettings)
           (basePath : string) : ValidationResult :=
  let direction (name : string) (action : option ButtonAction) :=
    match action with
    | Some action => validateButtonAction action (basePath ++ "." ++ name)
    | None => validationResult [] []
    end in
  let up := direction "up" (sw_up scrollWheel) in
  let down := direction "down" (sw_down scrollWheel) in
  let left_ := direction "left" (sw_left scrollWheel) in
  let right_ := direction "right" (sw_right scrollWheel) in
  validationResult
    (errors up +++ errors down +++ errors left_ +++ errors right_)
    (warnings up +++ warnings down +++ warnings left_ +++ warnings right_).

(** ** validateDevice *)

Definition idErrors (basePath field required malformed : string) (id : option string)
  : list ValidationError :=
  match truthyString id with
  | None => [ error (basePath ++ "." ++ field) required (Some field) ]
  | Some v =>
      if negb (DEVICE_ID_PATTERN v)
      then [ error (basePath ++ "." ++ field) malformed (Some field) ]
      else []
  end.

(** [`${x}`] for a member that may be [undefined]. *)
Definition template (x : option string) : string :=
  match x with
  | Some v => v
  | None => "undefined"
  end.

Definition knownDevice (vid pid : string) : bool :=
  existsb (fun d => String.eqb (info_vid d) vid && String.eqb (info_pid d) pid)
          COMMON_LOGITECH_DEVICES.

Definition validateDevice (device : Device) (basePath : string) : ValidationResult :=
  let nameErrors :=
    if negb (nonEmpty (dev_name device)) || String.eqb (trim (dev_name device)) EmptyString
    then [ error (basePath ++ ".name") "Device name is required" (Some "name") ]
    else [] in
  let vidErrors :=
    idErrors basePath "vid" "Vendor ID (vid) is required"
      "Vendor ID must be in hexadecimal format (e.g., 0x046d)" (dev_vid device) in
  let pidErrors :=
    idErrors basePath "pid" "Product ID (pid) is required"
      "Product ID must be in hexadecimal format (e.g., 0x4082)" (dev_pid device) in
  let knownWarnings :=
    match truthyString (dev_vid device), truthyString (dev_pid device) with
    | Some vid, Some pid =>
        if knownDevice vid pid then []
        else [ warning basePath
                 ("Device " ++ vid ++ ":" ++ pid ++ " is not in the known devices list")
                 None ]
    | _, _ => []
    end in
  let dpiResult :=
    match dev_dpi device with
    | Some dpi =>
        if truthyV dpi then validateDPISettings dpi (basePath ++ ".dpi")
        else validationResult [] []
    | None => validationResult [] []
    end in
  let '(buttonErrors, buttonWarnings) :=
    match dev_buttons device with
    | Some buttons =>
        collect (fun button index =>
                   validateButtonMapping button (indexed (basePath ++ ".buttons") index))
                0 buttons
    | None => ([], [])
    end in
  let '(gestureErrors, gestureWarnings) :=
    match dev_gestures device with
    | Some gestures =>
        collect (fun gesture index =>
                   validateGestureMapping gesture (indexed (basePath ++ ".gestures") index))
                0 gestures
    | None => ([], [])
    end in
  let scrollResult :=
    match dev_scrollWheel device with
    | Some scrollWheel =>
        validateScrollWheelSettings scrollWheel (basePath ++ ".scrollWheel")
    | None => validationResult [] []
    end in
  validationResult
    (nameErrors +++ vidErrors +++ pidErrors +++ errors dpiResult +++ buttonErrors
     +++ gestureErrors +++ errors scrollResult)
    (knownWarnings +++ warnings dpiResult +++ buttonWarnings +++ gestureWarnings
     +++ warnings scrollResult).

(** ** validateConfiguration *)

(** [deviceIds.indexOf(id)] *)
Fixpoint indexOf (id : string) (ids : list string) : option nat :=
  match ids with
  | [] => None
  | x :: rest =>
      if String.eqb x id then Some 0 else option_map S (indexOf id rest)
  end.

(** [deviceIds.filter((id, index) => deviceIds.indexOf(id) !== index)],
    traversing [ids], the part of [deviceIds] from [index] on. *)
Fixpoint duplicatesFrom (deviceIds : list string) (index : nat) (ids : list string)
  : list string :=
  match ids with
  | [] => []
  | id :: rest =>
      let others := duplicatesFrom deviceIds (S index) rest in
      match indexOf id deviceIds with
      | Some first => if first =? index then others else id :: others
      | None => id :: others
      end
  end.

Definition deviceId (d : Device) : string :=
  template (dev_vid d) ++ ":" ++ template (dev_pid d).

Definition validateConfiguration (config : LogiopsConfiguration) : ValidationResult :=
  let metadataErrors :=
    match cfg_metadata config with
    | None => [ error "metadata" "Configuration metadata is required" None ]
    | Some _ => []
    end in
  match cfg_devices config with
  | None =>
      validationResult
        (metadataErrors +++ [ error "devices" "Devices array is required" None ])
        []
  | Some [] =>
      validationResult metadataErrors [ warning "devices" "No devices configured" None ]
  | Some devices =>
      let '(deviceErrors, deviceWarnings) :=
        collect (fun device index => validateDevice device (indexed "devices" index))
                0 devices in
      let deviceIds := map deviceId devices in
      let duplicates := duplicatesFrom deviceIds 0 deviceIds in
      let duplicateErrors :=
        match duplicates with
        | [] => []
        | _ =>
            [ error "devices" ("Duplicate devices found: " ++ join ", " duplicates) None ]
        end in
      validationResult (metadataErrors +++ deviceErrors +++ duplicateErrors)
                       deviceWarnings
  end.

(** ** createDefaultConfiguration, createDefaultDevice *)

Definition createDefaultConfiguration (clock : Clock) : LogiopsConfiguration :=
  mkConfiguration (Some [])
    (Some (mkMetadata "1.0.0" (clock_created clock) (clock_modified clock) None None)).

Definition createDefaultDevice : Device :=
  mkDevice "New Device" (Some "0x046d") (Some "0x0000") None None None None None None.

(* ================================================================== *)
(** * configParser.ts: extractDeviceInfo *)
(* ================================================================== *)

(** [parsed.devices || []] *)
Definition devicesDataOf (parsed : Value) : Value :=
  if truthy (get parsed "devices") then
    match get parsed "devices" with
    | Some v => v
    | None => VArr []
    end
  else VArr [].

(** An entry of the list [extractDeviceInfo] returns. *)
Record DeviceIdentity := mkIdentity {
  id_name : string;
  id_vid : string;
  id_pid : string
}.

(** One pass of the loop: the entry pushed for [deviceData], if any. *)
Definition identityOf (deviceData : Value) : outcome (option DeviceIdentity) :=
  if truthy (get deviceData "name") then
    name <- StringOf (get deviceData "name") ;;
    vid <- hexOrEmpty (get deviceData "vid") ;;
    pid <- hexOrEmpty (get deviceData "pid") ;;
    Return (Some (mkIdentity name vid pid))
  else Return None.

(** The loop over the blocks: an exception leaves the loop, and the list
    keeps the entries pushed before it. *)
Fixpoint identitiesOf (items : list Value) : list DeviceIdentity :=
  match items with
  | [] => []
  | deviceData :: rest =>
      match identityOf deviceData with
      | Return (Some entry) => entry :: identitiesOf rest
      | Return None => identitiesOf rest
      | _ => []
      end
  end.

(** [extractDeviceInfo]: the list is filled inside a [try] whose [catch]
    ignores the exception, and returned as it stands then: empty when the
    parser throws or the devices are not iterable. *)
Definition extractDeviceInfo (content : string) : outcome (list DeviceIdentity) :=
  match parseLibconfig content with
  | Return parsed =>
      match iterate "devicesData" (devicesDataOf parsed) with
      | Return items => Return (identitiesOf items)
      | Throw _ => Return []
      | Diverge => Diverge
      end
  | Throw _ => Return []
  | Diverge => Diverge
  end.

(* ================================================================== *)
(** * serialization.ts *)
(* ================================================================== *)

(** ** toDisplayFormat *)









(** ** getConfigurationSummary *)





(** ** extractDeviceConfiguration *)

(** [device.vid === vid && device.pid === pid] *)
Definition hasIds (vid pid : string) (device : Device) : bool :=
  match dev_vid device, dev_pid device with
  | Some v, Some p => String.eqb v vid && String.eqb p pid
  | _, _ => false
  end.

(** A result of [None] is the [null] of the source. *)
Definition extractDeviceConfiguration (config : LogiopsConfiguration) (vid pid : string)
  : outcome (option Device) :=
  match cfg_devices config with
  | None => Throw (cannotRead "find")
  | Some devices => Return (find (hasIds vid pid) devices)
  end.

(* ================================================================== *)
(** * useValidation.ts *)
(* ================================================================== *)

(** ** useFieldValidation *)

Record FieldValidation := mkFieldValidation {
  field_hasErrors : bool;
  field_hasWarnings : bool;
  field_errors : list ValidationError;
  field_warnings : list ValidationError;
  field_isValid : bool
}.

(** [error.path === fieldPath || error.path.startsWith(fieldPath + '.')] *)
Definition atField (fieldPath : string) (e : ValidationError) : bool :=
  String.eqb (err_path e) fieldPath || startsWith (err_path e) (fieldPath ++ ".").

(** The value the hook computes, which [useMemo] keeps until an argument
    changes. *)
Definition useFieldValidation (fieldPath : string)
           (errors warnings : list ValidationError) : FieldValidation :=
  let fieldErrors := filter (atField fieldPath) errors in
  let fieldWarnings := filter (atField fieldPath) warnings in
  mkFieldValidation (0 <? length fieldErrors)
                    (0 <? length fieldWarnings)
                    fieldErrors
                    fieldWarnings
                    (length fieldErrors =? 0).

(* ================================================================== *)
(** * Specification vocabulary *)
(* ================================================================== *)

(** ** Hexadecimal identifiers *)

Definition noSpace (c : ascii) : bool := negb (isSpace c).

(** [/[0-9a-f]/] *)
Definition isLowerHexDigit (c : ascii) : bool := isDigit c || between 97 102 c.

(** [/^0x[0-9a-f]+$/] *)
Definition lowerHexPattern (s : string) : bool :=
  match s with
  | String "0"%char (String "x"%char digits) =>
      nonEmpty digits && allChars isLowerHexDigit digits
  | _ => false
  end.

(** A non-empty run of hexadecimal digits in any case, with or without a
    [0x] or [0X] in front, and white space around it. *)
Definition hexInput (h : string) : Prop :=
  exists lead p digits trail,
    h = lead ++ p ++ digits ++ trail
    /\ allChars isSpace lead = true
    /\ allChars isSpace trail = true
    /\ (p = EmptyString \/ p = "0x" \/ p = "0X")
    /\ digits <> EmptyString
    /\ allChars isHexDigit digits = true.

(** ** Validation *)

(** The decimal [d] is the integer [z]. *)
Definition decimalIs (d : Decimal) (z : Z) : Prop :=
  mant d = (z * pow10 (scale d))%Z.

(** A sensor whose [dpi] is a number in [50, 25600] and a multiple of 50. *)
Definition regularSensor (sensor : Value) : Prop :=
  exists d z,
    get sensor "dpi" = Some (VNum (JNum d))
    /\ decimalIs d z /\ (50 <= z <= 25600)%Z /\ (z mod 50 = 0)%Z.

(** A sensor marked as the default one. *)
Definition markedDefault (sensor : Value) : bool := truthy (get sensor "default").

(** [isValid] says exactly that there is no error. *)
Definition consistent (r : ValidationResult) : Prop :=
  isValid r = true <-> errors r = [].

(** ** Tokens *)

(** The character [char], met by the loop of the tokenizer with [rest']
    after it, starts nothing: it is no white space, no comment, no quote, no
    digit, no letter or underscore, no operator and no delimiter. *)
Definition unrecognized (char : ascii) (rest' : string) : bool :=
  negb (isSpace char)
  && negb (Ascii.eqb char "/"%char && nextIs (String char rest') "/"%char)
  && negb (Ascii.eqb char "#"%char)
  && negb (Ascii.eqb char dquote)
  && negb (isDigit char)
  && negb (isIdentStart char)
  && negb (isPunctuation char).

(** A character that starts nothing wherever it stands. *)
Definition stray (char : ascii) : bool :=
  negb (isSpace char || Ascii.eqb char "/"%char || Ascii.eqb char "#"%char
        || Ascii.eqb char dquote || isDigit char || isIdentStart char
        || isPunctuation char).

(** ** The mapper *)

(** The nesting depth of a value that may be [undefined]. *)
Definition depthOf (data : option Value) : nat :=
  match data with
  | Some v => depth v
  | None => 0
  end.

(** The identifier the mapper stores for the member [x] of a block, when
    the conversion of [x] to a string returns. *)
Definition storedHex (x : option Value) : string :=
  if truthy x then normalizeHexValue (String_ x) else EmptyString.

(** No object of the value, at any depth, has a member [toString]: every
    conversion of a part of it to a string or to a number returns. *)
Fixpoint plain (v : Value) : bool :=
  match v with
  | VObj members =>
      (fix each (ms : list (string * Value)) : bool :=
         match ms with
         | [] => true
         | (k, x) :: rest => negb (String.eqb k "toString") && plain x && each rest
         end) members
  | VArr items => forallb plain items
  | _ => true
  end.

(** No object of the value, at any depth, has a member [__proto__]: every
    object has the prototype of an object literal, as the model has it. *)
Fixpoint ordinary (v : Value) : bool :=
  match v with
  | VObj members =>
      (fix each (ms : list (string * Value)) : bool :=
         match ms with
         | [] => true
         | (k, x) :: rest => negb (String.eqb k "__proto__") && ordinary x && each rest
         end) members
  | VArr items => forallb ordinary items
  | _ => true
  end.



(** ** Documents *)

Definition notNewline (c : ascii) : bool := negb (Ascii.eqb c newline).

(** A character of a device name that the generator can write between
    quotes as it is: no quote, no backslash, no line feed. *)
Definition nameChar (c : ascii) : bool :=
  negb (Ascii.eqb c dquote) && negb (Ascii.eqb c backslash) && notNewline c.

Definition validName (name : string) : Prop :=
  name <> EmptyString /\ allChars nameChar name = true.


(** The scan of a run of characters that pass [test] stops at [rest]. *)
Definition stopsAt (test : ascii -> bool) (rest : string) : bool :=
  match rest with
  | EmptyString => true
  | String c _ => negb (test c)
  end.

(** What the parser sees of a token: its type and its text. *)
Definition kind (token : Token) : TokenType * string :=
  (tok_type token, tok_value token).

(** A line without a token: a comment, white space, nothing. *)
Definition silent (line : string) : Prop :=
  allChars notNewline line = true
  /\ forall lineNum, tokenizeLine (S (String.length line)) lineNum 0 line = Some [].

(** The line [line] has no line feed and tokenizes, on its own, to tokens of
    the given kinds. *)
Definition tokensOf (line : string) (kinds : list (TokenType * string)) : Prop :=
  allChars notNewline line = true
  /\ forall lineNum, exists tokens,
       tokenizeLine (S (String.length line)) lineNum 0 line = Some tokens
       /\ map kind tokens = kinds.

(** The line of an identifier, when the device has it. *)
Definition idLine (key : string) (digits : option string) : list string :=
  match digits with
  | Some d => [ "  " ++ key ++ ": 0x" ++ d ++ ";" ]
  | None => []
  end.

(** A document with one [devices] array that holds one device block: the
    name, then the identifiers given, each on its line as the generator
    writes them, with silent lines [before] the array and [inside] the
    block. *)
Definition deviceDocument (before inside : list string) (name : string)
           (vid pid : option string) : string :=
  join newlineStr
    (before +++ [ "devices: ("; "{" ] +++ inside
     +++ [ "  name: " ++ quoted name ++ ";" ]
     +++ idLine "vid" vid +++ idLine "pid" pid +++ [ "});" ]).

Definition hexDigitsIfGiven (digits : option string) : Prop :=
  match digits with
  | Some d => allChars isHexDigit d = true
  | None => True
  end.

(** The identifier the mapper stores: lower-cased after [0x], or empty when
    the block has none. *)
Definition storedId (digits : option string) : string :=
  match digits with
  | Some d => "0x" ++ toLowerCase d
  | None => EmptyString
  end.

(** The member of the device block for an identifier that is given. *)
Definition idMembers (key : string) (digits : option string) : list (string * Value) :=
  match digits with
  | Some d => [ (key, VStr ("0x" ++ d)) ]
  | None => []
  end.

(** Metadata whose dates print without a line feed, as [toISOString]
    prints every date. *)
Definition wellFormedMetadata (metadata : ConfigurationMetadata) : Prop :=
  allChars notNewline (toISOString (meta_created metadata)) = true
  /\ allChars notNewline (toISOString (meta_modified metadata)) = true.

(** The header the generator writes. *)
Definition generatedHeader (metadata : ConfigurationMetadata) : list string :=
  [ "// Generated by logiops-gui";
    "// Created: " ++ toISOString (meta_created metadata);
    "// Modified: " ++ toISOString (meta_modified metadata);
    EmptyString ].

(** A device with a name and identifiers and nothing else. *)
Definition plainDevice (name vid pid : string) : Device :=
  mkDevice name (Some vid) (Some pid) None None None None None None.

(** ** Sample data *)

Definition sampleSensors : list Value :=
  [ VObj [ ("dpi", VNum (num_of_Z 800)); ("default", VBool true) ];
    VObj [ ("dpi", VNum (num_of_Z 1600)) ] ].

Definition sampleDpi : Value := VObj [ ("sensors", VArr sampleSensors) ].

(** Two devices with the same vid and pid. *)
Definition twinA : Device :=
  mkDevice "Mouse A" (Some "0x046d") (Some "0x4082") None None None None None None.

Definition twinB : Device :=
  mkDevice "Mouse B" (Some "0x046d") (Some "0x4082") None None None None None None.

Definition twinConfig : LogiopsConfiguration :=
  mkConfiguration (Some [ twinA; twinB ]) None.

(** A scroll wheel whose [up] entry is in the axis form. *)
Definition axisEntry : Value :=
  VObj [ ("mode", VStr "Axis"); ("axis", VStr "REL_WHEEL");
         ("axis_multiplier", VNum (JNum (mkDecimal 3 1))) ].

Definition axisScroll : Value := VObj [ ("hires", VBool true); ("up", axisEntry) ].

(** ** Sample documents *)

Definition sampleDate : Date := mkDate "2024-01-01T00:00:00.000Z".

Definition sampleClock : Clock :=
  mkClock (mkDate "2025-03-01T09:30:00.000Z") (mkDate "2025-03-01T09:30:00.001Z").


(** Two [devices] entries, each an array of one device. *)
Definition devicesTwice : string :=
  join newlineStr
    [ "devices: ({ name: " ++ quoted "MX Master 3" ++ "; vid: 0x046d; pid: 0x4082; });";
      "devices: ({ name: " ++ quoted "G502 HERO" ++ "; vid: 0x046d; pid: 0xc08b; });" ].

(** A [devices] entry given as a single object. *)
Definition devicesAsObject : string :=
  join newlineStr
    [ "devices: {";
      "  name: " ++ quoted "Test Device" ++ ";";
      "  vid: 0x1234;";
      "  pid: 0x5678;";
      "};" ].

(** A [buttons] block that is not closed before the end of the input. *)
Definition unclosedButtons : string :=
  join newlineStr
    [ "timeout: 1500;";
      "buttons: {";
      "  cid: 0x50;" ].

(** The same inside a device given as a single object, as in the tests of
    the repository. *)
Definition unclosedButtonsInDevice : string :=
  join newlineStr
    [ "devices: {";
      "  name: " ++ quoted "Test Device" ++ ";";
      "  vid: 0x1234;";
      "  pid: 0x5678;";
      "  buttons: {";
      "    button0: {";
      "      cid: 0x50;";
      "    };";
      "  // Missing closing brace" ].




Definition sampleMetadata : ConfigurationMetadata :=
  mkMetadata "1.0.0" sampleDate (mkDate "2024-01-02T00:00:00.000Z") None None.



Definition parsedAt (clock : Clock) (content : string) (devices : list Device)
  : outcome LogiopsConfiguration :=
  Return (mkConfiguration (Some devices)
            (Some (mkMetadata "1.0.0" (clock_created clock) (clock_modified clock)
                     None (Some content)))).

Definition failedToParse (reason : string) : outcome LogiopsConfiguration :=
  Throw (ConfigParseError ("Failed to parse configuration file: " ++ reason) None None).

(** ** Termination *)

(** The computation ended, with a value or an exception, before the fuel
    ran out. *)
Definition settled {A : Type} (r : outcome A) : Prop := r <> Diverge.

(** A result of the parser that is settled and, when it is a value, leaves
    at most [bound] tokens. *)
Definition consumes (bound : nat) (r : outcome (Value * list Token)) : Prop :=
  match r with
  | Return (_, rest) => length rest <= bound
  | Throw _ => True
  | Diverge => False
  end.

(** The computation ends, and an exception it throws is one of [errors]. *)
Definition throwsOnly {A : Type} (errors : JsError -> Prop) (r : outcome A) : Prop :=
  match r with
  | Return _ => True
  | Throw e => errors e
  | Diverge => False
  end.

(** The exception of a conversion to a primitive. *)
Definition conversionError (e : JsError) : Prop := e = cannotConvert.

(** ** The parser *)

(** The tokens [consumed], and then [rest], are the tokens [tokens]. *)
Definition leaves (tokens consumed rest : list Token) : Prop :=
  tokens = consumed +++ rest.

(** One of [tokens] is the delimiter [value]. *)
Definition hasDelimiter (value : string) (tokens : list Token) : Prop :=
  exists token, In token tokens /\ isDelimiter token value = true.

(** The errors the libconfig parser raises on the tokens [tokens]. *)
Inductive parserError (tokens : list Token) : JsError -> Prop :=
| EndOfInput :
    parserError tokens (PlainError "Unexpected end of input")
| UnexpectedToken token :
    In token tokens -> parserError tokens (unexpectedToken token)
| ExpectedOperator token :
    In token tokens -> tok_type token = TIdentifier ->
    parserError tokens (expectedOperator (tok_value token) token)
| UnterminatedArray :
    parserError tokens (PlainError "Unterminated array").

(** The errors the mapper raises. *)
Inductive mapperError : JsError -> Prop :=
| NotIterable : mapperError (TypeError "devicesData is not iterable")
| ActionMissing : mapperError (cannotRead "type")
| NotConvertible : mapperError cannotConvert.



(** A configuration without a devices list. *)
Definition withoutDevices : LogiopsConfiguration :=
  mkConfiguration None (Some sampleMetadata).

(** A scroll wheel whose [up] entry has an empty array for its axis. *)
Definition emptyAxisEntry : Value :=
  VObj [ ("mode", VStr "Axis"); ("axis", VArr []) ].

Definition emptyAxisScroll : Value := VObj [ ("up", emptyAxisEntry) ].

(** A line that holds white space alone, or white space and then a comment. *)
Definition blankOrComment (line : string) : bool :=
  let text := trimStart line in
  String.eqb text EmptyString || startsWith text "//" || startsWith text "#".

(** The metadata of [createDefaultConfiguration] at the sample clock. *)
Definition defaultMetadata : ConfigurationMetadata :=
  mkMetadata "1.0.0" (clock_created sampleClock) (clock_modified sampleClock) None None.

(** The tokens of [( true, "b" ) x] and what follows the array. *)
Definition afterArray : list Token := [ mkToken TIdentifier "x" 1 15 ].

Definition closedArray : list Token :=
  [ mkToken TDelimiter "(" 1 1; mkToken TBoolean "true" 1 3;
    mkToken TDelimiter "," 1 7; mkToken TString "b" 1 9;
    mkToken TDelimiter ")" 1 13 ] +++ afterArray.


(** A text of comments and blank lines. *)
Definition commentsOnly : string :=
  join newlineStr [ "// logiops configuration"; EmptyString; "   # no device yet" ].

(** The name and the identifiers of a device, as [extractDeviceInfo] lists
    them. *)
Definition identityOfDevice (device : Device) : DeviceIdentity :=
  mkIdentity (dev_name device)
             (match dev_vid device with Some vid => vid | None => EmptyString end)
             (match dev_pid device with Some pid => pid | None => EmptyString end).

(** ** Identifiers in canonical form *)

(** The text [normalizeHexValue] leaves as it is: it starts with [0x], has
    no upper-case letter and no white space around it. *)
Definition canonicalId (id : string) : Prop :=
  startsWith id "0x" = true /\ toLowerCase id = id /\ trim id = id.



(** A device block with a name and a vid, without pid. *)
Definition blockWithoutPid : Value :=
  VObj [ ("name", VStr "Test Device"); ("vid", VStr "0x1234") ].

(** ** Validation, part by part *)

(** The device passes the checks of [validateDevice] at [basePath]: a name
    that is not blank, a vid and a pid of the form [0x] and four hexadecimal
    digits, and sections that pass their own validator. *)
Definition acceptable (device : Device) (basePath : string) : Prop :=
  trim (dev_name device) <> EmptyString
  /\ (exists vid, dev_vid device = Some vid /\ DEVICE_ID_PATTERN vid = true)
  /\ (exists pid, dev_pid device = Some pid /\ DEVICE_ID_PATTERN pid = true)
  /\ (forall dpi, dev_dpi device = Some dpi -> truthyV dpi = true ->
        isValid (validateDPISettings dpi (basePath ++ ".dpi")) = true)
  /\ (forall buttons index button,
        dev_buttons device = Some buttons -> nth_error buttons index = Some button ->
        isValid (validateButtonMapping button (indexed (basePath ++ ".buttons") index))
        = true)
  /\ (forall gestures index gesture,
        dev_gestures device = Some gestures -> nth_error gestures index = Some gesture ->
        isValid (validateGestureMapping gesture (indexed (basePath ++ ".gestures") index))
        = true)
  /\ (forall scrollWheel,
        dev_scrollWheel device = Some scrollWheel ->
        isValid (validateScrollWheelSettings scrollWheel (basePath ++ ".scrollWheel"))
        = true).


(** A device with two buttons, and a configuration that holds it. *)
Definition sampleButtons : list ButtonMapping :=
  [ mkButton "0xc3" (mkAction "key" (Some (keysParameters [ "KEY_A" ])));
    mkButton "0x52" (mkAction "toggleSmartShift" None) ].

Definition deviceWithButtons : Device :=
  mkDevice "G502 HERO" (Some "0x046d") (Some "0xc08b") None None None
           (Some sampleButtons) None None.

Definition pairConfig : LogiopsConfiguration :=
  mkConfiguration (Some [ deviceWithButtons; twinB ]) (Some sampleMetadata).

(** ** The paths of the diagnostics *)

(** Every diagnostic of [es] has a path that continues [basePath] with a dot
    and a further part. *)
Definition pathsBelow (basePath : string) (es : list ValidationError) : Prop :=
  Forall (fun e => exists rest, err_path e = basePath ++ "." ++ rest) es.

(** A device with dpi settings that have two default sensors, and a button
    without a valid control id. *)
Definition faultyDpi : Value :=
  VObj [ ("sensors",
          VArr [ VObj [ ("dpi", VNum (num_of_Z 800)); ("default", VBool true) ];
                 VObj [ ("dpi", VNum (num_of_Z 30)); ("default", VBool true) ] ]) ].

Definition faultyDevice : Device :=
  mkDevice "MX Master 3" (Some "0x046d") (Some "0x4082") None None
           (Some faultyDpi)
           (Some [ mkButton "c3" (mkAction "key" None) ]) None None.

(** ** Positions *)

(** [s.slice(n)] *)
Fixpoint dropChars (n : nat) (s : string) : string :=
  match n, s with
  | 0, _ => s
  | S n', String _ s' => dropChars n' s'
  | S _, EmptyString => EmptyString
  end.

(** The text a token starts with in its line: the opening quote of a string
    literal, and the value of every other token. *)
Definition tokenText (token : Token) : string :=
  match tok_type token with
  | TString => String dquote EmptyString
  | _ => tok_value token
  end.

(** A text of three lines with a comment, a string and two numbers. *)
Definition positionedText : string :=
  join newlineStr [ "// header"; "name: " ++ quoted "A B";"  dpi = 0x1F, 800" ].

Definition positionedTokens : list Token :=
  [ mkToken TIdentifier "name" 2 1; mkToken TOperator ":" 2 5;
    mkToken TString "A B" 2 7;
    mkToken TIdentifier "dpi" 3 3; mkToken TOperator "=" 3 7;
    mkToken TNumber "0x1F" 3 9; mkToken TDelimiter "," 3 13;
    mkToken TNumber "800" 3 15 ].

(** ** Tokens up to their positions *)

(** Two token lists with the same types and values, token by token. *)
Definition sameKinds (tokens tokens' : list Token) : Prop :=
  map kind tokens = map kind tokens'.

(** The token of a kind, at no position in particular. *)
Definition tokenOf (k : TokenType * string) : Token := mkToken (fst k) (snd k) 0 0.

(** What a pass of the loop of the tokenizer does, up to the positions: it
    leaves the loop, or it goes on with the rest of the line, having pushed
    a token of some kind or none. *)
Definition stepKind (step : Step) : option (option (TokenType * string) * string) :=
  match step with
  | Break => None
  | Continue pushed _ remaining => Some (option_map kind pushed, remaining)
  end.

(** The kinds of the tokens of a line. *)
Definition lineKinds (line : string) : option (list (TokenType * string)) :=
  option_map (map kind) (tokenizeLine (S (String.length line)) 0 0 line).

(** The same tokens, spread over lines and on one line. *)
Definition spreadText : string :=
  join newlineStr [ "dpi:"; "{"; "  sensors = ( 800 );"; "};" ].

Definition denseText : string := "dpi:{sensors=(800);};".

Definition spreadTokens : list Token :=
  [ mkToken TIdentifier "dpi" 1 1; mkToken TOperator ":" 1 4;
    mkToken TDelimiter "{" 2 1;
    mkToken TIdentifier "sensors" 3 3; mkToken TOperator "=" 3 11;
    mkToken TDelimiter "(" 3 13; mkToken TNumber "800" 3 15;
    mkToken TDelimiter ")" 3 19; mkToken TDelimiter ";" 3 20;
    mkToken TDelimiter "}" 4 1; mkToken TDelimiter ";" 4 2 ].

Definition denseTokens : list Token :=
  [ mkToken TIdentifier "dpi" 1 1; mkToken TOperator ":" 1 4;
    mkToken TDelimiter "{" 1 5;
    mkToken TIdentifier "sensors" 1 6; mkToken TOperator "=" 1 13;
    mkToken TDelimiter "(" 1 14; mkToken TNumber "800" 1 15;
    mkToken TDelimiter ")" 1 18; mkToken TDelimiter ";" 1 19;
    mkToken TDelimiter "}" 1 20; mkToken TDelimiter ";" 1 21 ].

(** ** The keys of an action, as the generator writes them *)

(** What follows the first key in the brackets: each further key after a
    comma and a space. *)
Fixpoint furtherKeys (more : list string) : string :=
  match more with
  | [] => EmptyString
  | key :: rest => ", " ++ quoted key ++ furtherKeys rest
  end.

(** The kinds of the tokens of the further keys. *)
Fixpoint furtherKinds (more : list string) : list (TokenType * string) :=
  match more with
  | [] => []
  | key :: rest => (TDelimiter, ",") :: (TString, key) :: furtherKinds rest
  end.

(** A token that [parseObject] steps over: no identifier, no closing brace. *)
Definition steppedOver (token : Token) : Prop :=
  isDelimiter token "}" = false /\ tok_type token <> TIdentifier.

(** ** Documents with several devices *)

(** The name of a device and the digits of its vid and of its pid. *)
Record DeviceEntry := mkEntry {
  entry_name : string;
  entry_vid : string;
  entry_pid : string
}.

Definition validEntry (entry : DeviceEntry) : Prop :=
  validName (entry_name entry)
  /\ allChars isHexDigit (entry_vid entry) = true
  /\ allChars isHexDigit (entry_pid entry) = true.

(** The device of an entry as it is written, and as it is read back. *)
Definition written (entry : DeviceEntry) : Device :=
  plainDevice (entry_name entry) ("0x" ++ entry_vid entry) ("0x" ++ entry_pid entry).

Definition readBack (entry : DeviceEntry) : Device :=
  plainDevice (entry_name entry) ("0x" ++ toLowerCase (entry_vid entry))
              ("0x" ++ toLowerCase (entry_pid entry)).

(** The lines the generator writes for the device of an entry, and between
    the braces of the devices list for the devices of a list of entries. *)
Definition entryLines (entry : DeviceEntry) : list string :=
  [ "  // For the " ++ entry_name entry;
    "  name: " ++ quoted (entry_name entry) ++ ";";
    "  vid: 0x" ++ entry_vid entry ++ ";";
    "  pid: 0x" ++ entry_pid entry ++ ";" ].

Fixpoint bodyLines (entries : list DeviceEntry) : list string :=
  match entries with
  | [] => []
  | entry :: rest =>
      entryLines entry
      +++ match rest with [] => [] | _ => [ "},"; "{" ] end
      +++ bodyLines rest
  end.

(** The kinds of the tokens of these lines, line by line. *)
Definition entryKinds (entry : DeviceEntry) : list (list (TokenType * string)) :=
  [ [];
    [ (TIdentifier, "name"); (TOperator, ":"); (TString, entry_name entry);
      (TDelimiter, ";") ];
    [ (TIdentifier, "vid"); (TOperator, ":"); (TNumber, "0x" ++ entry_vid entry);
      (TDelimiter, ";") ];
    [ (TIdentifier, "pid"); (TOperator, ":"); (TNumber, "0x" ++ entry_pid entry);
      (TDelimiter, ";") ] ].

Fixpoint bodyKinds (entries : list DeviceEntry) : list (list (TokenType * string)) :=
  match entries with
  | [] => []
  | entry :: rest =>
      entryKinds entry
      +++ match rest with
         | [] => []
         | _ => [ [ (TDelimiter, "}"); (TDelimiter, ",") ]; [ (TDelimiter, "{") ] ]
         end
      +++ bodyKinds rest
  end.

(** The kinds of the tokens of an array of device blocks, from the opening
    brace of the first block to the closing parenthesis, and then [tail]. *)
Fixpoint arrayKinds (entries : list DeviceEntry) (tail : list (TokenType * string))
  : list (TokenType * string) :=
  match entries with
  | [] => (TDelimiter, ")") :: tail
  | entry :: rest =>
      (TDelimiter, "{") :: concat (entryKinds entry)
      +++ (TDelimiter, "}")
          :: match rest with [] => [] | _ => [ (TDelimiter, ",") ] end
      +++ arrayKinds rest tail
  end.

(** The tree of a device block. *)
Definition entryTree (entry : DeviceEntry) : Value :=
  VObj [ ("name", VStr (entry_name entry));
         ("vid", VStr ("0x" ++ entry_vid entry));
         ("pid", VStr ("0x" ++ entry_pid entry)) ].

(** Two devices, the first with identifiers in upper case. *)
Definition sampleEntries : list DeviceEntry :=
  [ mkEntry "MX Master 3" "046D" "4082"; mkEntry "G502 HERO" "046d" "C08B" ].

(* ================================================================== *)
(** * Properties *)
(* ================================================================== *)

(** ** Characters and strings *)

Ltac ascii_cases c :=
  destruct c as [[|] [|] [|] [|] [|] [|] [|] [|]].

Lemma hex_not_space c : isHexDigit c = true -> isSpace c = false.
Proof. ascii_cases c; vm_compute; intros; solve [reflexivity | discriminate]. Qed.

Lemma lower_hex c : isHexDigit c = true -> isLowerHexDigit (lowerChar c) = true.
Proof. ascii_cases c; vm_compute; intros; solve [reflexivity | discriminate]. Qed.

Lemma lowerHex_is_hex c : isLowerHexDigit c = true -> isHexDigit c = true.
Proof. ascii_cases c; vm_compute; intros; solve [reflexivity | discriminate]. Qed.

Lemma lowerHex_fixed c : isLowerHexDigit c = true -> lowerChar c = c.
Proof. ascii_cases c; vm_compute; intros; solve [reflexivity | discriminate]. Qed.

Lemma append_assoc (a b c : string) : (a ++ b) ++ c = a ++ (b ++ c).
Proof. induction a; simpl; congruence. Qed.

Lemma append_nil_r (a : string) : a ++ EmptyString = a.
Proof. induction a; simpl; congruence. Qed.

Lemma allChars_app test a b :
  allChars test (a ++ b) = allChars test a && allChars test b.
Proof. induction a; simpl; [reflexivity|]. rewrite IHa, andb_assoc. reflexivity. Qed.

Lemma allChars_impl (p q : ascii -> bool) s :
  (forall c, p c = true -> q c = true) -> allChars p s = true -> allChars q s = true.
Proof.
  intros Hpq. induction s; simpl; [reflexivity|].
  rewrite !andb_true_iff. intros [? ?]. auto.
Qed.

Lemma trimStart_spaces lead s :
  allChars isSpace lead = true -> trimStart (lead ++ s) = trimStart s.
Proof.
  induction lead; simpl; [reflexivity|].
  rewrite andb_true_iff. intros [-> ?]. auto.
Qed.

Lemma trimEnd_spaces trail : allChars isSpace trail = true -> trimEnd trail = EmptyString.
Proof.
  induction trail; simpl; [reflexivity|].
  rewrite andb_true_iff. intros [-> H]. rewrite (IHtrail H). reflexivity.
Qed.

Lemma trimEnd_app_spaces s trail :
  allChars noSpace s = true -> allChars isSpace trail = true ->
  trimEnd (s ++ trail) = s.
Proof.
  intros Hs Ht. induction s; simpl.
  - apply trimEnd_spaces; assumption.
  - simpl in Hs. rewrite andb_true_iff in Hs. destruct Hs as [Ha Hs].
    unfold noSpace in Ha. rewrite negb_true_iff in Ha.
    rewrite (IHs Hs), Ha. destruct s; reflexivity.
Qed.

Lemma trim_padded lead s trail :
  allChars isSpace lead = true -> allChars noSpace s = true ->
  allChars isSpace trail = true ->
  trim (lead ++ s ++ trail) = s.
Proof.
  intros Hl Hs Ht. unfold trim. rewrite (trimStart_spaces lead _ Hl).
  destruct s as [|a s].
  - simpl. clear Hs. induction trail; simpl; [reflexivity|].
    simpl in Ht. rewrite andb_true_iff in Ht. destruct Ht as [-> Ht]. auto.
  - assert (trimStart (String a s ++ trail) = String a s ++ trail) as ->.
    { simpl in *. rewrite andb_true_iff in Hs. destruct Hs as [Ha _].
      unfold noSpace in Ha. rewrite negb_true_iff in Ha. rewrite Ha. reflexivity. }
    apply trimEnd_app_spaces; assumption.
Qed.

Lemma trim_solid s : allChars noSpace s = true -> trim s = s.
Proof.
  intros H. rewrite <- (append_nil_r s) at 1.
  apply (trim_padded EmptyString s EmptyString); auto.
Qed.

Lemma toLowerCase_app a b : toLowerCase (a ++ b) = toLowerCase a ++ toLowerCase b.
Proof. induction a; simpl; congruence. Qed.

Lemma toLowerCase_lowerHex s :
  allChars isLowerHexDigit s = true -> toLowerCase s = s.
Proof.
  induction s; simpl; [reflexivity|].
  rewrite andb_true_iff. intros [Ha H]. rewrite (lowerHex_fixed _ Ha), (IHs H). reflexivity.
Qed.

Lemma toLowerCase_hex s :
  allChars isHexDigit s = true -> allChars isLowerHexDigit (toLowerCase s) = true.
Proof.
  induction s; simpl; [reflexivity|].
  rewrite !andb_true_iff. intros [Ha H]. split; [apply lower_hex|]; auto.
Qed.

Lemma hex_solid s : allChars isHexDigit s = true -> allChars noSpace s = true.
Proof.
  apply allChars_impl. intros c H. unfold noSpace. rewrite (hex_not_space _ H). reflexivity.
Qed.

Lemma startsWith_0x s : startsWith ("0x" ++ s) "0x" = true.
Proof. reflexivity. Qed.

(** A value with the prefix is lower-cased and nothing else. *)
Lemma normalizeHexValue_prefixed digits :
  allChars isHexDigit digits = true ->
  normalizeHexValue ("0x" ++ digits) = "0x" ++ toLowerCase digits.
Proof.
  intros H. unfold normalizeHexValue.
  rewrite trim_solid by (simpl; apply hex_solid; exact H).
  change (toLowerCase ("0x" ++ digits)) with ("0x" ++ toLowerCase digits).
  rewrite startsWith_0x. reflexivity.
Qed.

(** The canonical form is a fixed point. *)
Lemma normalizeHexValue_canonical digits :
  allChars isLowerHexDigit digits = true ->
  normalizeHexValue ("0x" ++ digits) = "0x" ++ digits.
Proof.
  intros H. rewrite normalizeHexValue_prefixed.
  - rewrite (toLowerCase_lowerHex _ H). reflexivity.
  - eapply allChars_impl; [apply lowerHex_is_hex | exact H].
Qed.

Lemma startsWith_0x_lowerHex s :
  allChars isLowerHexDigit s = true -> startsWith s "0x" = false.
Proof.
  destruct s as [|a [|b s]]; cbn [startsWith allChars]; try reflexivity.
  - intros _. apply andb_false_r.
  - rewrite !andb_true_iff. intros (_ & Hb & _).
    destruct (Ascii.eqb_spec "x" b) as [<-|]; [discriminate Hb|].
    rewrite andb_false_l. apply andb_false_r.
Qed.

Lemma normalizeHexValue_hexInput h :
  hexInput h ->
  exists digits,
    normalizeHexValue h = "0x" ++ digits
    /\ digits <> EmptyString /\ allChars isLowerHexDigit digits = true.
Proof.
  intros (lead & p & digits & trail & -> & Hlead & Htrail & Hp & Hne & Hd).
  exists (toLowerCase digits). split; [|split].
  - unfold normalizeHexValue.
    assert (Hsolid : allChars noSpace (p ++ digits) = true).
    { rewrite allChars_app, (hex_solid _ Hd), andb_true_r.
      destruct Hp as [-> | [-> | ->]]; reflexivity. }
    rewrite <- (append_assoc p digits trail).
    rewrite (trim_padded lead (p ++ digits) trail Hlead Hsolid Htrail).
    rewrite toLowerCase_app.
    destruct Hp as [-> | [-> | ->]].
    + change (toLowerCase EmptyString ++ toLowerCase digits) with (toLowerCase digits).
      rewrite startsWith_0x_lowerHex; [reflexivity|].
      apply toLowerCase_hex; assumption.
    + change (toLowerCase "0x" ++ toLowerCase digits) with ("0x" ++ toLowerCase digits).
      rewrite startsWith_0x. reflexivity.
    + change (toLowerCase "0X" ++ toLowerCase digits) with ("0x" ++ toLowerCase digits).
      rewrite startsWith_0x. reflexivity.
  - destruct digits; [congruence | discriminate].
  - apply toLowerCase_hex; assumption.
Qed.


(** ** Validation *)

Lemma pow10_pos n : (0 < pow10 n)%Z.
Proof. unfold pow10. apply Z.pow_pos_nonneg; lia. Qed.

Lemma validationResult_consistent es ws : consistent (validationResult es ws).
Proof.
  unfold consistent, validationResult. simpl. destruct es; simpl; split; congruence.
Qed.

Lemma validateDPISensor_regular sensor basePath :
  regularSensor sensor -> validateDPISensor sensor basePath = validationResult [] [].
Proof.
  intros (d & z & Hget & Hd & Hrange & Hmod).
  unfold validateDPISensor. rewrite Hget.
  pose proof (pow10_pos (scale d)) as Hp.
  assert (Hlt : num_ltb (JNum d) DPI_MIN = false).
  { unfold num_ltb, DPI_MIN, num_of_Z, dec_of_Z, dec_ltb. simpl mant. simpl scale.
    rewrite Hd. apply Z.ltb_ge. change (pow10 0) with 1%Z. nia. }
  assert (Hgt : num_gtb (JNum d) DPI_MAX = false).
  { unfold num_gtb, num_ltb, DPI_MAX, num_of_Z, dec_of_Z, dec_ltb. simpl mant. simpl scale.
    rewrite Hd. apply Z.ltb_ge. change (pow10 0) with 1%Z. nia. }
  assert (Hrem : num_rem_nonzero (JNum d) 50 = false).
  { unfold num_rem_nonzero. rewrite Hd. apply negb_false_iff, Z.eqb_eq.
    apply Z.mod_divide in Hmod; [|lia]. destruct Hmod as [k ->].
    replace (k * 50 * pow10 (scale d))%Z with (k * (50 * pow10 (scale d)))%Z by ring.
    apply Z.rem_mul. lia. }
  rewrite Hlt, Hgt, Hrem. reflexivity.
Qed.

Lemma collect_clean {A : Type} (validate : A -> nat -> ValidationResult) xs :
  (forall x index, In x xs -> validate x index = validationResult [] []) ->
  forall index, collect validate index xs = ([], []).
Proof.
  induction xs as [|x xs IH]; intros H index; simpl; [reflexivity|].
  rewrite (H x index (or_introl eq_refl)).
  rewrite IH by (intros; apply H; right; assumption). reflexivity.
Qed.

Lemma includes_prefix s rest : includes (s ++ rest) s = true.
Proof.
  assert (H : startsWith (s ++ rest) s = true).
  { induction s; simpl; [reflexivity|]. rewrite Ascii.eqb_refl. assumption. }
  destruct s; simpl in *; [destruct rest; reflexivity|].
  rewrite H. reflexivity.
Qed.

(** Every path through a validator ends in [validationResult]. *)
Ltac consistency :=
  repeat match goal with
         | |- consistent (validationResult _ _) => apply validationResult_consistent
         | |- consistent (match ?x with _ => _ end) => destruct x
         | |- consistent (let _ := _ in _) => cbv zeta
         end.

(** *** Duplicate identifiers *)

Lemma indexOf_first id ids i :
  nth_error ids i = Some id -> exists k, indexOf id ids = Some k /\ k <= i.
Proof.
  revert i. induction ids as [|x ids IH]; intros [|i] H; simpl in *; try discriminate.
  - injection H as ->. rewrite String.eqb_refl. exists 0. auto.
  - destruct (String.eqb x id); [exists 0; split; [reflexivity | lia]|].
    destruct (IH i H) as (k & -> & Hk). exists (S k). split; [reflexivity | lia].
Qed.

Lemma duplicatesFrom_In deviceIds id suffix index n :
  nth_error suffix n = Some id ->
  indexOf id deviceIds <> Some (index + n) ->
  In id (duplicatesFrom deviceIds index suffix).
Proof.
  revert index n. induction suffix as [|x suffix IH]; intros index [|n] Hn Hneq;
    simpl in *; try discriminate.
  - injection Hn as ->. rewrite Nat.add_0_r in Hneq.
    destruct (indexOf id deviceIds) as [first|]; [|left; reflexivity].
    destruct (Nat.eqb_spec first index); [congruence | left; reflexivity].
  - assert (In id (duplicatesFrom deviceIds (S index) suffix)) as Hin.
    { apply (IH (S index) n Hn). rewrite Nat.add_succ_comm. exact Hneq. }
    destruct (indexOf x deviceIds) as [first|]; [|right; exact Hin].
    destruct (first =? index); [exact Hin | right; exact Hin].
Qed.

Lemma duplicates_found ids i j id :
  i < j -> nth_error ids i = Some id -> nth_error ids j = Some id ->
  In id (duplicatesFrom ids 0 ids).
Proof.
  intros Hij Hi Hj. apply (duplicatesFrom_In ids id ids 0 j Hj).
  destruct (indexOf_first id ids i Hi) as (k & -> & Hk). simpl. intros [= ->]. lia.
Qed.

Lemma validateConfiguration_same_id config devices i j d1 d2 :
  cfg_devices config = Some devices ->
  i < j -> nth_error devices i = Some d1 -> nth_error devices j = Some d2 ->
  deviceId d1 = deviceId d2 ->
  isValid (validateConfiguration config) = false
  /\ exists e, In e (errors (validateConfiguration config))
               /\ includes (err_message e) "Duplicate devices" = true.
Proof.
  intros Hdev Hij Hi Hj Hid.
  assert (Hdup : In (deviceId d2) (duplicatesFrom (map deviceId devices) 0 (map deviceId devices))).
  { apply (duplicates_found _ i j); [assumption| |].
    - rewrite nth_error_map, Hi. simpl. congruence.
    - rewrite nth_error_map, Hj. reflexivity. }
  unfold validateConfiguration. rewrite Hdev.
  destruct devices as [|d devices]; [destruct i; discriminate|].
  destruct (collect _ 0 (d :: devices)) as [deviceErrors deviceWarnings].
  set (dups := duplicatesFrom _ 0 _) in *.
  destruct dups as [|dup dups]; [destruct Hdup|].
  set (e := error "devices" _ None).
  assert (Hin : In e ((match cfg_metadata config with
                       | Some _ => []
                       | None => [error "metadata" "Configuration metadata is required" None]
                       end) +++ deviceErrors +++ [e])).
  { apply in_or_app. right. apply in_or_app. right. left. reflexivity. }
  split.
  - unfold validationResult. simpl isValid.
    match goal with |- (length ?l =? 0) = false => destruct l; [destruct Hin | reflexivity] end.
  - exists e. split; [exact Hin|].
    apply (includes_prefix "Duplicate devices" (" found: " ++ join ", " (dup :: dups))).
Qed.

(** ** The tokenizer *)

Lemma scanString_bounded n :
  forall rest column value column' remaining,
    String.length rest <= n ->
    scanString rest column = (value, column', remaining) ->
    String.length remaining <= String.length rest.
Proof.
  induction n as [|n IH]; intros rest column value column' remaining Hn;
    destruct rest as [|c rest]; simpl in *; try lia;
    try (intros [= <- <- <-]; simpl; lia).
  destruct (Ascii.eqb c dquote); [intros [= <- <- <-]; simpl; lia|].
  destruct (Ascii.eqb c backslash).
  - destruct rest as [|escaped rest]; [intros [= <- <- <-]; simpl; lia|].
    destruct (scanString rest (column + 2)) as [[v c'] r] eqn:E.
    intros [= <- <- <-]. apply IH in E; simpl in *; lia.
  - destruct (scanString rest (column + 1)) as [[v c'] r] eqn:E.
    intros [= <- <- <-]. apply IH in E; simpl in *; lia.
Qed.

Lemma scanString_remaining rest column value column' remaining :
  scanString rest column = (value, column', remaining) ->
  String.length remaining <= String.length rest.
Proof. apply (scanString_bounded (String.length rest)). lia. Qed.

Lemma scanWhile_remaining test rest :
  forall column value column' remaining,
    scanWhile test rest column = (value, column', remaining) ->
    String.length remaining <= String.length rest.
Proof.
  induction rest as [|c rest IH]; intros column value column' remaining; simpl.
  - intros [= <- <- <-]. simpl. lia.
  - destruct (test c); [|intros [= <- <- <-]; simpl; lia].
    destruct (scanWhile test rest (column + 1)) as [[v c'] r] eqn:E.
    intros [= <- <- <-]. apply IH in E. lia.
Qed.

Lemma scanWhile_progress test c rest column value column' remaining :
  test c = true ->
  scanWhile test (String c rest) column = (value, column', remaining) ->
  String.length remaining <= String.length rest.
Proof.
  intros Hc. simpl. rewrite Hc.
  destruct (scanWhile test rest (column + 1)) as [[v c'] r] eqn:E.
  intros [= <- <- <-]. apply scanWhile_remaining in E. exact E.
Qed.

Lemma isDigit_isDecimalChar c : isDigit c = true -> isDecimalChar c = true.
Proof. unfold isDecimalChar. intros ->. reflexivity. Qed.

Lemma isIdentStart_isIdentChar c : isIdentStart c = true -> isIdentChar c = true.
Proof. unfold isIdentChar. intros ->. reflexivity. Qed.

(** A pass of the loop goes on in what follows the character it stood at. *)
Lemma lineStep_remaining lineNum column char rest' pushed column' remaining :
  lineStep lineNum column char rest' = Continue pushed column' remaining ->
  String.length remaining <= String.length rest'.
Proof.
  unfold lineStep.
  destruct (isSpace char); [intros [= <- <- <-]; lia|].
  destruct (Ascii.eqb char "/" && nextIs (String char rest') "/"); [discriminate|].
  destruct (Ascii.eqb char "#"); [discriminate|].
  destruct (Ascii.eqb char dquote).
  { destruct (scanString rest' (column + 1)) as [[v c'] r] eqn:E.
    apply scanString_remaining in E.
    destruct r; intros [= <- <- <-]; simpl in *; lia. }
  destruct (isDigit char) eqn:Hd.
  { destruct (Ascii.eqb char "0" && nextIs (String char rest') "x").
    - destruct rest' as [|x rest'']; [intros [= <- <- <-]; simpl; lia|].
      destruct (scanWhile isHexDigit rest'' (column + 2)) as [[v c'] r] eqn:E.
      apply scanWhile_remaining in E. intros [= <- <- <-]. simpl. lia.
    - destruct (scanWhile isDecimalChar (String char rest') column) as [[v c'] r] eqn:E.
      apply scanWhile_progress in E; [|apply isDigit_isDecimalChar; exact Hd].
      intros [= <- <- <-]. exact E. }
  destruct (isIdentStart char) eqn:Hi.
  { destruct (scanWhile isIdentChar (String char rest') column) as [[v c'] r] eqn:E.
    apply scanWhile_progress in E; [|apply isIdentStart_isIdentChar; exact Hi].
    intros [= <- <- <-]. exact E. }
  destruct (isPunctuation char); intros [= <- <- <-]; lia.
Qed.

(** With more fuel than the line has characters the loop ends. *)
Lemma tokenizeLine_total fuel :
  forall lineNum column rest,
    String.length rest < fuel ->
    exists tokens, tokenizeLine fuel lineNum column rest = Some tokens.
Proof.
  induction fuel as [|fuel IH]; intros lineNum column rest Hlen; [lia|].
  destruct rest as [|char rest']; simpl; [eexists; reflexivity|].
  destruct (lineStep lineNum column char rest') as [|pushed column' remaining] eqn:E;
    [eexists; reflexivity|].
  apply lineStep_remaining in E.
  destruct (IH lineNum column' remaining) as [tokens Htokens]; [simpl in Hlen; lia|].
  rewrite Htokens. destruct pushed; eexists; reflexivity.
Qed.

(** Its result does not depend on how much more fuel there is. *)
Lemma tokenizeLine_fuel fuel1 :
  forall fuel2 lineNum column rest,
    String.length rest < fuel1 -> String.length rest < fuel2 ->
    tokenizeLine fuel1 lineNum column rest = tokenizeLine fuel2 lineNum column rest.
Proof.
  induction fuel1 as [|fuel1 IH]; intros [|fuel2] lineNum column rest H1 H2; try lia.
  destruct rest as [|char rest']; simpl; [reflexivity|].
  destruct (lineStep lineNum column char rest') as [|pushed column' remaining] eqn:E;
    [reflexivity|].
  apply lineStep_remaining in E. simpl in H1, H2.
  rewrite (IH fuel2 lineNum column' remaining) by lia. reflexivity.
Qed.

Lemma tokenizeLines_total lines :
  forall lineNum, exists tokens, tokenizeLines lineNum lines = Some tokens.
Proof.
  induction lines as [|line lines IH]; intros lineNum; cbn [tokenizeLines];
    [eexists; reflexivity|].
  destruct (tokenizeLine_total (S (String.length line)) lineNum 0 line) as [toks ->];
    [lia|].
  destruct (IH (S lineNum)) as [others ->]. eexists; reflexivity.
Qed.

Lemma lineStep_unrecognized lineNum column char rest' :
  unrecognized char rest' = true ->
  lineStep lineNum column char rest' = Continue None (column + 1) rest'.
Proof.
  unfold unrecognized, lineStep. rewrite !andb_true_iff, !negb_true_iff.
  intros ((((((-> & ->) & ->) & ->) & ->) & ->) & ->). reflexivity.
Qed.

Lemma stray_unrecognized char rest' : stray char = true -> unrecognized char rest' = true.
Proof.
  unfold stray, unrecognized. rewrite negb_true_iff, !orb_false_iff.
  intros ((((((-> & ->) & ->) & ->) & ->) & ->) & ->). reflexivity.
Qed.

Lemma stray_not_newline char : stray char = true -> Ascii.eqb char newline = false.
Proof.
  destruct (Ascii.eqb_spec char newline) as [->|]; [discriminate | reflexivity].
Qed.

Lemma tokenizeLine_stray line :
  allChars stray line = true ->
  forall fuel lineNum column,
    String.length line < fuel -> tokenizeLine fuel lineNum column line = Some [].
Proof.
  induction line as [|char line IH]; intros Hall fuel lineNum column Hlen;
    (destruct fuel as [|fuel]; [simpl in Hlen; lia|]); simpl; [reflexivity|].
  simpl in Hall. rewrite andb_true_iff in Hall. destruct Hall as [Hc Hall].
  rewrite (lineStep_unrecognized _ _ _ _ (stray_unrecognized _ line Hc)).
  apply IH; [exact Hall | simpl in Hlen; lia].
Qed.

Lemma splitLines_stray content :
  allChars stray content = true -> splitLines content = [content].
Proof.
  induction content as [|char content IH]; simpl; [reflexivity|].
  rewrite andb_true_iff. intros [Hc Hall].
  rewrite (stray_not_newline _ Hc), (IH Hall). reflexivity.
Qed.

(** ** The generic tree *)

(** The last assignment to a member is the one that is read. *)
Lemma lookup_assign key value members :
  lookup key (assign key value members) = Some value.
Proof.
  induction members as [|[k x] members IH]; cbn [assign lookup].
  - rewrite String.eqb_refl. reflexivity.
  - destruct (String.eqb k key) eqn:E; cbn [lookup]; rewrite E; [reflexivity | exact IH].
Qed.

(** ** The mapper *)

(** *** The recursion on nested gestures ends *)

Lemma depth_pos v : 0 < depth v.
Proof. destruct v; simpl; lia. Qed.

Lemma depth_lookup key members x :
  lookup key members = Some x -> depth x < depth (VObj members).
Proof.
  induction members as [|[k v] members IH]; simpl; [discriminate|].
  destruct (String.eqb k key).
  - intros [= ->]. lia.
  - intros H. apply IH in H. simpl in H. lia.
Qed.

Lemma depth_get data key x : get data key = Some x -> depth x < depth data.
Proof. destruct data; simpl; try discriminate. apply depth_lookup. Qed.

Lemma depth_item items x : In x items -> depth x < depth (VArr items).
Proof.
  induction items as [|y items IH]; simpl; [tauto|].
  intros [-> | H]; [lia|]. apply IH in H. simpl in H. lia.
Qed.

Lemma depth_arrayItems data key x :
  In x (arrayItems (get data key)) -> depth x < depth data.
Proof.
  destruct (get data key) as [[| | | |items]|] eqn:E; simpl; try tauto.
  intros H. apply depth_item in H. apply depth_get in E. lia.
Qed.

Lemma mapM_returns {A B : Type} (f : A -> outcome B) xs :
  (forall x, In x xs -> exists y, f x = Return y) ->
  exists ys, mapM f xs = Return ys.
Proof.
  induction xs as [|x xs IH]; intros H; simpl; [eexists; reflexivity|].
  destruct (H x (or_introl eq_refl)) as [y ->].
  destruct IH as [ys ->]; [intros; apply H; right; assumption|].
  eexists; reflexivity.
Qed.

(** *** Conversions *)

Lemma StringOf_returned x text : StringOf x = Return text -> text = String_ x.
Proof. unfold StringOf. destruct (converts x); [intros [= <-]; reflexivity | discriminate]. Qed.

Lemma NumberOf_returned x n : NumberOf x = Return n -> n = Number_ x.
Proof. unfold NumberOf. destruct (converts x); [intros [= <-]; reflexivity | discriminate]. Qed.

Lemma numberIfDefined_returned x r :
  numberIfDefined x = Return r ->
  (r = None <-> x = None) /\ (forall n, x = Some (VNum n) -> r = Some n).
Proof.
  unfold numberIfDefined. destruct x as [v|]; cbn [isDefined].
  - destruct (NumberOf (Some v)) as [n| |] eqn:E; cbn [bind]; try discriminate.
    intros [= <-]. split; [split; discriminate|].
    intros m [= ->]. apply NumberOf_returned in E. rewrite E. reflexivity.
  - intros [= <-]. split; [split; reflexivity | discriminate].
Qed.

Lemma hexOrEmpty_returned x id : hexOrEmpty x = Return id -> id = storedHex x.
Proof.
  unfold hexOrEmpty, storedHex. destruct (truthy x); [|intros [= <-]; reflexivity].
  destruct (StringOf x) as [text| |] eqn:E; cbn [bind]; try discriminate.
  intros [= <-]. apply StringOf_returned in E. rewrite E. reflexivity.
Qed.

(** *** The exceptions of a computation *)

Lemma bind_throwsOnly {A B : Type} errors (m : outcome A) (k : A -> outcome B) :
  throwsOnly errors m -> (forall a, m = Return a -> throwsOnly errors (k a)) ->
  throwsOnly errors (bind m k).
Proof. destruct m as [a|e|]; cbn; intros Hm Hk; [apply Hk; reflexivity | exact Hm | exact Hm]. Qed.

Lemma mapM_throwsOnly {A B : Type} errors (f : A -> outcome B) xs :
  (forall x, In x xs -> throwsOnly errors (f x)) -> throwsOnly errors (mapM f xs).
Proof.
  induction xs as [|x xs IH]; intros H; cbn [mapM]; [exact I|].
  apply bind_throwsOnly; [apply H; left; reflexivity|]. intros y _.
  apply bind_throwsOnly; [apply IH; intros; apply H; right; assumption|].
  intros ys _. exact I.
Qed.

Lemma throwsOnly_weaken {A : Type} (P Q : JsError -> Prop) (r : outcome A) :
  (forall e, P e -> Q e) -> throwsOnly P r -> throwsOnly Q r.
Proof. intros HPQ. destruct r; cbn; auto. Qed.

Lemma throwsOnly_settled {A : Type} errors (r : outcome A) : throwsOnly errors r -> settled r.
Proof. destruct r; cbn; intros H; [discriminate | discriminate | destruct H]. Qed.

Lemma StringOf_throwsOnly x : throwsOnly conversionError (StringOf x).
Proof. unfold StringOf. destruct (converts x); cbn; [exact I | reflexivity]. Qed.

Lemma NumberOf_throwsOnly x : throwsOnly conversionError (NumberOf x).
Proof. unfold NumberOf. destruct (converts x); cbn; [exact I | reflexivity]. Qed.

Lemma numberIfDefined_throwsOnly x : throwsOnly conversionError (numberIfDefined x).
Proof.
  unfold numberIfDefined. destruct (isDefined x); [|exact I].
  apply bind_throwsOnly; [apply NumberOf_throwsOnly | intros; exact I].
Qed.

Lemma keysOf_throwsOnly keys : throwsOnly conversionError (keysOf keys).
Proof.
  assert (Hone : throwsOnly conversionError (key <- StringOf keys ;; Return [ key ]))
    by (apply bind_throwsOnly; [apply StringOf_throwsOnly | intros; exact I]).
  unfold keysOf. destruct keys as [[| | | |items]|]; try exact Hone.
  apply mapM_throwsOnly. intros; apply StringOf_throwsOnly.
Qed.

Lemma axisParametersOf_throwsOnly data : throwsOnly conversionError (axisParametersOf data).
Proof.
  unfold axisParametersOf.
  apply bind_throwsOnly; [apply StringOf_throwsOnly|]. intros mode _.
  apply bind_throwsOnly; [apply StringOf_throwsOnly|]. intros axis _.
  apply bind_throwsOnly; [apply numberIfDefined_throwsOnly | intros; exact I].
Qed.

Lemma hexOrEmpty_throwsOnly x : throwsOnly conversionError (hexOrEmpty x).
Proof.
  unfold hexOrEmpty. destruct (truthy x); [|exact I].
  apply bind_throwsOnly; [apply StringOf_throwsOnly | intros; exact I].
Qed.

(** *** The recursion ends, and what it throws

    The exceptions of [parseActionFromData], [parseGestureFromData] and
    [parseScrollWheelFromData] are those of the conversions.  The values
    they work on are taken from a [domain] that is closed under reading a
    member and an item; an exception of a conversion is among [errors]
    whenever the domain has a value that does not convert. *)
Section Conversions.

Variable errors : JsError -> Prop.
Variable domain : Value -> Prop.
Hypothesis domain_get :
  forall data key x, domain data -> get data key = Some x -> domain x.
Hypothesis domain_item :
  forall items x, domain (VArr items) -> In x items -> domain x.
Hypothesis domain_convertible :
  forall v, domain v -> convertible v = false -> errors cannotConvert.

Lemma StringOf_within x :
  (forall v, x = Some v -> domain v) -> throwsOnly errors (StringOf x).
Proof.
  intros Hx. unfold StringOf. destruct (converts x) eqn:E; cbn; [exact I|].
  destruct x as [v|]; [|discriminate E]. exact (domain_convertible v (Hx v eq_refl) E).
Qed.

Lemma NumberOf_within x :
  (forall v, x = Some v -> domain v) -> throwsOnly errors (NumberOf x).
Proof.
  intros Hx. unfold NumberOf. destruct (converts x) eqn:E; cbn; [exact I|].
  destruct x as [v|]; [|discriminate E]. exact (domain_convertible v (Hx v eq_refl) E).
Qed.

Lemma numberIfDefined_within x :
  (forall v, x = Some v -> domain v) -> throwsOnly errors (numberIfDefined x).
Proof.
  intros Hx. unfold numberIfDefined. destruct (isDefined x); [|exact I].
  apply bind_throwsOnly; [apply NumberOf_within; exact Hx | intros; exact I].
Qed.

Lemma keysOf_within keys :
  (forall v, keys = Some v -> domain v) -> throwsOnly errors (keysOf keys).
Proof.
  intros Hx.
  assert (Hone : throwsOnly errors (key <- StringOf keys ;; Return [ key ]))
    by (apply bind_throwsOnly; [apply StringOf_within; exact Hx | intros; exact I]).
  unfold keysOf. destruct keys as [[| | | |items]|]; try exact Hone.
  apply mapM_throwsOnly. intros k Hin. apply StringOf_within.
  intros v [= <-]. exact (domain_item items k (Hx _ eq_refl) Hin).
Qed.

Lemma axisParametersOf_within data :
  domain data -> throwsOnly errors (axisParametersOf data).
Proof.
  intros Hd. unfold axisParametersOf.
  apply bind_throwsOnly; [apply StringOf_within; intros v; apply domain_get; exact Hd|].
  intros mode _.
  apply bind_throwsOnly; [apply StringOf_within; intros v; apply domain_get; exact Hd|].
  intros axis _.
  apply bind_throwsOnly;
    [apply numberIfDefined_within; intros v; apply domain_get; exact Hd | intros; exact I].
Qed.

Lemma hexOrEmpty_within x :
  (forall v, x = Some v -> domain v) -> throwsOnly errors (hexOrEmpty x).
Proof.
  intros Hx. unfold hexOrEmpty. destruct (truthy x); [|exact I].
  apply bind_throwsOnly; [apply StringOf_within; exact Hx | intros; exact I].
Qed.

Lemma arrayItems_within data key x :
  domain data -> In x (arrayItems (get data key)) -> domain x.
Proof.
  intros Hd. destruct (get data key) as [[| | | |items]|] eqn:E; cbn [arrayItems];
    try (intros []).
  apply domain_item. exact (domain_get data key _ Hd E).
Qed.

Lemma parse_action_gesture_within fuel :
  (forall data, depthOf data < fuel -> (forall v, data = Some v -> domain v) ->
     throwsOnly errors (parseActionFromData fuel data))
  /\ (forall data, depth data < fuel -> domain data ->
        throwsOnly errors (parseGestureFromData fuel data)).
Proof.
  induction fuel as [|fuel [IHa IHg]]; [split; intros; lia|].
  split.
  - intros [data|] Hd Hdom; [|exact I]. specialize (Hdom data eq_refl).
    unfold depthOf in Hd. cbn [parseActionFromData].
    destruct (negb (truthyV data) || negb (truthy (get data "type"))); [exact I|].
    apply bind_throwsOnly; [apply StringOf_within; intros v; apply domain_get; exact Hdom|].
    intros originalType _.
    repeat match goal with
           | |- throwsOnly _ (Return _) => exact I
           | |- throwsOnly _ (if ?b then _ else _) => destruct b
           end.
    + apply bind_throwsOnly; [|intros; exact I].
      apply keysOf_within. intros v; apply domain_get; exact Hdom.
    + apply bind_throwsOnly; [|intros; exact I].
      apply mapM_throwsOnly. intros x Hx. apply IHg.
      * apply depth_arrayItems in Hx. lia.
      * exact (arrayItems_within data "gestures" x Hdom Hx).
    + apply bind_throwsOnly; [|intros; exact I].
      apply axisParametersOf_within. exact Hdom.
    + apply bind_throwsOnly; [|intros; exact I].
      apply NumberOf_within. intros v; apply domain_get; exact Hdom.
  - intros data Hd Hdom. cbn [parseGestureFromData].
    destruct (negb (truthy (get data "direction")) || negb (truthy (get data "mode")));
      [exact I|].
    apply bind_throwsOnly.
    + apply IHa; [|intros v; apply domain_get; exact Hdom]. pose proof (depth_pos data).
      destruct (get data "action") as [x|] eqn:E; unfold depthOf; [|lia].
      apply depth_get in E. lia.
    + intros [action|] _; [|exact I].
      apply bind_throwsOnly; [apply StringOf_within; intros v; apply domain_get; exact Hdom|].
      intros direction _.
      apply bind_throwsOnly; [apply StringOf_within; intros v; apply domain_get; exact Hdom|].
      intros mode _.
      apply bind_throwsOnly;
        [apply numberIfDefined_within; intros v; apply domain_get; exact Hdom|].
      intros threshold _.
      apply bind_throwsOnly;
        [apply numberIfDefined_within; intros v; apply domain_get; exact Hdom|].
      intros interval _. exact I.
Qed.

Lemma parseDirection_within fuel data direction :
  depth data <= fuel -> domain data ->
  throwsOnly errors (parseDirection fuel data direction).
Proof.
  intros Hd Hdom. unfold parseDirection.
  destruct (truthy (get data direction)); [|exact I].
  destruct (get data direction) as [directionData|] eqn:E; [|exact I].
  pose proof (domain_get data direction _ Hdom E) as Hentry.
  destruct (negb (truthy (get directionData "type")) && truthy (get directionData "mode")
            && truthy (get directionData "axis")).
  - apply bind_throwsOnly; [|intros; exact I].
    apply axisParametersOf_within. exact Hentry.
  - apply (proj1 (parse_action_gesture_within fuel)).
    + unfold depthOf. apply depth_get in E. lia.
    + intros v [= <-]. exact Hentry.
Qed.

Lemma parseScrollWheelFromData_within fuel data :
  depth data <= fuel -> domain data ->
  throwsOnly errors (parseScrollWheelFromData fuel data).
Proof.
  intros Hd Hdom. unfold parseScrollWheelFromData.
  apply bind_throwsOnly; [apply parseDirection_within; assumption|]. intros up _.
  apply bind_throwsOnly; [apply parseDirection_within; assumption|]. intros down _.
  apply bind_throwsOnly; [apply parseDirection_within; assumption|]. intros left_ _.
  apply bind_throwsOnly; [apply parseDirection_within; assumption|]. intros right_ _.
  exact I.
Qed.

End Conversions.

(** On every value: the exception of a conversion and no other. *)
Lemma parseActionFromData_throwsOnly fuel data :
  depthOf data < fuel -> throwsOnly conversionError (parseActionFromData fuel data).
Proof.
  intros Hd.
  apply (proj1 (parse_action_gesture_within conversionError (fun _ => True)
                  ltac:(auto) ltac:(auto) ltac:(intros; reflexivity) fuel));
    [exact Hd | auto].
Qed.

Lemma parseGestureFromData_throwsOnly fuel data :
  depth data < fuel -> throwsOnly conversionError (parseGestureFromData fuel data).
Proof.
  intros Hd.
  apply (proj2 (parse_action_gesture_within conversionError (fun _ => True)
                  ltac:(auto) ltac:(auto) ltac:(intros; reflexivity) fuel));
    [exact Hd | exact I].
Qed.

Lemma parseScrollWheelFromData_throwsOnly fuel data :
  depth data <= fuel -> throwsOnly conversionError (parseScrollWheelFromData fuel data).
Proof.
  intros Hd.
  apply (parseScrollWheelFromData_within conversionError (fun _ => True)
           ltac:(auto) ltac:(auto) ltac:(intros; reflexivity));
    [exact Hd | exact I].
Qed.

(** *** A value without a member [toString] *)

Lemma plain_lookup key members x :
  plain (VObj members) = true -> lookup key members = Some x -> plain x = true.
Proof.
  induction members as [|[k v] members IH]; cbn [lookup]; [discriminate|].
  cbn [plain]. rewrite !andb_true_iff. intros [[_ Hv] Hrest].
  destruct (String.eqb k key); [intros [= <-]; exact Hv | apply IH; exact Hrest].
Qed.

Lemma plain_get data key x : plain data = true -> get data key = Some x -> plain x = true.
Proof. destruct data; cbn [get]; try discriminate. apply plain_lookup. Qed.

Lemma plain_item items x : plain (VArr items) = true -> In x items -> plain x = true.
Proof. cbn [plain]. rewrite forallb_forall. auto. Qed.

Lemma plain_members members :
  plain (VObj members) = true -> lookup "toString" members = None.
Proof.
  induction members as [|[k v] members IH]; cbn [lookup]; [reflexivity|].
  cbn [plain]. rewrite !andb_true_iff. intros [[Hk _] Hrest].
  destruct (String.eqb k "toString"); [discriminate Hk | apply IH; exact Hrest].
Qed.

Lemma plain_convertible_bounded n :
  forall v, depth v <= n -> plain v = true -> convertible v = true.
Proof.
  induction n as [|n IH]; intros v Hd Hp; [pose proof (depth_pos v); lia|].
  destruct v as [s|m|b|members|items]; try reflexivity.
  - cbn [convertible]. rewrite (plain_members members Hp). reflexivity.
  - cbn [convertible]. apply forallb_forall. intros x Hin. apply IH.
    + apply depth_item in Hin. lia.
    + exact (plain_item items x Hp Hin).
Qed.

Lemma plain_convertible v : plain v = true -> convertible v = true.
Proof. apply (plain_convertible_bounded (depth v)). lia. Qed.


Lemma axisParametersOf_plain data :
  plain data = true -> exists parameters, axisParametersOf data = Return parameters.
Proof.
  intros Hp.
  pose proof (axisParametersOf_within (fun _ => False) (fun v => plain v = true)
                plain_get
                ltac:(intros v Hv Hc; rewrite (plain_convertible v Hv) in Hc; discriminate Hc)
                data Hp) as H.
  destruct (axisParametersOf data) as [parameters|e|];
    [eexists; reflexivity | destruct H | destruct H].
Qed.

(** *** The axis form of a scroll-wheel direction *)

Lemma truthy_get_object data key :
  truthy (get data key) = true -> truthyV data = true.
Proof. destruct data; simpl; try discriminate. reflexivity. Qed.

Lemma parseDirection_axis fuel data direction directionData :
  get data direction = Some directionData ->
  truthy (get directionData "type") = false ->
  truthy (get directionData "mode") = true ->
  truthy (get directionData "axis") = true ->
  parseDirection fuel data direction
  = (parameters <- axisParametersOf directionData ;;
     Return (Some (mkAction "cycleHiRes" (Some parameters)))).
Proof.
  intros Hget Htype Hmode Haxis. unfold parseDirection.
  rewrite Hget. simpl truthy at 1.
  rewrite (truthy_get_object directionData "mode" Hmode).
  rewrite Htype, Hmode, Haxis. reflexivity.
Qed.

(** What [axisParametersOf] returns: a mode or an axis given as a string as
    it is, an axis_multiplier exactly when the entry has one, and as it is
    when it is given as a number. *)
Lemma axisParametersOf_returned data parameters :
  axisParametersOf data = Return parameters ->
  exists multiplier,
    parameters = axisParameters (String_ (get data "mode")) (String_ (get data "axis"))
                   multiplier
    /\ (multiplier = None <-> get data "axis_multiplier" = None)
    /\ (forall n, get data "axis_multiplier" = Some (VNum n) -> multiplier = Some n).
Proof.
  unfold axisParametersOf.
  destruct (StringOf (get data "mode")) as [mode| |] eqn:Hmode; cbn [bind]; try discriminate.
  destruct (StringOf (get data "axis")) as [axis| |] eqn:Haxis; cbn [bind]; try discriminate.
  destruct (numberIfDefined (get data "axis_multiplier")) as [multiplier| |] eqn:Hm;
    cbn [bind]; try discriminate.
  intros [= <-]. exists multiplier.
  apply StringOf_returned in Hmode, Haxis. subst mode axis.
  split; [reflexivity|]. exact (numberIfDefined_returned _ _ Hm).
Qed.

(** ** Lines *)

Lemma splitLines_line line :
  allChars notNewline line = true -> splitLines line = [line].
Proof.
  induction line as [|c line IH]; cbn [allChars splitLines]; [reflexivity|].
  rewrite andb_true_iff. unfold notNewline at 1. rewrite negb_true_iff.
  intros [Hc H]. rewrite Hc, (IH H). reflexivity.
Qed.

Lemma splitLines_cons line rest :
  allChars notNewline line = true ->
  splitLines (line ++ newlineStr ++ rest) = line :: splitLines rest.
Proof.
  induction line as [|c line IH]; cbn [append allChars].
  - intros _. unfold newlineStr. cbn [append splitLines].
    rewrite Ascii.eqb_refl. reflexivity.
  - rewrite andb_true_iff. unfold notNewline at 1. rewrite negb_true_iff.
    intros [Hc H]. cbn [splitLines]. rewrite Hc, (IH H). reflexivity.
Qed.

Lemma splitLines_join lines :
  lines <> [] ->
  Forall (fun line => allChars notNewline line = true) lines ->
  splitLines (join newlineStr lines) = lines.
Proof.
  induction lines as [|line lines IH]; [congruence|].
  intros _ Hall. inversion Hall as [|? ? Hline Hlines]; subst.
  destruct lines as [|next lines].
  - simpl. apply splitLines_line. exact Hline.
  - change (join newlineStr (line :: next :: lines))
      with (line ++ newlineStr ++ join newlineStr (next :: lines)).
    rewrite (splitLines_cons _ _ Hline), IH; [reflexivity | discriminate | exact Hlines].
Qed.

(** ** Scanning a text that is not known character by character *)

Lemma scanString_value value :
  forall column rest,
    allChars nameChar value = true ->
    scanString (value ++ String dquote rest) column
    = (value, column + String.length value, String dquote rest).
Proof.
  induction value as [|c value IH]; intros column rest.
  - intros _. cbn [append scanString String.length]. rewrite Ascii.eqb_refl.
    rewrite Nat.add_0_r. reflexivity.
  - cbn [allChars append scanString String.length]. unfold nameChar at 1.
    rewrite !andb_true_iff, !negb_true_iff. intros [[[Hq Hb] _] Hv].
    rewrite Hq, Hb, (IH (column + 1) rest Hv).
    replace (column + 1 + String.length value) with (column + S (String.length value))
      by lia.
    reflexivity.
Qed.

Lemma scanWhile_value test value :
  forall column rest,
    allChars test value = true -> stopsAt test rest = true ->
    scanWhile test (value ++ rest) column
    = (value, column + String.length value, rest).
Proof.
  induction value as [|c value IH]; intros column rest.
  - intros _ Hrest. cbn [append String.length]. rewrite Nat.add_0_r.
    destruct rest as [|d rest]; cbn [scanWhile]; [reflexivity|].
    simpl in Hrest. rewrite negb_true_iff in Hrest. rewrite Hrest. reflexivity.
  - cbn [allChars append scanWhile String.length].
    rewrite andb_true_iff. intros [Hc Hv] Hrest.
    rewrite Hc, (IH (column + 1) rest Hv Hrest).
    replace (column + 1 + String.length value) with (column + S (String.length value))
      by lia.
    reflexivity.
Qed.

Lemma lineStep_string lineNum column value rest :
  allChars nameChar value = true ->
  lineStep lineNum column dquote (value ++ String dquote rest)
  = Continue (Some (mkToken TString value (lineNum + 1) (column + 1)))
             (column + 1 + String.length value + 1) rest.
Proof.
  intros Hv. unfold lineStep.
  change (isSpace dquote) with false.
  change (Ascii.eqb dquote "/") with false.
  change (Ascii.eqb dquote "#") with false.
  change (Ascii.eqb dquote dquote) with true.
  cbn [andb].
  rewrite (scanString_value value (column + 1) rest Hv). reflexivity.
Qed.

Lemma lineStep_hex lineNum column digits rest :
  allChars isHexDigit digits = true -> stopsAt isHexDigit rest = true ->
  lineStep lineNum column "0" (String "x" (digits ++ rest))
  = Continue (Some (mkToken TNumber ("0x" ++ digits) (lineNum + 1) (column + 1)))
             (column + 2 + String.length digits) rest.
Proof.
  intros Hd Hrest. unfold lineStep.
  change (isSpace "0") with false.
  change (Ascii.eqb "0" "/") with false.
  change (Ascii.eqb "0" "#") with false.
  change (Ascii.eqb "0" dquote) with false.
  change (isDigit "0") with true.
  change (Ascii.eqb "0" "0") with true.
  change (nextIs (String "0" (String "x" (digits ++ rest))) "x") with true.
  cbn [andb].
  rewrite (scanWhile_value isHexDigit digits (column + 2) rest Hd Hrest). reflexivity.
Qed.

(** One pass of the loop, with the fuel that the line calls for. *)
Lemma tokenizeLine_unfold lineNum column char rest' :
  tokenizeLine (S (String.length (String char rest'))) lineNum column (String char rest')
  = match lineStep lineNum column char rest' with
    | Break => Some []
    | Continue None column' remaining =>
        tokenizeLine (S (String.length remaining)) lineNum column' remaining
    | Continue (Some token) column' remaining =>
        option_map (cons token)
          (tokenizeLine (S (String.length remaining)) lineNum column' remaining)
    end.
Proof.
  cbn [tokenizeLine].
  destruct (lineStep lineNum column char rest') as [|pushed column' remaining] eqn:E;
    [reflexivity|].
  apply lineStep_remaining in E.
  rewrite (tokenizeLine_fuel (String.length (String char rest'))
             (S (String.length remaining)) lineNum column' remaining)
    by (cbn [String.length]; lia).
  reflexivity.
Qed.

Lemma tokenizeLine_end lineNum column :
  tokenizeLine (S (String.length EmptyString)) lineNum column EmptyString = Some [].
Proof. reflexivity. Qed.

(** The passes over the fixed parts of a line of the generator. *)
Lemma lineStep_space lineNum column rest :
  lineStep lineNum column " " rest = Continue None (column + 1) rest.
Proof. reflexivity. Qed.

Lemma lineStep_colon lineNum column rest :
  lineStep lineNum column ":" rest
  = Continue (Some (mkToken TOperator ":" (lineNum + 1) (column + 1))) (column + 1) rest.
Proof. reflexivity. Qed.

Lemma lineStep_semicolon lineNum column rest :
  lineStep lineNum column ";" rest
  = Continue (Some (mkToken TDelimiter ";" (lineNum + 1) (column + 1))) (column + 1) rest.
Proof. reflexivity. Qed.

Lemma lineStep_name lineNum column rest :
  lineStep lineNum column "n" (String "a" (String "m" (String "e" (String ":" rest))))
  = Continue (Some (mkToken TIdentifier "name" (lineNum + 1) (column + 1)))
             (column + 1 + 1 + 1 + 1) (String ":" rest).
Proof. reflexivity. Qed.

Lemma lineStep_vid lineNum column rest :
  lineStep lineNum column "v" (String "i" (String "d" (String ":" rest)))
  = Continue (Some (mkToken TIdentifier "vid" (lineNum + 1) (column + 1)))
             (column + 1 + 1 + 1) (String ":" rest).
Proof. reflexivity. Qed.

Lemma lineStep_pid lineNum column rest :
  lineStep lineNum column "p" (String "i" (String "d" (String ":" rest)))
  = Continue (Some (mkToken TIdentifier "pid" (lineNum + 1) (column + 1)))
             (column + 1 + 1 + 1) (String ":" rest).
Proof. reflexivity. Qed.

Ltac pass lemma := rewrite tokenizeLine_unfold, lemma; cbv beta iota.

Lemma nameLine_tokens name lineNum :
  allChars nameChar name = true ->
  exists tokens,
    tokenizeLine (S (String.length ("  name: " ++ quoted name ++ ";"))) lineNum 0
                 ("  name: " ++ quoted name ++ ";") = Some tokens
    /\ map kind tokens
       = [ (TIdentifier, "name"); (TOperator, ":"); (TString, name); (TDelimiter, ";") ].
Proof.
  intros Hname.
  replace ("  name: " ++ quoted name ++ ";")
    with ("  name: " ++ String dquote (name ++ String dquote ";"))
    by (unfold quoted; cbn [append]; rewrite append_assoc; reflexivity).
  cbn [append]. eexists. split.
  - pass lineStep_space. pass lineStep_space. pass lineStep_name.
    pass lineStep_colon. pass lineStep_space.
    pass (lineStep_string lineNum (0 + 1 + 1 + 1 + 1 + 1 + 1 + 1 + 1) name ";" Hname).
    pass lineStep_semicolon.
    rewrite tokenizeLine_end. reflexivity.
  - reflexivity.
Qed.

Lemma hexDigit_stops_semicolon : stopsAt isHexDigit ";" = true.
Proof. reflexivity. Qed.

Lemma vidLine_tokens digits lineNum :
  allChars isHexDigit digits = true ->
  exists tokens,
    tokenizeLine (S (String.length ("  vid: 0x" ++ digits ++ ";"))) lineNum 0
                 ("  vid: 0x" ++ digits ++ ";") = Some tokens
    /\ map kind tokens
       = [ (TIdentifier, "vid"); (TOperator, ":"); (TNumber, "0x" ++ digits);
           (TDelimiter, ";") ].
Proof.
  intros Hd. cbn [append]. eexists. split.
  - pass lineStep_space. pass lineStep_space. pass lineStep_vid.
    pass lineStep_colon. pass lineStep_space.
    pass (lineStep_hex lineNum (0 + 1 + 1 + 1 + 1 + 1 + 1 + 1) digits ";" Hd
            hexDigit_stops_semicolon).
    pass lineStep_semicolon.
    rewrite tokenizeLine_end. reflexivity.
  - reflexivity.
Qed.

Lemma pidLine_tokens digits lineNum :
  allChars isHexDigit digits = true ->
  exists tokens,
    tokenizeLine (S (String.length ("  pid: 0x" ++ digits ++ ";"))) lineNum 0
                 ("  pid: 0x" ++ digits ++ ";") = Some tokens
    /\ map kind tokens
       = [ (TIdentifier, "pid"); (TOperator, ":"); (TNumber, "0x" ++ digits);
           (TDelimiter, ";") ].
Proof.
  intros Hd. cbn [append]. eexists. split.
  - pass lineStep_space. pass lineStep_space. pass lineStep_pid.
    pass lineStep_colon. pass lineStep_space.
    pass (lineStep_hex lineNum (0 + 1 + 1 + 1 + 1 + 1 + 1 + 1) digits ";" Hd
            hexDigit_stops_semicolon).
    pass lineStep_semicolon.
    rewrite tokenizeLine_end. reflexivity.
  - reflexivity.
Qed.

(** ** The tokens of a document given line by line *)

Lemma silent_tokensOf line : silent line -> tokensOf line [].
Proof.
  intros [Hn Hs]. split; [exact Hn|]. intros lineNum. exists []. split; [apply Hs | reflexivity].
Qed.

Lemma tokenizeLines_kinds lines kss :
  Forall2 tokensOf lines kss ->
  forall lineNum, exists tokens,
    tokenizeLines lineNum lines = Some tokens /\ map kind tokens = concat kss.
Proof.
  induction 1 as [|line ks lines kss [_ Hline] _ IH]; intros lineNum.
  - exists []. split; reflexivity.
  - destruct (Hline lineNum) as (toks & Htoks & Hkinds).
    destruct (IH (S lineNum)) as (others & Hothers & Hokinds).
    exists (toks ++ others)%list. split.
    + cbn [tokenizeLines]. rewrite Htoks, Hothers. reflexivity.
    + rewrite map_app, Hkinds, Hokinds. reflexivity.
Qed.

Lemma tokenize_lines lines kss :
  lines <> [] ->
  Forall2 tokensOf lines kss ->
  exists tokens,
    tokenize (join newlineStr lines) = Some tokens /\ map kind tokens = concat kss.
Proof.
  intros Hne Hall. unfold tokenize. rewrite splitLines_join.
  - apply tokenizeLines_kinds. exact Hall.
  - exact Hne.
  - clear Hne. induction Hall as [|line ks lines kss [Hn _] _ IH]; constructor; assumption.
Qed.

Lemma Forall2_silent lines :
  Forall silent lines -> Forall2 tokensOf lines (map (fun _ => []) lines).
Proof.
  induction 1; constructor; [apply silent_tokensOf|]; assumption.
Qed.

Lemma concat_map_nil {A B : Type} (xs : list A) :
  concat (map (fun _ => @nil B) xs) = [].
Proof. induction xs; simpl; auto. Qed.

Lemma allChars_nameChar_notNewline name :
  allChars nameChar name = true -> allChars notNewline name = true.
Proof.
  apply allChars_impl. intros c. unfold nameChar. rewrite !andb_true_iff. tauto.
Qed.

Lemma hex_notNewline c : isHexDigit c = true -> notNewline c = true.
Proof. ascii_cases c; vm_compute; intros; solve [reflexivity | discriminate]. Qed.

Lemma nameLine_tokensOf name :
  allChars nameChar name = true ->
  tokensOf ("  name: " ++ quoted name ++ ";")
    [ (TIdentifier, "name"); (TOperator, ":"); (TString, name); (TDelimiter, ";") ].
Proof.
  intros Hname. split.
  - unfold quoted. cbn [append allChars].
    rewrite !allChars_app, (allChars_nameChar_notNewline _ Hname). reflexivity.
  - intros lineNum. apply nameLine_tokens. exact Hname.
Qed.

Lemma idLine_tokensOf key digits :
  key = "vid" \/ key = "pid" ->
  hexDigitsIfGiven digits ->
  Forall2 tokensOf (idLine key digits)
    match digits with
    | Some d => [ [ (TIdentifier, key); (TOperator, ":"); (TNumber, "0x" ++ d);
                    (TDelimiter, ";") ] ]
    | None => []
    end.
Proof.
  intros Hkey Hd. destruct digits as [d|]; [|constructor].
  simpl in Hd. constructor; [|constructor].
  assert (Hn : allChars notNewline (d ++ ";") = true).
  { rewrite allChars_app, (allChars_impl _ _ d hex_notNewline Hd). reflexivity. }
  destruct Hkey as [-> | ->]; (split; [cbn [append allChars]; rewrite Hn; reflexivity|]);
    intros lineNum; [apply vidLine_tokens | apply pidLine_tokens]; exact Hd.
Qed.

Lemma fixedLine_tokensOf :
  tokensOf "devices: (" [ (TIdentifier, "devices"); (TOperator, ":"); (TDelimiter, "(") ]
  /\ tokensOf "{" [ (TDelimiter, "{") ]
  /\ tokensOf "});" [ (TDelimiter, "}"); (TDelimiter, ")"); (TDelimiter, ";") ].
Proof.
  repeat apply conj; try reflexivity; intros lineNum; eexists; split; reflexivity.
Qed.

(** The kinds of the tokens of a device document. *)
Lemma tokenize_deviceDocument before inside name vid pid :
  Forall silent before -> Forall silent inside ->
  allChars nameChar name = true ->
  hexDigitsIfGiven vid -> hexDigitsIfGiven pid ->
  exists tokens,
    tokenize (deviceDocument before inside name vid pid) = Some tokens
    /\ map kind tokens
       = ([ (TIdentifier, "devices"); (TOperator, ":"); (TDelimiter, "(");
            (TDelimiter, "{");
            (TIdentifier, "name"); (TOperator, ":"); (TString, name); (TDelimiter, ";") ]
          +++ match vid with
             | Some d => [ (TIdentifier, "vid"); (TOperator, ":"); (TNumber, "0x" ++ d);
                           (TDelimiter, ";") ]
             | None => []
             end
          +++ match pid with
             | Some d => [ (TIdentifier, "pid"); (TOperator, ":"); (TNumber, "0x" ++ d);
                           (TDelimiter, ";") ]
             | None => []
             end
          +++ [ (TDelimiter, "}"); (TDelimiter, ")"); (TDelimiter, ";") ]).
Proof.
  intros Hbefore Hinside Hname Hvid Hpid.
  destruct fixedLine_tokensOf as (Hopen & Hbrace & Hclose).
  unfold deviceDocument.
  edestruct tokenize_lines as (tokens & Htokens & Hkinds);
    [| | exists tokens; split; [exact Htokens|]].
  - destruct before; discriminate.
  - apply Forall2_app; [apply Forall2_silent; exact Hbefore|].
    apply Forall2_app; [exact (Forall2_cons _ _ Hopen (Forall2_cons _ _ Hbrace (Forall2_nil _)))|].
    apply Forall2_app; [apply Forall2_silent; exact Hinside|].
    apply Forall2_app;
      [exact (Forall2_cons _ _ (nameLine_tokensOf name Hname) (Forall2_nil _))|].
    apply Forall2_app; [apply (idLine_tokensOf "vid"); [left; reflexivity | exact Hvid]|].
    apply Forall2_app; [apply (idLine_tokensOf "pid"); [right; reflexivity | exact Hpid]|].
    exact (Forall2_cons _ _ Hclose (Forall2_nil _)).
  - rewrite Hkinds, !concat_app, !concat_map_nil.
    destruct vid, pid; reflexivity.
Qed.

(** ** The tree and the device of a document *)

Ltac explode H :=
  cbn [map kind tok_type tok_value app] in H;
  match type of H with
  | map kind ?tokens = [] => destruct tokens; [clear H | discriminate H]
  | map kind ?tokens = _ :: _ =>
      let ty := fresh "ty" in
      let v := fresh "v" in
      let l := fresh "l" in
      let c := fresh "c" in
      let rest := fresh "tokens" in
      destruct tokens as [|[ty v l c] rest]; [discriminate H|];
      cbn [map kind tok_type tok_value] in H;
      injection H as -> -> H; explode H
  end.

Lemma parseLibconfig_deviceDocument before inside name vid pid :
  Forall silent before -> Forall silent inside ->
  allChars nameChar name = true ->
  hexDigitsIfGiven vid -> hexDigitsIfGiven pid ->
  parseLibconfig (deviceDocument before inside name vid pid)
  = Return (VObj [ ("devices",
                    VArr [ VObj (("name", VStr name)
                                 :: idMembers "vid" vid +++ idMembers "pid" pid) ]) ]).
Proof.
  intros Hbefore Hinside Hname Hvid Hpid.
  destruct (tokenize_deviceDocument before inside name vid pid
              Hbefore Hinside Hname Hvid Hpid) as (tokens & Htokens & Hkinds).
  unfold parseLibconfig. rewrite Htokens. clear Htokens.
  destruct vid, pid; explode Hkinds; reflexivity.
Qed.

Lemma truthy_name name : name <> EmptyString -> truthyV (VStr name) = true.
Proof. destruct name; [congruence | reflexivity]. Qed.

Lemma hexOrEmpty_given d :
  allChars isHexDigit d = true ->
  hexOrEmpty (Some (VStr ("0x" ++ d))) = Return ("0x" ++ toLowerCase d).
Proof.
  intros Hd. unfold hexOrEmpty. cbn [truthy truthyV].
  change (negb (String.eqb ("0x" ++ d) EmptyString)) with true. cbv iota.
  change (StringOf (Some (VStr ("0x" ++ d)))) with (Return ("0x" ++ d)). cbn [bind].
  f_equal. apply normalizeHexValue_prefixed. exact Hd.
Qed.

Lemma parseDeviceFromData_plain name vid pid :
  name <> EmptyString ->
  hexDigitsIfGiven vid -> hexDigitsIfGiven pid ->
  parseDeviceFromData
    (VObj (("name", VStr name) :: idMembers "vid" vid +++ idMembers "pid" pid))
  = Return (Some (plainDevice name (storedId vid) (storedId pid))).
Proof.
  intros Hname Hvid Hpid. unfold parseDeviceFromData.
  set (data := VObj _).
  assert (Hn : get data "name" = Some (VStr name)) by reflexivity.
  assert (Hv : hexOrEmpty (get data "vid") = Return (storedId vid)).
  { destruct vid as [d|], pid; try reflexivity; apply hexOrEmpty_given; exact Hvid. }
  assert (Hp : hexOrEmpty (get data "pid") = Return (storedId pid)).
  { destruct vid, pid as [d|]; try reflexivity; apply hexOrEmpty_given; exact Hpid. }
  rewrite Hn, Hv, Hp. cbn [truthy]. rewrite (truthy_name name Hname).
  cbn [negb]. change (StringOf (Some (VStr name))) with (Return name). cbn [bind].
  destruct vid, pid; reflexivity.
Qed.

(** What [parseConfigFile] returns for a device document. *)
Lemma parseConfigFile_deviceDocument clock filename before inside name vid pid :
  Forall silent before -> Forall silent inside ->
  validName name ->
  hexDigitsIfGiven vid -> hexDigitsIfGiven pid ->
  parseConfigFile clock (deviceDocument before inside name vid pid) filename
  = Return (mkConfiguration
              (Some [ plainDevice name (storedId vid) (storedId pid) ])
              (Some (mkMetadata "1.0.0" (clock_created clock) (clock_modified clock) filename
                       (Some (deviceDocument before inside name vid pid))))).
Proof.
  intros Hbefore Hinside [Hne Hname] Hvid Hpid. unfold parseConfigFile.
  rewrite (parseLibconfig_deviceDocument before inside name vid pid
             Hbefore Hinside Hname Hvid Hpid).
  cbn [bind get lookup String.eqb Ascii.eqb Bool.eqb truthy truthyV].
  unfold parseDevicesFromData. cbn [iterate bind mapM].
  rewrite (parseDeviceFromData_plain name vid pid Hne Hvid Hpid).
  reflexivity.
Qed.

(** ** What the generator writes for a plain device *)

Lemma comment_silent indent text :
  allChars isSpace indent = true ->
  allChars notNewline indent = true ->
  allChars notNewline text = true ->
  silent (indent ++ "//" ++ text).
Proof.
  intros Hspace Hindent Htext. split.
  - rewrite allChars_app, Hindent. cbn [append allChars]. rewrite Htext. reflexivity.
  - intros lineNum. generalize 0 as column.
    induction indent as [|c indent IH]; intros column.
    + reflexivity.
    + cbn [allChars] in Hspace, Hindent. rewrite andb_true_iff in Hspace, Hindent.
      destruct Hspace as [Hc Hspace]. destruct Hindent as [_ Hindent].
      cbn [append]. rewrite tokenizeLine_unfold.
      unfold lineStep. rewrite Hc. apply IH; assumption.
Qed.

Lemma generatedHeader_silent metadata :
  wellFormedMetadata metadata -> Forall silent (generatedHeader metadata).
Proof.
  intros [Hcreated Hmodified]. unfold generatedHeader.
  apply Forall_cons; [|apply Forall_cons; [|apply Forall_cons; [|apply Forall_cons]]].
  - apply (comment_silent EmptyString " Generated by logiops-gui"); reflexivity.
  - apply (comment_silent EmptyString (" Created: " ++ _)); try reflexivity.
    cbn [append allChars]. rewrite Hcreated. reflexivity.
  - apply (comment_silent EmptyString (" Modified: " ++ _)); try reflexivity.
    cbn [append allChars]. rewrite Hmodified. reflexivity.
  - split; [reflexivity | intros; reflexivity].
  - apply Forall_nil.
Qed.

Lemma deviceComment_silent name :
  allChars nameChar name = true -> Forall silent [ "  // For the " ++ name ].
Proof.
  intros Hname. apply Forall_cons; [|apply Forall_nil].
  apply (comment_silent "  " (" For the " ++ name)); try reflexivity.
  cbn [append allChars]. rewrite (allChars_nameChar_notNewline _ Hname). reflexivity.
Qed.

Lemma generateConfigFile_plainDevice metadata name vid pid :
  generateConfigFile
    (mkConfiguration (Some [ plainDevice name ("0x" ++ vid) ("0x" ++ pid) ])
                     (Some metadata))
  = Return (deviceDocument (generatedHeader metadata) [ "  // For the " ++ name ]
                           name (Some vid) (Some pid)).
Proof. reflexivity. Qed.

(** ** Termination of the parser and of the mapper *)

Lemma skipSeparator_length separators tokens :
  length (skipSeparator separators tokens) <= length tokens.
Proof.
  destruct tokens as [|token rest]; simpl; [lia|].
  destruct (existsb (isDelimiter token) separators); simpl; lia.
Qed.

Lemma consumes_le bound bound' r :
  consumes bound r -> bound <= bound' -> consumes bound' r.
Proof. destruct r as [[v rest]| |]; cbn; intros; try assumption. lia. Qed.

Lemma consumes_bind bound bound' m (k : Value * list Token -> outcome (Value * list Token)) :
  consumes bound m ->
  (forall value next, length next <= bound -> consumes bound' (k (value, next))) ->
  consumes bound' (bind m k).
Proof.
  destruct m as [[value next]| |]; cbn; intros Hm Hk; [apply Hk; exact Hm | exact I | exact Hm].
Qed.

Lemma parser_terminates fuel :
  (forall tokens, 2 * length tokens + 1 <= fuel ->
     consumes (length tokens - 1) (parseValue fuel tokens))
  /\ (forall obj tokens, 2 * length tokens + 2 <= fuel ->
        consumes (length tokens) (parseObject fuel obj tokens))
  /\ (forall arr tokens, 2 * length tokens + 2 <= fuel ->
        consumes (length tokens) (parseArray fuel arr tokens)).
Proof.
  induction fuel as [|fuel (IHv & IHo & IHa)]; [repeat split; intros; lia|].
  split; [|split].
  - intros [|token rest] Hfuel; cbn [parseValue]; [exact I|].
    cbn [length] in Hfuel.
    destruct (tok_type token); try exact I; try (cbn [consumes length]; lia).
    destruct (String.eqb (tok_value token) "{").
    { apply (consumes_le (length rest)); [apply IHo; lia | cbn [length]; lia]. }
    destruct (String.eqb (tok_value token) "(").
    { apply (consumes_le (length rest)); [apply IHa; lia | cbn [length]; lia]. }
    exact I.
  - intros obj [|token rest] Hfuel; cbn [parseObject]; [cbn; lia|].
    cbn [length] in Hfuel.
    destruct (isDelimiter token "}"); [cbn; lia|].
    assert (Hskip : consumes (length (token :: rest)) (parseObject fuel obj rest)).
    { apply (consumes_le (length rest)); [apply IHo; lia | cbn [length]; lia]. }
    destruct (tok_type token); try exact Hskip.
    destruct rest as [|op rest']; [exact I|].
    destruct (isAssignOperator op); [|exact I].
    cbn [length] in Hfuel.
    apply (consumes_bind (length rest' - 1)); [apply IHv; lia|].
    intros value next Hnext.
    pose proof (skipSeparator_length [";"; ","] next) as Hsep.
    apply (consumes_le (length (skipSeparator [";"; ","] next)));
      [apply IHo; lia | cbn [length]; lia].
  - intros arr [|token rest] Hfuel; cbn [parseArray]; [exact I|].
    cbn [length] in Hfuel.
    destruct (isDelimiter token ")"); [cbn; lia|].
    apply (consumes_bind (length (token :: rest) - 1)); [apply IHv; cbn [length]; lia|].
    intros value next Hnext. cbn [length] in Hnext.
    pose proof (skipSeparator_length [","] next) as Hsep.
    apply (consumes_le (length (skipSeparator [","] next)));
      [apply IHa; lia | cbn [length]; lia].
Qed.

Lemma consumes_settled bound r : consumes bound r -> settled r.
Proof. destruct r as [[? ?]| |]; cbn; intros H; [discriminate | discriminate | destruct H]. Qed.

Lemma bind_settled {A B : Type} (m : outcome A) (f : A -> outcome B) :
  settled m -> (forall a, m = Return a -> settled (f a)) -> settled (bind m f).
Proof.
  destruct m as [a| |]; cbn; intros Hm Hf; [apply Hf; reflexivity | discriminate | congruence].
Qed.

Lemma parseLibconfig_settled content : settled (parseLibconfig content).
Proof.
  unfold parseLibconfig.
  destruct (tokenizeLines_total (splitLines content) 0) as [tokens Htokens].
  unfold tokenize. rewrite Htokens.
  destruct (parser_terminates (parserFuel tokens)) as (Hv & Ho & _).
  match goal with |- settled (if ?b then _ else _) => destruct b end.
  - specialize (Ho [] tokens). apply bind_settled.
    + apply (consumes_settled (length tokens)). apply Ho. unfold parserFuel. lia.
    + intros [v r] _. discriminate.
  - specialize (Hv tokens). apply bind_settled.
    + apply (consumes_settled (length tokens - 1)). apply Hv. unfold parserFuel. lia.
    + intros [v r] _. discriminate.
Qed.

Lemma mapM_settled {A B : Type} (f : A -> outcome B) xs :
  (forall x, In x xs -> settled (f x)) -> settled (mapM f xs).
Proof.
  induction xs as [|x xs IH]; intros H; cbn [mapM]; [discriminate|].
  apply bind_settled; [apply H; left; reflexivity|]. intros y _.
  apply bind_settled; [apply IH; intros; apply H; right; assumption|].
  intros ys _. discriminate.
Qed.

Lemma firstTruthy_depth data keys x :
  firstTruthy (map (get data) keys) = Some x -> depth x < depth data.
Proof.
  unfold firstTruthy. intros H. apply find_some in H. destruct H as [Hin _].
  induction keys as [|key keys IH]; cbn [map filterSome] in Hin; [destruct Hin|].
  destruct (get data key) as [v|] eqn:E; [|auto].
  destruct Hin as [<- | Hin]; [apply (depth_get data key v E) | auto].
Qed.

(** *** The exceptions of the mapper *)

Lemma mapperError_conversion e : conversionError e -> mapperError e.
Proof. intros ->. apply NotConvertible. Qed.

Ltac conversion lemma :=
  apply (throwsOnly_weaken conversionError mapperError _ mapperError_conversion);
  apply lemma.

(** [normalizeActionData] throws where a gesture has no action, and what a
    conversion throws. *)
Lemma normalizeActionData_throwsOnly fuel :
  forall actionData, depthOf actionData < fuel ->
    throwsOnly mapperError (normalizeActionData fuel actionData).
Proof.
  induction fuel as [|fuel IH]; intros actionData Hd; [lia|].
  destruct actionData as [data|]; cbn [normalizeActionData]; [|apply ActionMissing].
  unfold depthOf in Hd.
  apply bind_throwsOnly; [conversion StringOf_throwsOnly|]. intros originalType _.
  repeat match goal with
         | |- throwsOnly _ (Return _) => exact I
         | |- throwsOnly _ (if ?b then _ else _) => destruct b
         end.
  - apply bind_throwsOnly; [conversion keysOf_throwsOnly | intros; exact I].
  - apply bind_throwsOnly; [|intros; exact I].
    apply mapM_throwsOnly. intros gestureData Hin. apply depth_arrayItems in Hin.
    apply bind_throwsOnly; [conversion StringOf_throwsOnly|]. intros direction _.
    apply bind_throwsOnly; [conversion StringOf_throwsOnly|]. intros mode _.
    apply bind_throwsOnly; [|intros; exact I].
    apply IH. destruct (get gestureData "action") as [x|] eqn:E; unfold depthOf; [|lia].
    apply depth_get in E. lia.
  - apply bind_throwsOnly; [conversion axisParametersOf_throwsOnly | intros; exact I].
  - apply bind_throwsOnly; [conversion NumberOf_throwsOnly | intros; exact I].
Qed.

Lemma parseSmartshift_throwsOnly smartshift :
  throwsOnly conversionError (parseSmartshift smartshift).
Proof.
  unfold parseSmartshift. destruct smartshift as [v|]; [|exact I].
  destruct (truthyV v); [|exact I].
  apply bind_throwsOnly; [|intros; exact I].
  destruct (truthy (get v "threshold")); [apply NumberOf_throwsOnly | exact I].
Qed.

Lemma parseButton_throwsOnly fuel buttonData :
  depth buttonData < fuel -> throwsOnly mapperError (parseButton fuel buttonData).
Proof.
  intros Hd. unfold parseButton.
  destruct (negb (truthy (get buttonData "cid"))
            || negb (truthy (get buttonData "action"))); [exact I|].
  apply bind_throwsOnly.
  - apply normalizeActionData_throwsOnly.
    destruct (get buttonData "action") as [x|] eqn:E; unfold depthOf; [|lia].
    apply depth_get in E. lia.
  - intros action _.
    apply bind_throwsOnly; [conversion StringOf_throwsOnly | intros; exact I].
Qed.

(** What [parseDeviceFromData] throws: the exception of a conversion, or
    the one of a gesture of a button that has no action. *)
Lemma parseDeviceFromData_throwsOnly data : throwsOnly mapperError (parseDeviceFromData data).
Proof.
  unfold parseDeviceFromData.
  destruct (negb (truthy (get data "name"))); [exact I|].
  apply bind_throwsOnly; [conversion StringOf_throwsOnly|]. intros name _.
  apply bind_throwsOnly; [conversion hexOrEmpty_throwsOnly|]. intros vid _.
  apply bind_throwsOnly; [conversion hexOrEmpty_throwsOnly|]. intros pid _.
  apply bind_throwsOnly; [conversion numberIfDefined_throwsOnly|]. intros timeout _.
  apply bind_throwsOnly; [conversion parseSmartshift_throwsOnly|]. intros smartshift _.
  apply bind_throwsOnly.
  { destruct (firstTruthy _) as [scrollData|] eqn:E; [|exact I].
    apply (firstTruthy_depth data ["hiresscroll"; "scrollwheel"; "scroll_wheel"]) in E.
    apply bind_throwsOnly; [|intros; exact I].
    conversion parseScrollWheelFromData_throwsOnly. unfold mapperFuel. lia. }
  intros scrollWheel _. apply bind_throwsOnly.
  { destruct (truthy (get data "buttons") && isArray (get data "buttons")); [|exact I].
    apply bind_throwsOnly; [|intros; exact I].
    apply mapM_throwsOnly. intros buttonData Hin. apply depth_arrayItems in Hin.
    apply parseButton_throwsOnly. unfold mapperFuel. lia. }
  intros buttons _. apply bind_throwsOnly; [|intros; exact I].
  destruct (truthy (get data "gestures") && isArray (get data "gestures")); [|exact I].
  apply bind_throwsOnly; [|intros; exact I].
  apply mapM_throwsOnly. intros gestureData Hin. apply depth_arrayItems in Hin.
  conversion parseGestureFromData_throwsOnly. unfold mapperFuel. lia.
Qed.

Lemma parseDeviceFromData_settled data : settled (parseDeviceFromData data).
Proof. exact (throwsOnly_settled _ _ (parseDeviceFromData_throwsOnly data)). Qed.

Lemma wrapParseError_settled {A : Type} (m : outcome A) :
  settled m -> settled (wrapParseError m).
Proof.
  destruct m as [a|e|]; cbn; intros H; [discriminate| |congruence].
  destruct (isConfigParseError e); discriminate.
Qed.

(** [parseConfigFile] ends on every input: the fuel of the model never
    runs out. *)
Lemma parseConfigFile_settled clock content filename :
  settled (parseConfigFile clock content filename).
Proof.
  unfold parseConfigFile. apply wrapParseError_settled.
  apply bind_settled; [apply parseLibconfig_settled|]. intros parsed _.
  apply bind_settled; [|intros; discriminate].
  unfold parseDevicesFromData.
  apply bind_settled.
  - match goal with |- settled (iterate _ ?v) => destruct v end; discriminate.
  - intros items _. apply bind_settled; [|intros; discriminate].
    apply mapM_settled. intros; apply parseDeviceFromData_settled.
Qed.

(** *** The device of a block *)

(** A block with a name becomes, when the mapper returns, a device with that
    name and with the identifiers normalized, or empty when the block has
    none; a block without a name becomes none. *)
Lemma parseDeviceFromData_conversions data result :
  parseDeviceFromData data = Return result ->
  match result with
  | Some device =>
      truthy (get data "name") = true
      /\ StringOf (get data "name") = Return (dev_name device)
      /\ (exists vid, hexOrEmpty (get data "vid") = Return vid /\ dev_vid device = Some vid)
      /\ (exists pid, hexOrEmpty (get data "pid") = Return pid /\ dev_pid device = Some pid)
  | None => truthy (get data "name") = false
  end.
Proof.
  unfold parseDeviceFromData. destruct (truthy (get data "name")); cbn [negb];
    [|intros [= <-]; reflexivity].
  destruct (StringOf (get data "name")) as [name| |] eqn:Hname; cbn [bind];
    try discriminate.
  destruct (hexOrEmpty (get data "vid")) as [vid| |] eqn:Hvid; cbn [bind];
    try discriminate.
  destruct (hexOrEmpty (get data "pid")) as [pid| |] eqn:Hpid; cbn [bind];
    try discriminate.
  repeat match goal with
         | |- bind ?m _ = _ -> _ => destruct m as [?| |]; cbn [bind]; try discriminate
         end.
  intros [= <-]. split; [reflexivity|]. split; [reflexivity|].
  split; eexists; split; reflexivity.
Qed.

Lemma parseDeviceFromData_returned data device :
  parseDeviceFromData data = Return (Some device) ->
  truthy (get data "name") = true
  /\ dev_name device = String_ (get data "name")
  /\ dev_vid device = Some (storedHex (get data "vid"))
  /\ dev_pid device = Some (storedHex (get data "pid")).
Proof.
  intros H. apply parseDeviceFromData_conversions in H.
  destruct H as (Hname & Hn & (vid & Hvid & Hv) & (pid & Hpid & Hp)).
  apply StringOf_returned in Hn. apply hexOrEmpty_returned in Hvid, Hpid.
  subst vid pid. repeat split; assumption.
Qed.

(** ** The parser moves forward *)

Lemma skipSeparator_leaves separators tokens :
  exists consumed, leaves tokens consumed (skipSeparator separators tokens).
Proof.
  destruct tokens as [|token rest]; cbn [skipSeparator].
  - exists []. reflexivity.
  - destruct (existsb (isDelimiter token) separators).
    + exists [token]. reflexivity.
    + exists []. reflexivity.
Qed.

Lemma parser_leaves fuel :
  (forall tokens value rest,
      parseValue fuel tokens = Return (value, rest) ->
      exists consumed, consumed <> [] /\ leaves tokens consumed rest)
  /\ (forall obj tokens value rest,
        parseObject fuel obj tokens = Return (value, rest) ->
        exists consumed, leaves tokens consumed rest)
  /\ (forall arr tokens value rest,
        parseArray fuel arr tokens = Return (value, rest) ->
        exists consumed, leaves tokens consumed rest /\ hasDelimiter ")" consumed).
Proof.
  induction fuel as [|fuel (IHv & IHo & IHa)].
  - repeat split; intros; discriminate.
  - split; [|split].
    + intros tokens value rest. cbn [parseValue].
      destruct tokens as [|token tokens]; [discriminate|].
      destruct (tok_type token).
      * discriminate.
      * intros [= _ <-]. exists [token]. split; [discriminate | reflexivity].
      * intros [= _ <-]. exists [token]. split; [discriminate | reflexivity].
      * intros [= _ <-]. exists [token]. split; [discriminate | reflexivity].
      * discriminate.
      * destruct (String.eqb (tok_value token) "{").
        { intros H. destruct (IHo _ _ _ _ H) as [consumed Hc].
          exists (token :: consumed). split; [discriminate|].
          unfold leaves in *. rewrite Hc. reflexivity. }
        destruct (String.eqb (tok_value token) "(").
        { intros H. destruct (IHa _ _ _ _ H) as (consumed & Hc & _).
          exists (token :: consumed). split; [discriminate|].
          unfold leaves in *. rewrite Hc. reflexivity. }
        discriminate.
      * discriminate.
    + intros obj tokens value rest. cbn [parseObject].
      destruct tokens as [|token tokens].
      { intros [= _ <-]. exists []. reflexivity. }
      destruct (isDelimiter token "}").
      { intros [= _ <-]. exists [token]. reflexivity. }
      assert (Hskip : parseObject fuel obj tokens = Return (value, rest) ->
                      exists consumed, leaves (token :: tokens) consumed rest).
      { intros H. destruct (IHo _ _ _ _ H) as [consumed Hc].
        exists (token :: consumed). unfold leaves in *. rewrite Hc. reflexivity. }
      destruct (tok_type token); try exact Hskip.
      destruct tokens as [|op tokens]; [discriminate|].
      destruct (isAssignOperator op); [|discriminate].
      destruct (parseValue fuel tokens) as [[v next]| |] eqn:Hv; cbn [bind];
        try discriminate.
      intros H. destruct (IHv _ _ _ Hv) as (c1 & _ & H1).
      destruct (skipSeparator_leaves [";"; ","] next) as [c2 H2].
      destruct (IHo _ _ _ _ H) as [c3 H3].
      exists (token :: op :: c1 +++ c2 +++ c3). unfold leaves in *.
      rewrite H1, H2, H3 at 1. cbn [app]. rewrite <- !app_assoc. reflexivity.
    + intros arr tokens value rest. cbn [parseArray].
      destruct tokens as [|token tokens]; [discriminate|].
      destruct (isDelimiter token ")") eqn:Hclose.
      { intros [= _ <-]. exists [token]. split; [reflexivity|].
        exists token. split; [left; reflexivity | exact Hclose]. }
      destruct (parseValue fuel (token :: tokens)) as [[v next]| |] eqn:Hv; cbn [bind];
        try discriminate.
      intros H. destruct (IHv _ _ _ Hv) as (c1 & _ & H1).
      destruct (skipSeparator_leaves [","] next) as [c2 H2].
      destruct (IHa _ _ _ _ H) as (c3 & H3 & closing & Hin & Hc).
      exists (c1 +++ c2 +++ c3). unfold leaves in *. split.
      * rewrite H1, H2, H3 at 1. rewrite <- !app_assoc. reflexivity.
      * exists closing. split; [|exact Hc]. rewrite !in_app_iff. auto.
Qed.

(** ** The errors of the parser *)

Lemma parserError_leaves tokens consumed rest e :
  leaves tokens consumed rest -> parserError rest e -> parserError tokens e.
Proof.
  unfold leaves. intros -> H. destruct H.
  - apply EndOfInput.
  - apply UnexpectedToken. rewrite in_app_iff. auto.
  - apply ExpectedOperator; [rewrite in_app_iff; auto | assumption].
  - apply UnterminatedArray.
Qed.

Lemma parserError_cons token tokens e :
  parserError tokens e -> parserError (token :: tokens) e.
Proof. apply (parserError_leaves (token :: tokens) [token] tokens). reflexivity. Qed.

Lemma parser_throws fuel :
  (forall tokens e, parseValue fuel tokens = Throw e -> parserError tokens e)
  /\ (forall obj tokens e, parseObject fuel obj tokens = Throw e -> parserError tokens e)
  /\ (forall arr tokens e, parseArray fuel arr tokens = Throw e -> parserError tokens e).
Proof.
  induction fuel as [|fuel (IHv & IHo & IHa)].
  - repeat split; intros; discriminate.
  - split; [|split].
    + intros tokens e. cbn [parseValue].
      destruct tokens as [|token tokens].
      { intros [= <-]. apply EndOfInput. }
      assert (Hun : @Throw (Value * list Token) (unexpectedToken token) = Throw e ->
                    parserError (token :: tokens) e).
      { intros [= <-]. apply UnexpectedToken. left. reflexivity. }
      destruct (tok_type token); try discriminate; try exact Hun.
      destruct (String.eqb (tok_value token) "{").
      { intros H. apply parserError_cons. exact (IHo _ _ _ H). }
      destruct (String.eqb (tok_value token) "(").
      { intros H. apply parserError_cons. exact (IHa _ _ _ H). }
      exact Hun.
    + intros obj tokens e. cbn [parseObject].
      destruct tokens as [|token tokens]; [discriminate|].
      destruct (isDelimiter token "}"); [discriminate|].
      assert (Hskip : parseObject fuel obj tokens = Throw e ->
                      parserError (token :: tokens) e).
      { intros H. apply parserError_cons. exact (IHo _ _ _ H). }
      destruct (tok_type token) eqn:Htype; try exact Hskip.
      assert (Hop : @Throw (Value * list Token)
                      (expectedOperator (tok_value token) token) = Throw e ->
                    forall others, parserError (token :: others) e).
      { intros [= <-] others. apply ExpectedOperator; [left; reflexivity | exact Htype]. }
      destruct tokens as [|op tokens]; [intros H; exact (Hop H [])|].
      destruct (isAssignOperator op); [|intros H; exact (Hop H _)].
      destruct (parseValue fuel tokens) as [[v next]| |] eqn:Hv; cbn [bind].
      * intros H. destruct (proj1 (parser_leaves fuel) _ _ _ Hv) as (c1 & _ & H1).
        destruct (skipSeparator_leaves [";"; ","] next) as [c2 H2].
        do 2 apply parserError_cons.
        apply (parserError_leaves _ _ _ _ H1).
        apply (parserError_leaves _ _ _ _ H2).
        exact (IHo _ _ _ H).
      * intros [= <-]. do 2 apply parserError_cons. exact (IHv _ _ Hv).
      * discriminate.
    + intros arr tokens e. cbn [parseArray].
      destruct tokens as [|token tokens].
      { intros [= <-]. apply UnterminatedArray. }
      destruct (isDelimiter token ")"); [discriminate|].
      destruct (parseValue fuel (token :: tokens)) as [[v next]| |] eqn:Hv; cbn [bind].
      * intros H. destruct (proj1 (parser_leaves fuel) _ _ _ Hv) as (c1 & _ & H1).
        destruct (skipSeparator_leaves [","] next) as [c2 H2].
        apply (parserError_leaves _ _ _ _ H1).
        apply (parserError_leaves _ _ _ _ H2).
        exact (IHa _ _ _ H).
      * intros [= <-]. exact (IHv _ _ Hv).
      * discriminate.
Qed.

Lemma parseLibconfig_throws content e :
  parseLibconfig content = Throw e ->
  exists tokens, tokenize content = Some tokens /\ parserError tokens e.
Proof.
  unfold parseLibconfig. destruct (tokenize content) as [tokens|]; [|discriminate].
  intros H. exists tokens. split; [reflexivity|].
  destruct (parser_throws (parserFuel tokens)) as (Hv & Ho & _).
  match type of H with
  | (if ?b then _ else _) = _ => destruct b
  end.
  - destruct (parseObject (parserFuel tokens) [] tokens) as [[v next]| |] eqn:E;
      cbn [bind] in H; try discriminate.
    injection H as <-. exact (Ho _ _ _ E).
  - destruct (parseValue (parserFuel tokens) tokens) as [[v next]| |] eqn:E;
      cbn [bind] in H; try discriminate.
    injection H as <-. exact (Hv _ _ E).
Qed.

(** ** The errors of the mapper *)

Lemma parseDevicesFromData_throws devicesData e :
  parseDevicesFromData devicesData = Throw e -> mapperError e.
Proof.
  unfold parseDevicesFromData.
  destruct (iterate "devicesData" devicesData) as [items| |] eqn:Hit; cbn [bind].
  - pose proof (mapM_throwsOnly mapperError parseDeviceFromData items
                  (fun x _ => parseDeviceFromData_throwsOnly x)) as H.
    destruct (mapM parseDeviceFromData items) as [mapped|e'|]; cbn [bind].
    + discriminate.
    + intros [= <-]. exact H.
    + discriminate.
  - intros [= <-]. destruct devicesData; try discriminate; cbn in Hit;
      injection Hit as <-; apply NotIterable.
  - discriminate.
Qed.

Lemma parseConfigFile_unfold clock content filename :
  parseConfigFile clock content filename
  = wrapParseError (
      parsed <- parseLibconfig content ;;
      devices <- parseDevicesFromData (devicesDataOf parsed) ;;
      Return (mkConfiguration (Some devices)
                (Some (mkMetadata "1.0.0" (clock_created clock) (clock_modified clock)
                         filename (Some content))))).
Proof. reflexivity. Qed.

Lemma parserError_plain tokens e : parserError tokens e -> isConfigParseError e = false.
Proof. intros H. destruct H; reflexivity. Qed.

Lemma mapperError_plain e : mapperError e -> isConfigParseError e = false.
Proof. intros H. destruct H; reflexivity. Qed.

(** What [parseConfigFile] does on every text. *)
Lemma parseConfigFile_cases clock content filename :
  exists tokens,
    tokenize content = Some tokens
    /\ ((exists devices,
            parseConfigFile clock content filename
            = Return (mkConfiguration (Some devices)
                        (Some (mkMetadata "1.0.0" (clock_created clock)
                                 (clock_modified clock) filename (Some content)))))
        \/ (exists e,
              (parserError tokens e \/ mapperError e)
              /\ parseConfigFile clock content filename
                 = Throw (ConfigParseError
                            ("Failed to parse configuration file: " ++ errorMessage e)
                            None None))).
Proof.
  destruct (tokenizeLines_total (splitLines content) 0) as [tokens Htok].
  exists tokens. split; [exact Htok|].
  rewrite parseConfigFile_unfold.
  destruct (parseLibconfig content) as [parsed|e|] eqn:Hparse; cbn [bind].
  - destruct (parseDevicesFromData (devicesDataOf parsed)) as [devices|e|] eqn:Hdev;
      cbn [bind].
    + left. exists devices. reflexivity.
    + right. exists e. pose proof (parseDevicesFromData_throws _ _ Hdev) as He.
      split; [right; exact He|].
      cbn [wrapParseError]. rewrite (mapperError_plain _ He). reflexivity.
    + exfalso.
      pose proof (parseConfigFile_settled clock content filename) as Hs.
      rewrite parseConfigFile_unfold, Hparse in Hs. cbn [bind] in Hs.
      rewrite Hdev in Hs. cbn [bind wrapParseError] in Hs. apply Hs. reflexivity.
  - right. exists e. destruct (parseLibconfig_throws _ _ Hparse) as (tokens' & Htok' & He).
    unfold tokenize in Htok'. rewrite Htok in Htok'. injection Htok' as <-.
    split; [left; exact He|].
    cbn [wrapParseError]. rewrite (parserError_plain _ _ He). reflexivity.
  - exfalso. apply (parseLibconfig_settled content). exact Hparse.
Qed.

(** ** Lines without a token *)

Lemma tokenizeLine_blankOrComment line :
  blankOrComment line = true ->
  forall fuel lineNum column,
    String.length line < fuel -> tokenizeLine fuel lineNum column line = Some [].
Proof.
  induction line as [|c line IH]; intros Hline fuel lineNum column Hfuel;
    (destruct fuel as [|fuel]; [inversion Hfuel|]); [reflexivity|].
  cbn [tokenizeLine]. unfold blankOrComment in Hline. cbn [trimStart] in Hline.
  destruct (isSpace c) eqn:Hspace.
  - unfold lineStep. rewrite Hspace. apply IH; [exact Hline|]. simpl in Hfuel. lia.
  - assert (Hbreak : lineStep lineNum column c line = Break).
    { unfold lineStep. rewrite Hspace.
      rewrite !orb_true_iff in Hline. destruct Hline as [[Hempty | Hslash] | Hhash].
      - discriminate Hempty.
      - cbn [startsWith] in Hslash. rewrite andb_true_iff in Hslash.
        destruct Hslash as [Hc Hslash]. destruct line as [|d line]; [discriminate Hslash|].
        rewrite andb_true_iff in Hslash. destruct Hslash as [Hd _].
        apply Ascii.eqb_eq in Hc, Hd. subst c d. reflexivity.
      - cbn [startsWith] in Hhash. rewrite andb_true_iff in Hhash.
        destruct Hhash as [Hc _]. apply Ascii.eqb_eq in Hc. subst c. reflexivity. }
    rewrite Hbreak. reflexivity.
Qed.

Lemma tokenizeLines_blankOrComment lines :
  forallb blankOrComment lines = true ->
  forall lineNum, tokenizeLines lineNum lines = Some [].
Proof.
  induction lines as [|line lines IH]; intros Hall lineNum; [reflexivity|].
  cbn [forallb] in Hall. rewrite andb_true_iff in Hall. destruct Hall as [Hline Hall].
  cbn [tokenizeLines].
  rewrite (tokenizeLine_blankOrComment line Hline) by lia.
  rewrite (IH Hall). reflexivity.
Qed.

Lemma parseLibconfig_no_token content :
  tokenize content = Some [] ->
  parseLibconfig content = Throw (PlainError "Unexpected end of input").
Proof. intros H. unfold parseLibconfig. rewrite H. reflexivity. Qed.

Lemma parseConfigFile_no_token clock content filename :
  tokenize content = Some [] ->
  parseConfigFile clock content filename = failedToParse "Unexpected end of input".
Proof.
  intros H. rewrite parseConfigFile_unfold, (parseLibconfig_no_token _ H). reflexivity.
Qed.

(** ** extractDeviceInfo and the mapper *)

Lemma mapM_Forall2 {A B : Type} (f : A -> outcome B) xs :
  forall ys, mapM f xs = Return ys -> Forall2 (fun x y => f x = Return y) xs ys.
Proof.
  induction xs as [|x xs IH]; cbn [mapM]; intros ys.
  - intros [= <-]. constructor.
  - destruct (f x) as [y| |] eqn:Hx; cbn [bind]; try discriminate.
    destruct (mapM f xs) as [others| |]; cbn [bind]; try discriminate.
    intros [= <-]. constructor; [exact Hx | apply IH; reflexivity].
Qed.

Lemma parseDeviceFromData_identity data result :
  parseDeviceFromData data = Return result ->
  identityOf data = Return (option_map identityOfDevice result).
Proof.
  intros H. apply parseDeviceFromData_conversions in H. unfold identityOf.
  destruct result as [device|]; [|rewrite H; reflexivity].
  destruct H as (Hname & Hn & (vid & Hvid & Hv) & (pid & Hpid & Hp)).
  rewrite Hname, Hn, Hvid, Hpid. cbn [bind option_map]. unfold identityOfDevice.
  rewrite Hv, Hp. reflexivity.
Qed.

Lemma identities_of_mapped items mapped :
  Forall2 (fun x y => parseDeviceFromData x = Return y) items mapped ->
  identitiesOf items = map identityOfDevice (filterSome mapped).
Proof.
  induction 1 as [|data result items mapped H _ IH]; [reflexivity|].
  cbn [identitiesOf]. rewrite (parseDeviceFromData_identity _ _ H).
  destruct result; cbn [option_map filterSome map]; rewrite IH; reflexivity.
Qed.

(** ** Trimming and lower case *)

Lemma lowerChar_idempotent c : lowerChar (lowerChar c) = lowerChar c.
Proof. ascii_cases c; reflexivity. Qed.

Lemma lowerChar_space c : isSpace (lowerChar c) = isSpace c.
Proof. ascii_cases c; reflexivity. Qed.


Lemma toLowerCase_idempotent s : toLowerCase (toLowerCase s) = toLowerCase s.
Proof. induction s; simpl; [reflexivity|]. rewrite lowerChar_idempotent, IHs. reflexivity. Qed.


Lemma toLowerCase_trimStart s : trimStart (toLowerCase s) = toLowerCase (trimStart s).
Proof.
  induction s as [|c s IH]; [reflexivity|]. cbn [toLowerCase trimStart].
  rewrite lowerChar_space. destruct (isSpace c); [exact IH | reflexivity].
Qed.

Lemma toLowerCase_empty s : toLowerCase s = EmptyString -> s = EmptyString.
Proof. destruct s; [reflexivity | discriminate]. Qed.

Lemma toLowerCase_trimEnd s : trimEnd (toLowerCase s) = toLowerCase (trimEnd s).
Proof.
  induction s as [|c s IH]; [reflexivity|]. cbn [toLowerCase trimEnd].
  rewrite IH, lowerChar_space.
  destruct (trimEnd s) as [|d t]; cbn [toLowerCase]; [|reflexivity].
  destruct (isSpace c); reflexivity.
Qed.

Lemma toLowerCase_trim s : trim (toLowerCase s) = toLowerCase (trim s).
Proof. unfold trim. rewrite toLowerCase_trimStart, toLowerCase_trimEnd. reflexivity. Qed.

Lemma trimEnd_cons c s : isSpace c = false -> trimEnd (String c s) = String c (trimEnd s).
Proof. intros H. cbn [trimEnd]. rewrite H. destruct (trimEnd s); reflexivity. Qed.

Lemma trimEnd_idempotent s : trimEnd (trimEnd s) = trimEnd s.
Proof.
  induction s as [|c s IH]; [reflexivity|]. cbn [trimEnd].
  destruct (trimEnd s) as [|d t] eqn:E.
  - destruct (isSpace c) eqn:Hc; [reflexivity|]. cbn [trimEnd]. rewrite Hc. reflexivity.
  - cbn [trimEnd] in *. rewrite IH. reflexivity.
Qed.

Lemma trimStart_head s :
  trimStart s = EmptyString
  \/ exists c s', trimStart s = String c s' /\ isSpace c = false.
Proof.
  induction s as [|c s IH]; [left; reflexivity|]. cbn [trimStart].
  destruct (isSpace c) eqn:Hc; [exact IH|]. right. exists c, s. split; [reflexivity | exact Hc].
Qed.

Lemma trim_idempotent s : trim (trim s) = trim s.
Proof.
  unfold trim. destruct (trimStart_head s) as [-> | (c & s' & -> & Hc)]; [reflexivity|].
  rewrite (trimEnd_cons _ _ Hc). cbn [trimStart]. rewrite Hc.
  rewrite (trimEnd_cons _ _ Hc), trimEnd_idempotent. reflexivity.
Qed.

Lemma trimEnd_trim s : trimEnd (trim s) = trim s.
Proof. unfold trim. apply trimEnd_idempotent. Qed.

(** ** normalizeHexValue on every string *)

Lemma normalizeHexValue_canonicalId value : canonicalId (normalizeHexValue value).
Proof.
  unfold canonicalId, normalizeHexValue.
  set (cleaned := toLowerCase (trim value)).
  assert (Hlower : toLowerCase cleaned = cleaned) by apply toLowerCase_idempotent.
  assert (Htrim : trim cleaned = cleaned).
  { unfold cleaned. rewrite toLowerCase_trim, trim_idempotent. reflexivity. }
  assert (Hend : trimEnd cleaned = cleaned).
  { unfold cleaned. rewrite toLowerCase_trimEnd, trimEnd_trim. reflexivity. }
  destruct (startsWith cleaned "0x") eqn:Hprefix.
  - repeat split; assumption.
  - split; [reflexivity|]. split.
    + change (toLowerCase ("0x" ++ cleaned)) with ("0x" ++ toLowerCase cleaned).
      rewrite Hlower. reflexivity.
    + unfold trim. change (trimStart ("0x" ++ cleaned)) with ("0x" ++ cleaned).
      change ("0x" ++ cleaned) with (String "0" (String "x" cleaned)).
      rewrite !trimEnd_cons by reflexivity. rewrite Hend. reflexivity.
Qed.

Lemma normalizeHexValue_fixed id : canonicalId id -> normalizeHexValue id = id.
Proof.
  intros (Hprefix & Hlower & Htrim). unfold normalizeHexValue.
  rewrite Htrim, Hlower, Hprefix. reflexivity.
Qed.

Lemma canonicalId_nonEmpty id : canonicalId id -> id <> EmptyString.
Proof. intros (Hprefix & _) ->. discriminate Hprefix. Qed.

(** ** The type of a parsed action *)






Lemma validateDevice_consistent device basePath :
  consistent (validateDevice device basePath).
Proof. unfold validateDevice. consistency. Qed.

Lemma validateConfiguration_consistent config :
  consistent (validateConfiguration config).
Proof. unfold validateConfiguration. consistency. Qed.

Lemma invalid_by_error (r : ValidationResult) e :
  consistent r -> In e (errors r) -> isValid r = false.
Proof.
  intros [Hdir _] Hin. destruct (isValid r); [|reflexivity].
  rewrite (Hdir eq_refl) in Hin. destruct Hin.
Qed.

(** ** What a validator accepts *)

Lemma validationResult_valid es ws : isValid (validationResult es ws) = true <-> es = [].
Proof. unfold validationResult. cbn [isValid]. destruct es; split; intros; try reflexivity; discriminate. Qed.

Lemma valid_no_error (r : ValidationResult) : consistent r -> (isValid r = true <-> errors r = []).
Proof. intros H. exact H. Qed.

Lemma validateDPISettings_consistent dpi basePath :
  consistent (validateDPISettings dpi basePath).
Proof. unfold validateDPISettings. consistency. Qed.

Lemma validateButtonMapping_consistent button basePath :
  consistent (validateButtonMapping button basePath).
Proof. unfold validateButtonMapping. consistency. Qed.

Lemma validateGestureMapping_consistent gesture basePath :
  consistent (validateGestureMapping gesture basePath).
Proof. unfold validateGestureMapping. consistency. Qed.

Lemma validateScrollWheelSettings_consistent scrollWheel basePath :
  consistent (validateScrollWheelSettings scrollWheel basePath).
Proof. unfold validateScrollWheelSettings. consistency. Qed.

Lemma app_nil_iff {A : Type} (xs ys : list A) : xs +++ ys = [] <-> xs = [] /\ ys = [].
Proof.
  split; [apply app_eq_nil|]. intros [-> ->]. reflexivity.
Qed.

Lemma collect_errors_nil {A : Type} (validate : A -> nat -> ValidationResult) xs :
  forall index,
    fst (collect validate index xs) = []
    <-> (forall i x, nth_error xs i = Some x -> errors (validate x (index + i)) = []).
Proof.
  induction xs as [|x xs IH]; intros index; cbn [collect].
  - split; [|reflexivity]. intros _ [|i] y; discriminate.
  - destruct (collect validate (S index) xs) as [es ws] eqn:E. cbn [fst].
    specialize (IH (S index)). rewrite E in IH. cbn [fst] in IH. split.
    + intros H. apply app_eq_nil in H. destruct H as [Hx Hes]. intros [|i] y.
      * intros [= <-]. rewrite Nat.add_0_r. exact Hx.
      * cbn [nth_error]. intros Hy. rewrite <- Nat.add_succ_comm.
        exact (proj1 IH Hes i y Hy).
    + intros H. rewrite (proj2 IH).
      * specialize (H 0 x eq_refl). rewrite Nat.add_0_r in H. rewrite H. reflexivity.
      * intros i y Hy. rewrite Nat.add_succ_comm. exact (H (S i) y Hy).
Qed.

Lemma idErrors_nil basePath field required malformed id :
  idErrors basePath field required malformed id = []
  <-> exists v, id = Some v /\ DEVICE_ID_PATTERN v = true.
Proof.
  unfold idErrors, truthyString. destruct id as [v|].
  - destruct (nonEmpty v) eqn:Hv.
    + destruct (DEVICE_ID_PATTERN v) eqn:Hp; cbn [negb]; split.
      * intros _. exists v. split; [reflexivity | exact Hp].
      * reflexivity.
      * discriminate.
      * intros (w & [= <-] & H). rewrite H in Hp. discriminate Hp.
    + split; [discriminate|]. intros (w & [= <-] & H).
      unfold nonEmpty in Hv. apply negb_false_iff, String.eqb_eq in Hv. subst v.
      discriminate H.
  - split; [discriminate|]. intros (w & H & _). discriminate H.
Qed.

Lemma trim_empty : trim EmptyString = EmptyString.
Proof. reflexivity. Qed.

Lemma nameErrors_nil name (e : ValidationError) :
  (if negb (nonEmpty name) || String.eqb (trim name) EmptyString then [ e ] else []) = []
  <-> trim name <> EmptyString.
Proof.
  destruct (String.eqb (trim name) EmptyString) eqn:Ht.
  - rewrite orb_true_r. apply String.eqb_eq in Ht. split; [discriminate | congruence].
  - rewrite orb_false_r. apply String.eqb_neq in Ht.
    destruct (nonEmpty name) eqn:Hn; cbn [negb].
    + split; [intros _; exact Ht | reflexivity].
    + unfold nonEmpty in Hn. apply negb_false_iff, String.eqb_eq in Hn. subst name.
      exfalso. apply Ht. reflexivity.
Qed.

(** The errors of [validateDevice], section by section. *)
Lemma validateDevice_errors device basePath :
  errors (validateDevice device basePath)
  = (if negb (nonEmpty (dev_name device))
        || String.eqb (trim (dev_name device)) EmptyString
     then [ error (basePath ++ ".name") "Device name is required" (Some "name") ]
     else [])
    +++ idErrors basePath "vid" "Vendor ID (vid) is required"
          "Vendor ID must be in hexadecimal format (e.g., 0x046d)" (dev_vid device)
    +++ idErrors basePath "pid" "Product ID (pid) is required"
          "Product ID must be in hexadecimal format (e.g., 0x4082)" (dev_pid device)
    +++ errors (match dev_dpi device with
               | Some dpi =>
                   if truthyV dpi then validateDPISettings dpi (basePath ++ ".dpi")
                   else validationResult [] []
               | None => validationResult [] []
               end)
    +++ fst (match dev_buttons device with
            | Some buttons =>
                collect (fun button index =>
                           validateButtonMapping button
                             (indexed (basePath ++ ".buttons") index))
                        0 buttons
            | None => ([], [])
            end)
    +++ fst (match dev_gestures device with
            | Some gestures =>
                collect (fun gesture index =>
                           validateGestureMapping gesture
                             (indexed (basePath ++ ".gestures") index))
                        0 gestures
            | None => ([], [])
            end)
    +++ errors (match dev_scrollWheel device with
               | Some scrollWheel =>
                   validateScrollWheelSettings scrollWheel (basePath ++ ".scrollWheel")
               | None => validationResult [] []
               end).
Proof.
  unfold validateDevice.
  repeat match goal with
         | |- context [let '(_, _) := ?p in _] => destruct p
         end.
  reflexivity.
Qed.

Lemma validateDevice_acceptable device basePath :
  isValid (validateDevice device basePath) = true <-> acceptable device basePath.
Proof.
  rewrite (valid_no_error _ (validateDevice_consistent device basePath)).
  rewrite validateDevice_errors. unfold acceptable.
  rewrite !app_nil_iff.
  rewrite nameErrors_nil, !idErrors_nil.
  assert (Hdpi :
    errors (match dev_dpi device with
            | Some dpi =>
                if truthyV dpi then validateDPISettings dpi (basePath ++ ".dpi")
                else validationResult [] []
            | None => validationResult [] []
            end) = []
    <-> (forall dpi, dev_dpi device = Some dpi -> truthyV dpi = true ->
           isValid (validateDPISettings dpi (basePath ++ ".dpi")) = true)).
  { destruct (dev_dpi device) as [dpi|].
    - destruct (truthyV dpi) eqn:Ht.
      + rewrite <- (valid_no_error _ (validateDPISettings_consistent _ _)). split.
        * intros H d [= <-] _. exact H.
        * intros H. exact (H dpi eq_refl Ht).
      + split; [|reflexivity]. intros _ d [= <-] H. congruence.
    - split; [|reflexivity]. intros _ d H. discriminate H. }
  assert (Hbuttons :
    fst (match dev_buttons device with
         | Some buttons =>
             collect (fun button index =>
                        validateButtonMapping button
                          (indexed (basePath ++ ".buttons") index))
                     0 buttons
         | None => ([], [])
         end) = []
    <-> (forall buttons index button,
           dev_buttons device = Some buttons -> nth_error buttons index = Some button ->
           isValid (validateButtonMapping button (indexed (basePath ++ ".buttons") index))
           = true)).
  { destruct (dev_buttons device) as [buttons|].
    - rewrite collect_errors_nil. split.
      + intros H bs i b [= <-] Hb.
        apply (valid_no_error _ (validateButtonMapping_consistent _ _)).
        exact (H i b Hb).
      + intros H i b Hb.
        apply (valid_no_error _ (validateButtonMapping_consistent _ _)).
        exact (H buttons i b eq_refl Hb).
    - split; [|reflexivity]. intros _ bs i b H. discriminate H. }
  assert (Hgestures :
    fst (match dev_gestures device with
         | Some gestures =>
             collect (fun gesture index =>
                        validateGestureMapping gesture
                          (indexed (basePath ++ ".gestures") index))
                     0 gestures
         | None => ([], [])
         end) = []
    <-> (forall gestures index gesture,
           dev_gestures device = Some gestures -> nth_error gestures index = Some gesture ->
           isValid (validateGestureMapping gesture
                      (indexed (basePath ++ ".gestures") index)) = true)).
  { destruct (dev_gestures device) as [gestures|].
    - rewrite collect_errors_nil. split.
      + intros H gs i g [= <-] Hg.
        apply (valid_no_error _ (validateGestureMapping_consistent _ _)).
        exact (H i g Hg).
      + intros H i g Hg.
        apply (valid_no_error _ (validateGestureMapping_consistent _ _)).
        exact (H gestures i g eq_refl Hg).
    - split; [|reflexivity]. intros _ gs i g H. discriminate H. }
  assert (Hscroll :
    errors (match dev_scrollWheel device with
            | Some scrollWheel =>
                validateScrollWheelSettings scrollWheel (basePath ++ ".scrollWheel")
            | None => validationResult [] []
            end) = []
    <-> (forall scrollWheel,
           dev_scrollWheel device = Some scrollWheel ->
           isValid (validateScrollWheelSettings scrollWheel (basePath ++ ".scrollWheel"))
           = true)).
  { destruct (dev_scrollWheel device) as [scrollWheel|].
    - rewrite <- (valid_no_error _ (validateScrollWheelSettings_consistent _ _)). split.
      + intros H s [= <-]. exact H.
      + intros H. exact (H scrollWheel eq_refl).
    - split; [|reflexivity]. intros _ s H. discriminate H. }
  rewrite Hdpi, Hbuttons, Hgestures, Hscroll. tauto.
Qed.

(** ** Duplicate identifiers, both ways *)

Lemma indexOf_app_first prefix id rest :
  ~ In id prefix -> indexOf id (prefix +++ id :: rest) = Some (length prefix).
Proof.
  induction prefix as [|x prefix IH]; intros Hnot; cbn [app indexOf length].
  - rewrite String.eqb_refl. reflexivity.
  - destruct (String.eqb x id) eqn:E.
    + apply String.eqb_eq in E. exfalso. apply Hnot. left. exact E.
    + rewrite IH; [reflexivity|]. intros H. apply Hnot. right. exact H.
Qed.

Lemma duplicatesFrom_NoDup suffix :
  forall prefix,
    NoDup (prefix +++ suffix) ->
    duplicatesFrom (prefix +++ suffix) (length prefix) suffix = [].
Proof.
  induction suffix as [|id rest IH]; intros prefix Hnodup; [reflexivity|].
  cbn [duplicatesFrom].
  assert (Hnot : ~ In id prefix).
  { intros H. apply NoDup_remove_2 in Hnodup. apply Hnodup.
    rewrite in_app_iff. left. exact H. }
  rewrite (indexOf_app_first _ _ _ Hnot), Nat.eqb_refl.
  specialize (IH (prefix +++ [id])).
  rewrite <- app_assoc, length_app in IH. cbn [app length] in IH.
  rewrite Nat.add_1_r in IH. apply IH. exact Hnodup.
Qed.

Lemma duplicatesFrom_nil_iff ids : duplicatesFrom ids 0 ids = [] <-> NoDup ids.
Proof.
  split.
  - intros Hnil. apply NoDup_nth_error. intros i j Hi Hij.
    destruct (nth_error ids i) as [id|] eqn:Hidi;
      [|apply nth_error_None in Hidi; lia].
    symmetry in Hij.
    destruct (Nat.lt_total i j) as [Hlt | [Heq | Hgt]]; [|exact Heq|]; exfalso.
    + pose proof (duplicates_found ids i j id Hlt Hidi Hij) as Hin.
      rewrite Hnil in Hin. destruct Hin.
    + pose proof (duplicates_found ids j i id Hgt Hij Hidi) as Hin.
      rewrite Hnil in Hin. destruct Hin.
  - intros Hnodup. exact (duplicatesFrom_NoDup ids [] Hnodup).
Qed.

(** What [validateConfiguration] accepts. *)
Lemma validateConfiguration_valid config :
  isValid (validateConfiguration config) = true
  <-> cfg_metadata config <> None
      /\ exists devices,
          cfg_devices config = Some devices
          /\ (forall index device,
                nth_error devices index = Some device ->
                isValid (validateDevice device (indexed "devices" index)) = true)
          /\ NoDup (map deviceId devices).
Proof.
  unfold validateConfiguration.
  destruct (cfg_devices config) as [[|device devices]|].
  - rewrite validationResult_valid. split.
    + intros H. split; [destruct (cfg_metadata config); [discriminate | discriminate H]|].
      exists []. split; [reflexivity|]. split; [|constructor].
      intros [|i] d H'; discriminate H'.
    + intros [Hm _]. destruct (cfg_metadata config); [reflexivity | congruence].
  - set (all := device :: devices).
    destruct (collect (fun device index => validateDevice device (indexed "devices" index))
                      0 all) as [es ws] eqn:E.
    rewrite validationResult_valid, !app_nil_iff.
    pose proof (collect_errors_nil
                  (fun device index => validateDevice device (indexed "devices" index))
                  all 0) as Hcollect.
    rewrite E in Hcollect. cbn [fst] in Hcollect.
    pose proof (duplicatesFrom_nil_iff (map deviceId all)) as Hdup.
    split.
    + intros (Hm & Hes & Hd). split; [destruct (cfg_metadata config); [discriminate | discriminate Hm]|].
      exists all. split; [reflexivity|]. split.
      * intros i d Hi.
        apply (valid_no_error _ (validateDevice_consistent _ _)).
        exact (proj1 Hcollect Hes i d Hi).
      * apply Hdup. destruct (duplicatesFrom (map deviceId all) 0 (map deviceId all));
          [reflexivity | discriminate Hd].
    + intros (Hm & ds & [= <-] & Hall & Hnodup). split; [|split].
      * destruct (cfg_metadata config); [reflexivity | congruence].
      * apply Hcollect. intros i d Hi.
        apply (valid_no_error _ (validateDevice_consistent _ _)).
        exact (Hall i d Hi).
      * rewrite (proj2 Hdup Hnodup). reflexivity.
  - rewrite validationResult_valid, app_nil_iff. split.
    + intros [_ H]. discriminate H.
    + intros (_ & ds & H & _). discriminate H.
Qed.

(** ** Finding a device by its identifiers *)

Lemma find_by_ids devices :
  forall device vid pid,
    NoDup (map deviceId devices) ->
    In device devices ->
    dev_vid device = Some vid -> dev_pid device = Some pid ->
    find (hasIds vid pid) devices = Some device.
Proof.
  induction devices as [|first devices IH]; intros device vid pid Hnodup Hin Hvid Hpid;
    [destruct Hin|].
  cbn [map] in Hnodup. apply NoDup_cons_iff in Hnodup. destruct Hnodup as [Hfirst Hnodup].
  cbn [find]. destruct (hasIds vid pid first) eqn:Hids.
  - destruct Hin as [-> | Hin]; [reflexivity|]. exfalso. apply Hfirst.
    unfold hasIds in Hids.
    destruct (dev_vid first) as [v|] eqn:Hv; [|discriminate Hids].
    destruct (dev_pid first) as [p|] eqn:Hp; [|discriminate Hids].
    apply andb_true_iff in Hids. destruct Hids as [Ev Ep].
    apply String.eqb_eq in Ev, Ep. subst v p.
    replace (deviceId first) with (deviceId device)
      by (unfold deviceId; rewrite Hvid, Hpid, Hv, Hp; reflexivity).
    apply in_map. exact Hin.
  - destruct Hin as [-> | Hin].
    + unfold hasIds in Hids. rewrite Hvid, Hpid, !String.eqb_refl in Hids.
      discriminate Hids.
    + apply (IH device vid pid); assumption.
Qed.

Lemma find_hasIds vid pid devices device :
  find (hasIds vid pid) devices = Some device ->
  In device devices /\ dev_vid device = Some vid /\ dev_pid device = Some pid.
Proof.
  intros H. apply find_some in H. destruct H as [Hin Hids]. split; [exact Hin|].
  unfold hasIds in Hids.
  destruct (dev_vid device) as [v|]; [|discriminate Hids].
  destruct (dev_pid device) as [p|]; [|discriminate Hids].
  apply andb_true_iff in Hids. destruct Hids as [Ev Ep].
  apply String.eqb_eq in Ev, Ep. subst v p. split; reflexivity.
Qed.

(** ** The counters of the summary *)


(** ** Identifiers that match the pattern *)

Lemma hexPattern_inv n s :
  hexPattern n s = true ->
  exists digits,
    s = "0x" ++ digits /\ String.length digits = n /\ allChars isHexDigit digits = true.
Proof.
  unfold hexPattern. destruct s as [|a [|b digits]]; try discriminate.
  - ascii_cases a; discriminate.
  - ascii_cases a; try discriminate. ascii_cases b; try discriminate.
    intros H. apply andb_true_iff in H. destruct H as [Hlen Hhex].
    apply Nat.eqb_eq in Hlen. exists digits. split; [reflexivity|]. split; assumption.
Qed.

Lemma toLowerCase_length s : String.length (toLowerCase s) = String.length s.
Proof. induction s; simpl; [reflexivity|]. rewrite IHs. reflexivity. Qed.

Lemma hexPattern_toLowerCase n s : hexPattern n s = true -> hexPattern n (toLowerCase s) = true.
Proof.
  intros H. destruct (hexPattern_inv _ _ H) as (digits & -> & Hlen & Hhex).
  change (toLowerCase ("0x" ++ digits)) with ("0x" ++ toLowerCase digits).
  unfold hexPattern. cbn [append]. rewrite toLowerCase_length, Hlen, Nat.eqb_refl.
  apply allChars_impl with (p := isLowerHexDigit); [apply lowerHex_is_hex|].
  apply toLowerCase_hex. exact Hhex.
Qed.

Lemma plainDevice_acceptable name vid pid basePath :
  acceptable (plainDevice name vid pid) basePath
  <-> trim name <> EmptyString
      /\ DEVICE_ID_PATTERN vid = true /\ DEVICE_ID_PATTERN pid = true.
Proof.
  unfold acceptable, plainDevice. cbn. split.
  - intros (Hname & (v & [= <-] & Hv) & (p & [= <-] & Hp) & _).
    split; [exact Hname|]. split; assumption.
  - intros (Hname & Hv & Hp). split; [exact Hname|].
    split; [exists vid; split; [reflexivity | exact Hv]|].
    split; [exists pid; split; [reflexivity | exact Hp]|].
    repeat split; intros; discriminate.
Qed.

(** ** Where the diagnostics are *)

Lemma eqb_append b s t : String.eqb (b ++ s) (b ++ t) = String.eqb s t.
Proof. induction b; simpl; [reflexivity|]. rewrite Ascii.eqb_refl. exact IHb. Qed.

Lemma startsWith_append b s t : startsWith (b ++ s) (b ++ t) = startsWith s t.
Proof. induction b; simpl; [reflexivity|]. rewrite Ascii.eqb_refl. exact IHb. Qed.

Lemma atField_append b s t e :
  err_path e = b ++ s ->
  atField (b ++ t) e = String.eqb s t || startsWith s (t ++ ".").
Proof.
  intros H. unfold atField. rewrite H, eqb_append, append_assoc, startsWith_append.
  reflexivity.
Qed.

Lemma filter_all {A : Type} (f : A -> bool) xs :
  Forall (fun x => f x = true) xs -> filter f xs = xs.
Proof. induction 1 as [|x xs Hx _ IH]; cbn [filter]; [reflexivity|]. rewrite Hx, IH. reflexivity. Qed.

Lemma filter_none {A : Type} (f : A -> bool) xs :
  Forall (fun x => f x = false) xs -> filter f xs = [].
Proof. induction 1 as [|x xs Hx _ IH]; cbn [filter]; [reflexivity|]. rewrite Hx, IH. reflexivity. Qed.

Lemma pathsBelow_app b es fs : pathsBelow b es -> pathsBelow b fs -> pathsBelow b (es +++ fs).
Proof. intros H1 H2. apply Forall_app. split; assumption. Qed.

Lemma pathsBelow_one b e rest : err_path e = b ++ "." ++ rest -> pathsBelow b [e].
Proof. intros H. constructor; [exists rest; exact H | constructor]. Qed.

Lemma pathsBelow_sub b k es : pathsBelow (b ++ "." ++ k) es -> pathsBelow b es.
Proof.
  apply Forall_impl. intros e [rest H]. exists (k ++ "." ++ rest).
  rewrite H, !append_assoc. reflexivity.
Qed.

Lemma pathsBelow_indexed b k index es :
  pathsBelow (indexed (b ++ "." ++ k) index) es -> pathsBelow b es.
Proof.
  apply Forall_impl. intros e [rest H].
  exists (k ++ "[" ++ string_of_nat index ++ "]" ++ "." ++ rest).
  rewrite H. unfold indexed. rewrite !append_assoc. reflexivity.
Qed.

Lemma collect_Forall {A : Type} (P : ValidationError -> Prop)
      (validate : A -> nat -> ValidationResult) xs :
  (forall x index, Forall P (errors (validate x index))
                   /\ Forall P (warnings (validate x index))) ->
  forall index,
    Forall P (fst (collect validate index xs))
    /\ Forall P (snd (collect validate index xs)).
Proof.
  intros H. induction xs as [|x xs IH]; intros index; cbn [collect].
  - split; constructor.
  - specialize (IH (S index)). destruct (collect validate (S index) xs) as [es ws].
    cbn [fst snd] in *. destruct (H x index) as [He Hw]. destruct IH as [IHe IHw].
    split; apply Forall_app; split; assumption.
Qed.

Ltac below :=
  repeat match goal with
         | |- context [if ?b then _ else _] => destruct b
         end;
  cbn [errors warnings validationResult];
  repeat first
    [ apply Forall_nil
    | apply pathsBelow_app
    | eapply pathsBelow_one; reflexivity ].

Lemma validateDPISensor_below sensor b :
  pathsBelow b (errors (validateDPISensor sensor b))
  /\ pathsBelow b (warnings (validateDPISensor sensor b)).
Proof.
  unfold validateDPISensor.
  destruct (get sensor "dpi") as [[| dpi | | |]|]; split; below.
Qed.

Lemma validateDPISettings_below dpi b :
  pathsBelow b (errors (validateDPISettings dpi b))
  /\ pathsBelow b (warnings (validateDPISettings dpi b)).
Proof.
  unfold validateDPISettings.
  destruct (get dpi "sensors") as [[| | | |[|sensor sensors]]|];
    try solve [split; below].
  pose proof (collect_Forall (fun e => exists rest, err_path e = b ++ "." ++ rest)
                (fun sensor index =>
                   validateDPISensor sensor (indexed (b ++ ".sensors") index))
                (sensor :: sensors)) as Hc.
  destruct (Hc (fun x index =>
                  conj (pathsBelow_indexed b "sensors" index _
                          (proj1 (validateDPISensor_below x _)))
                       (pathsBelow_indexed b "sensors" index _
                          (proj2 (validateDPISensor_below x _)))) 0) as [He Hw].
  destruct (collect _ 0 (sensor :: sensors)) as [es ws]. cbn [fst snd] in He, Hw.
  split; below; assumption.
Qed.

Lemma validateButtonAction_below action b :
  pathsBelow b (errors (validateButtonAction action b))
  /\ pathsBelow b (warnings (validateButtonAction action b)).
Proof.
  unfold validateButtonAction. split; [|constructor].
  cbn [errors validationResult].
  apply pathsBelow_app; [below|]. apply pathsBelow_app.
  - destruct (act_parameters action) as [[[keys|] ? ? ? ? ?]|]; below.
  - destruct (act_parameters action) as [[? [sensor|] ? ? ? ?]|]; below.
Qed.

Lemma validateButtonMapping_below button b :
  pathsBelow b (errors (validateButtonMapping button b))
  /\ pathsBelow b (warnings (validateButtonMapping button b)).
Proof.
  unfold validateButtonMapping. cbn [errors warnings validationResult].
  destruct (validateButtonAction_below (btn_action button) (b ++ ".action")) as [He Hw].
  split.
  - apply pathsBelow_app; [below|]. exact (pathsBelow_sub b "action" _ He).
  - exact (pathsBelow_sub b "action" _ Hw).
Qed.

Lemma validateGestureMapping_below gesture b :
  pathsBelow b (errors (validateGestureMapping gesture b))
  /\ pathsBelow b (warnings (validateGestureMapping gesture b)).
Proof.
  unfold validateGestureMapping. cbn [errors warnings validationResult].
  destruct (validateButtonAction_below (ges_action gesture) (b ++ ".action")) as [He Hw].
  split.
  - apply pathsBelow_app; [below|]. apply pathsBelow_app; [below|].
    apply pathsBelow_app; [destruct (ges_threshold gesture); below|].
    apply pathsBelow_app; [destruct (ges_interval gesture); below|].
    exact (pathsBelow_sub b "action" _ He).
  - exact (pathsBelow_sub b "action" _ Hw).
Qed.

Lemma validateScrollWheelSettings_below scrollWheel b :
  pathsBelow b (errors (validateScrollWheelSettings scrollWheel b))
  /\ pathsBelow b (warnings (validateScrollWheelSettings scrollWheel b)).
Proof.
  unfold validateScrollWheelSettings. cbn [errors warnings validationResult].
  assert (H : forall name action,
             pathsBelow b (errors (match action with
                                   | Some action =>
                                       validateButtonAction action (b ++ "." ++ name)
                                   | None => validationResult [] []
                                   end))
             /\ pathsBelow b (warnings (match action with
                                        | Some action =>
                                            validateButtonAction action (b ++ "." ++ name)
                                        | None => validationResult [] []
                                        end))).
  { intros name [action|]; [|split; constructor].
    destruct (validateButtonAction_below action (b ++ "." ++ name)) as [He Hw].
    split; [exact (pathsBelow_sub b name _ He) | exact (pathsBelow_sub b name _ Hw)]. }
  split; repeat apply pathsBelow_app; apply H.
Qed.

Lemma below_atField b e :
  (exists rest, err_path e = b ++ "." ++ rest) -> atField b e = true.
Proof.
  intros [rest H]. unfold atField. rewrite H.
  rewrite (startsWith_append b ("." ++ rest) "."). apply orb_true_r.
Qed.

Lemma pathsBelow_filter b es : pathsBelow b es -> filter (atField b) es = es.
Proof.
  intros H. apply filter_all. revert H. apply Forall_impl. intros e. apply below_atField.
Qed.

(** Diagnostics whose paths continue [b] with [K] are not at the field
    [b ++ t] when no text that starts with [K] is [t] or continues [t] with
    a dot. *)
Lemma filter_other_field b K t es :
  (forall rest,
      String.eqb (K ++ rest) t || startsWith (K ++ rest) (t ++ ".") = false) ->
  Forall (fun e => exists rest, err_path e = b ++ K ++ rest) es ->
  filter (atField (b ++ t)) es = [].
Proof.
  intros HK H. apply filter_none. revert H. apply Forall_impl. intros e [rest He].
  rewrite (atField_append b (K ++ rest) t e He). apply HK.
Qed.

Lemma pathsBelow_section b k es :
  pathsBelow (b ++ "." ++ k) es ->
  Forall (fun e => exists rest, err_path e = b ++ ("." ++ k ++ ".") ++ rest) es.
Proof.
  apply Forall_impl. intros e [rest H]. exists rest.
  rewrite H, !append_assoc. reflexivity.
Qed.

Lemma pathsBelow_item b k index es :
  pathsBelow (indexed (b ++ "." ++ k) index) es ->
  Forall (fun e => exists rest, err_path e = b ++ ("." ++ k ++ "[") ++ rest) es.
Proof.
  apply Forall_impl. intros e [rest H].
  exists (string_of_nat index ++ "]" ++ "." ++ rest).
  rewrite H. unfold indexed. rewrite !append_assoc. reflexivity.
Qed.

(** The warnings of [validateDevice], section by section. *)
Lemma validateDevice_warnings device basePath :
  warnings (validateDevice device basePath)
  = match truthyString (dev_vid device), truthyString (dev_pid device) with
    | Some vid, Some pid =>
        if knownDevice vid pid then []
        else [ warning basePath
                 ("Device " ++ vid ++ ":" ++ pid ++ " is not in the known devices list")
                 None ]
    | _, _ => []
    end
    +++ warnings (match dev_dpi device with
                 | Some dpi =>
                     if truthyV dpi then validateDPISettings dpi (basePath ++ ".dpi")
                     else validationResult [] []
                 | None => validationResult [] []
                 end)
    +++ snd (match dev_buttons device with
            | Some buttons =>
                collect (fun button index =>
                           validateButtonMapping button
                             (indexed (basePath ++ ".buttons") index))
                        0 buttons
            | None => ([], [])
            end)
    +++ snd (match dev_gestures device with
            | Some gestures =>
                collect (fun gesture index =>
                           validateGestureMapping gesture
                             (indexed (basePath ++ ".gestures") index))
                        0 gestures
            | None => ([], [])
            end)
    +++ warnings (match dev_scrollWheel device with
                 | Some scrollWheel =>
                     validateScrollWheelSettings scrollWheel (basePath ++ ".scrollWheel")
                 | None => validationResult [] []
                 end).
Proof.
  unfold validateDevice.
  repeat match goal with
         | |- context [let '(_, _) := ?p in _] => destruct p
         end.
  reflexivity.
Qed.

(** The diagnostics of the sections of a device, each with the start of its
    paths. *)
Lemma device_sections device b :
  let dpi := match dev_dpi device with
             | Some dpi =>
                 if truthyV dpi then validateDPISettings dpi (b ++ ".dpi")
                 else validationResult [] []
             | None => validationResult [] []
             end in
  let buttons := match dev_buttons device with
                 | Some buttons =>
                     collect (fun button index =>
                                validateButtonMapping button
                                  (indexed (b ++ ".buttons") index))
                             0 buttons
                 | None => ([], [])
                 end in
  let gestures := match dev_gestures device with
                  | Some gestures =>
                      collect (fun gesture index =>
                                 validateGestureMapping gesture
                                   (indexed (b ++ ".gestures") index))
                              0 gestures
                  | None => ([], [])
                  end in
  let scroll := match dev_scrollWheel device with
                | Some scrollWheel =>
                    validateScrollWheelSettings scrollWheel (b ++ ".scrollWheel")
                | None => validationResult [] []
                end in
  (pathsBelow (b ++ ".dpi") (errors dpi) /\ pathsBelow (b ++ ".dpi") (warnings dpi))
  /\ (Forall (fun e => exists rest, err_path e = b ++ ".buttons[" ++ rest) (fst buttons)
      /\ Forall (fun e => exists rest, err_path e = b ++ ".buttons[" ++ rest) (snd buttons))
  /\ (Forall (fun e => exists rest, err_path e = b ++ ".gestures[" ++ rest) (fst gestures)
      /\ Forall (fun e => exists rest, err_path e = b ++ ".gestures[" ++ rest)
                (snd gestures))
  /\ (pathsBelow (b ++ ".scrollWheel") (errors scroll)
      /\ pathsBelow (b ++ ".scrollWheel") (warnings scroll)).
Proof.
  cbv zeta. split; [|split; [|split]].
  - destruct (dev_dpi device) as [dpi|]; [|split; constructor].
    destruct (truthyV dpi); [|split; constructor]. apply validateDPISettings_below.
  - destruct (dev_buttons device) as [buttons|]; [|split; constructor].
    apply collect_Forall. intros button index.
    destruct (validateButtonMapping_below button (indexed (b ++ ".buttons") index))
      as [He Hw].
    split; [exact (pathsBelow_item b "buttons" index _ He)
           | exact (pathsBelow_item b "buttons" index _ Hw)].
  - destruct (dev_gestures device) as [gestures|]; [|split; constructor].
    apply collect_Forall. intros gesture index.
    destruct (validateGestureMapping_below gesture (indexed (b ++ ".gestures") index))
      as [He Hw].
    split; [exact (pathsBelow_item b "gestures" index _ He)
           | exact (pathsBelow_item b "gestures" index _ Hw)].
  - destruct (dev_scrollWheel device) as [scrollWheel|]; [|split; constructor].
    apply validateScrollWheelSettings_below.
Qed.

Lemma filter_exact_field b s t es :
  String.eqb s t || startsWith s (t ++ ".") = false ->
  Forall (fun e => err_path e = b ++ s) es ->
  filter (atField (b ++ t)) es = [].
Proof.
  intros Hs H. apply filter_none. revert H. apply Forall_impl. intros e He.
  rewrite (atField_append b s t e He). exact Hs.
Qed.

Lemma nameErrors_path (test : bool) b :
  Forall (fun e => err_path e = b ++ ".name")
         (if test
          then [ error (b ++ ".name") "Device name is required" (Some "name") ]
          else []).
Proof. destruct test; repeat constructor. Qed.

Lemma idErrors_path b field required malformed id :
  Forall (fun e => err_path e = b ++ "." ++ field)
         (idErrors b field required malformed id).
Proof.
  unfold idErrors. destruct (truthyString id) as [v|]; [|repeat constructor].
  destruct (negb (DEVICE_ID_PATTERN v)); repeat constructor.
Qed.

Lemma knownWarnings_path b (vid pid : option string) :
  Forall (fun e => err_path e = b ++ EmptyString)
         match vid, pid with
         | Some vid, Some pid =>
             if knownDevice vid pid then []
             else [ warning b
                      ("Device " ++ vid ++ ":" ++ pid ++ " is not in the known devices list")
                      None ]
         | _, _ => []
         end.
Proof.
  destruct vid as [vid|], pid as [pid|]; try constructor.
  destruct (knownDevice vid pid); repeat constructor. cbn. rewrite append_nil_r. reflexivity.
Qed.

Lemma exact_atField b s es :
  Forall (fun e => err_path e = b ++ s) es ->
  s = EmptyString \/ startsWith s "." = true ->
  Forall (fun e => atField b e = true) es.
Proof.
  intros H Hs. revert H. apply Forall_impl. intros e He. unfold atField. rewrite He.
  destruct Hs as [-> | Hs].
  - rewrite append_nil_r, String.eqb_refl. reflexivity.
  - rewrite (startsWith_append b s "."), Hs. apply orb_true_r.
Qed.

Lemma item_atField b K es :
  startsWith K "." = true ->
  Forall (fun e => exists rest, err_path e = b ++ K ++ rest) es ->
  Forall (fun e => atField b e = true) es.
Proof.
  intros HK. apply Forall_impl. intros e [rest He]. unfold atField. rewrite He.
  rewrite (startsWith_append b (K ++ rest) ".").
  destruct K as [|c K]; [discriminate HK|]. cbn in HK |- *.
  rewrite andb_true_r in HK. rewrite HK. apply orb_true_r.
Qed.

Lemma below_all b es : pathsBelow b es -> Forall (fun e => atField b e = true) es.
Proof. apply Forall_impl. intros e. apply below_atField. Qed.

Lemma validateDevice_isValid device b :
  isValid (validateDevice device b)
  = (length (errors (validateDevice device b)) =? 0).
Proof.
  unfold validateDevice.
  repeat match goal with
         | |- context [let '(_, _) := ?p in _] => destruct p
         end.
  reflexivity.
Qed.

Lemma positive_length {A : Type} (xs : list A) : (0 <? length xs) = negb (length xs =? 0).
Proof. destruct xs; reflexivity. Qed.

(** ** The positions of the tokens *)

Lemma dropChars_app consumed rest :
  dropChars (String.length consumed) (consumed ++ rest) = rest.
Proof. induction consumed; simpl; [destruct rest; reflexivity | exact IHconsumed]. Qed.

Lemma dropChars_add n : forall m s, dropChars (n + m) s = dropChars m (dropChars n s).
Proof.
  induction n as [|n IH]; intros m s; [reflexivity|]. destruct s as [|c s]; cbn [Nat.add dropChars].
  - destruct m; reflexivity.
  - apply IH.
Qed.

Lemma scanString_consumed_bounded n :
  forall rest column value column' remaining,
    String.length rest <= n ->
    scanString rest column = (value, column', remaining) ->
    exists consumed,
      rest = consumed ++ remaining /\ column' = column + String.length consumed.
Proof.
  induction n as [|n IH]; intros rest column value column' remaining Hlen;
    destruct rest as [|c rest']; cbn [scanString]; cbn [String.length] in Hlen;
    try lia;
    try (intros [= _ <- <-]; exists EmptyString; split; [reflexivity | cbn; lia]).
  destruct (Ascii.eqb c dquote).
  { intros [= _ <- <-]. exists EmptyString. split; [reflexivity | cbn; lia]. }
  destruct (Ascii.eqb c backslash).
  - destruct rest' as [|escaped rest''].
    + intros [= _ <- <-]. exists (String c EmptyString). split; [reflexivity | cbn; lia].
    + destruct (scanString rest'' (column + 2)) as [[v c2] r] eqn:E.
      intros [= _ <- <-]. cbn [String.length] in Hlen.
      destruct (IH rest'' _ _ _ _ ltac:(lia) E) as (consumed & -> & ->).
      exists (String c (String escaped consumed)). split; [reflexivity | cbn; lia].
  - destruct (scanString rest' (column + 1)) as [[v c2] r] eqn:E.
    intros [= _ <- <-].
    destruct (IH rest' _ _ _ _ ltac:(lia) E) as (consumed & -> & ->).
    exists (String c consumed). split; [reflexivity | cbn; lia].
Qed.

Lemma scanString_consumed rest column value column' remaining :
  scanString rest column = (value, column', remaining) ->
  exists consumed,
    rest = consumed ++ remaining /\ column' = column + String.length consumed.
Proof. apply (scanString_consumed_bounded (String.length rest)). lia. Qed.

Lemma scanWhile_consumed test rest :
  forall column value column' remaining,
    scanWhile test rest column = (value, column', remaining) ->
    rest = value ++ remaining /\ column' = column + String.length value.
Proof.
  induction rest as [|c rest IH]; intros column value column' remaining; cbn [scanWhile].
  - intros [= <- <- <-]. split; [reflexivity | cbn; lia].
  - destruct (test c).
    + destruct (scanWhile test rest (column + 1)) as [[v c2] r] eqn:E.
      intros [= <- <- <-]. destruct (IH _ _ _ _ E) as [-> ->].
      split; [reflexivity | cbn; lia].
    + intros [= <- <- <-]. split; [reflexivity | cbn; lia].
Qed.

Lemma length_append a b : String.length (a ++ b) = String.length a + String.length b.
Proof. induction a; simpl; [reflexivity|]. rewrite IHa. reflexivity. Qed.

Lemma startsWith_prefix value rest : startsWith (value ++ rest) value = true.
Proof. induction value; simpl; [reflexivity|]. rewrite Ascii.eqb_refl. exact IHvalue. Qed.

(** What one pass of the loop consumes, and where the token it pushes is. *)
Lemma lineStep_consumed lineNum column char rest' pushed column' remaining :
  lineStep lineNum column char rest' = Continue pushed column' remaining ->
  exists consumed,
    String char rest' = consumed ++ remaining
    /\ consumed <> EmptyString
    /\ column' = column + String.length consumed
    /\ (forall token,
          pushed = Some token ->
          tok_line token = lineNum + 1
          /\ tok_column token = column + 1
          /\ startsWith (String char rest') (tokenText token) = true).
Proof.
  unfold lineStep.
  assert (Hone : forall pushed',
             (forall token, pushed' = Some token ->
                tok_line token = lineNum + 1 /\ tok_column token = column + 1
                /\ startsWith (String char rest') (tokenText token) = true) ->
             Continue pushed' (column + 1) rest' = Continue pushed column' remaining ->
             exists consumed,
               String char rest' = consumed ++ remaining
               /\ consumed <> EmptyString
               /\ column' = column + String.length consumed
               /\ (forall token,
                     pushed = Some token ->
                     tok_line token = lineNum + 1
                     /\ tok_column token = column + 1
                     /\ startsWith (String char rest') (tokenText token) = true)).
  { intros pushed' Htok [= <- <- <-]. exists (String char EmptyString).
    split; [reflexivity|]. split; [discriminate|]. split; [reflexivity | exact Htok]. }
  destruct (isSpace char); [apply Hone; intros token H; discriminate H|].
  destruct (Ascii.eqb char "/" && nextIs (String char rest') "/"); [discriminate|].
  destruct (Ascii.eqb char "#"); [discriminate|].
  destruct (Ascii.eqb char dquote) eqn:Hquote.
  { apply Ascii.eqb_eq in Hquote. subst char.
    destruct (scanString rest' (column + 1)) as [[value c1] r] eqn:E.
    destruct (scanString_consumed _ _ _ _ _ E) as (body & Hbody & Hc1).
    assert (Htok : forall token,
               Some (mkToken TString value (lineNum + 1) (column + 1)) = Some token ->
               tok_line token = lineNum + 1 /\ tok_column token = column + 1
               /\ startsWith (String dquote rest') (tokenText token) = true).
    { intros token [= <-]. repeat split. }
    destruct r as [|closing afterQuote]; intros [= <- <- <-].
    - exists (String dquote body).
      split; [rewrite Hbody at 1; reflexivity|]. split; [discriminate|].
      split; [cbn; lia | exact Htok].
    - exists (String dquote (body ++ String closing EmptyString)).
      split; [rewrite Hbody at 1; cbn; rewrite append_assoc; reflexivity|].
      split; [discriminate|]. split; [|exact Htok].
      cbn. rewrite length_append. cbn. lia. }
  destruct (isDigit char) eqn:Hdigit.
  { assert (Hnum : forall value c1 r,
               String char rest' = value ++ r -> value <> EmptyString ->
               c1 = column + String.length value ->
               Continue (Some (mkToken TNumber value (lineNum + 1) (column + 1))) c1 r
               = Continue pushed column' remaining ->
               exists consumed,
                 String char rest' = consumed ++ remaining
                 /\ consumed <> EmptyString
                 /\ column' = column + String.length consumed
                 /\ (forall token,
                       pushed = Some token ->
                       tok_line token = lineNum + 1
                       /\ tok_column token = column + 1
                       /\ startsWith (String char rest') (tokenText token) = true)).
    { intros value c1 r Hrest Hne Hc1 [= <- <- <-]. exists value.
      split; [exact Hrest|]. split; [exact Hne|]. split; [exact Hc1|].
      intros token [= <-]. split; [reflexivity|]. split; [reflexivity|].
      cbn [tokenText tok_type tok_value]. rewrite Hrest. apply startsWith_prefix. }
    destruct (Ascii.eqb char "0" && nextIs (String char rest') "x").
    - destruct rest' as [|x rest''].
      + apply Hnum; [reflexivity | discriminate | reflexivity].
      + destruct (scanWhile isHexDigit rest'' (column + 2)) as [[digits c1] r] eqn:E.
        destruct (scanWhile_consumed _ _ _ _ _ _ E) as [-> ->].
        apply Hnum; [reflexivity | discriminate | cbn; lia].
    - destruct (scanWhile isDecimalChar (String char rest') column) as [[value c1] r] eqn:E.
      destruct (scanWhile_consumed _ _ _ _ _ _ E) as [Hrest Hc1].
      apply Hnum; [exact Hrest | | exact Hc1].
      cbn [scanWhile] in E. rewrite (isDigit_isDecimalChar _ Hdigit) in E.
      destruct (scanWhile isDecimalChar rest' (column + 1)) as [[v c2] r2].
      injection E as <- _ _. discriminate. }
  destruct (isIdentStart char) eqn:Hident.
  { destruct (scanWhile isIdentChar (String char rest') column) as [[value c1] r] eqn:E.
    destruct (scanWhile_consumed _ _ _ _ _ _ E) as [Hrest Hc1].
    intros [= <- <- <-]. exists value. split; [exact Hrest|]. split.
    - cbn [scanWhile] in E. rewrite (isIdentStart_isIdentChar _ Hident) in E.
      destruct (scanWhile isIdentChar rest' (column + 1)) as [[v c2] r2].
      injection E as <- _ _. discriminate.
    - split; [exact Hc1|]. intros token [= <-].
      split; [reflexivity|]. split; [reflexivity|].
      assert (Htext : forall type,
                 type = TBoolean \/ type = TIdentifier ->
                 tokenText (mkToken type value (lineNum + 1) (column + 1)) = value).
      { intros type [-> | ->]; reflexivity. }
      rewrite Htext; [rewrite Hrest; apply startsWith_prefix|].
      destruct (String.eqb value "true" || String.eqb value "false"); auto. }
  destruct (isPunctuation char).
  { apply Hone. intros token [= <-]. split; [reflexivity|]. split; [reflexivity|].
    assert (Htext : forall type,
               type = TOperator \/ type = TDelimiter ->
               tokenText (mkToken type (String char EmptyString) (lineNum + 1) (column + 1))
               = String char EmptyString).
    { intros type [-> | ->]; reflexivity. }
    rewrite Htext; [cbn; rewrite Ascii.eqb_refl; reflexivity|].
    destruct (Ascii.eqb char "=" || Ascii.eqb char ":"); auto. }
  apply Hone. intros token H. discriminate H.
Qed.

Lemma tokenizeLine_positions fuel :
  forall lineNum column rest tokens token,
    tokenizeLine fuel lineNum column rest = Some tokens ->
    In token tokens ->
    tok_line token = lineNum + 1
    /\ exists k,
        tok_column token = column + k + 1
        /\ k < String.length rest
        /\ startsWith (dropChars k rest) (tokenText token) = true.
Proof.
  induction fuel as [|fuel IH]; intros lineNum column rest tokens token; [discriminate|].
  cbn [tokenizeLine]. destruct rest as [|char rest'].
  { intros [= <-] []. }
  destruct (lineStep lineNum column char rest') as [|pushed column' remaining] eqn:Hstep.
  { intros [= <-] []. }
  destruct (lineStep_consumed _ _ _ _ _ _ _ Hstep) as (consumed & Hrest & Hne & Hcol & Htok).
  assert (Hlater : forall others,
             tokenizeLine fuel lineNum column' remaining = Some others ->
             In token others ->
             tok_line token = lineNum + 1
             /\ exists k,
                 tok_column token = column + k + 1
                 /\ k < String.length (String char rest')
                 /\ startsWith (dropChars k (String char rest')) (tokenText token) = true).
  { intros others Hothers Hin.
    destruct (IH _ _ _ _ _ Hothers Hin) as (Hline & k & Hk & Hlt & Hstart).
    split; [exact Hline|]. exists (String.length consumed + k).
    rewrite Hrest, length_append, dropChars_add, dropChars_app.
    split; [lia|]. split; [lia | exact Hstart]. }
  destruct pushed as [first|].
  - destruct (tokenizeLine fuel lineNum column' remaining) as [others|] eqn:Hothers;
      [|discriminate].
    cbn [option_map]. intros [= <-] [<- | Hin].
    + destruct (Htok first eq_refl) as (Hline & Hc & Hstart).
      split; [exact Hline|]. exists 0. split; [lia|]. split; [cbn; lia | exact Hstart].
    + exact (Hlater others eq_refl Hin).
  - intros Hothers Hin. exact (Hlater tokens Hothers Hin).
Qed.

Lemma tokenizeLines_positions lines :
  forall lineNum tokens token,
    tokenizeLines lineNum lines = Some tokens ->
    In token tokens ->
    exists index line,
      nth_error lines index = Some line
      /\ tok_line token = lineNum + index + 1
      /\ 1 <= tok_column token <= String.length line
      /\ startsWith (dropChars (tok_column token - 1) line) (tokenText token) = true.
Proof.
  induction lines as [|line lines IH]; intros lineNum tokens token; cbn [tokenizeLines].
  { intros [= <-] []. }
  destruct (tokenizeLine (S (String.length line)) lineNum 0 line) as [toks|] eqn:Hline;
    [|discriminate].
  destruct (tokenizeLines (S lineNum) lines) as [others|] eqn:Hothers; [|discriminate].
  cbn [option_map]. intros [= <-] Hin. apply in_app_iff in Hin. destruct Hin as [Hin | Hin].
  - destruct (tokenizeLine_positions _ _ _ _ _ _ Hline Hin) as (Hl & k & Hk & Hlt & Hstart).
    exists 0, line. split; [reflexivity|]. split; [lia|]. split; [lia|].
    replace (tok_column token - 1) with k by lia. exact Hstart.
  - destruct (IH _ _ _ Hothers Hin) as (index & l & Hnth & Hl & Hc & Hstart).
    exists (S index), l. split; [exact Hnth|]. split; [lia|]. split; [exact Hc | exact Hstart].
Qed.

(** ** The parser does not look at positions *)

Lemma sameKinds_cons token tokens list' :
  sameKinds (token :: tokens) list' ->
  exists token' tokens',
    list' = token' :: tokens'
    /\ tok_type token' = tok_type token /\ tok_value token' = tok_value token
    /\ sameKinds tokens tokens'.
Proof.
  unfold sameKinds. destruct list' as [|token' tokens']; [discriminate|].
  cbn [map]. unfold kind at 1 3. intros H. injection H as Ht Hv Hrest.
  exists token', tokens'. repeat split; auto.
Qed.

Lemma sameKinds_nil list' : sameKinds [] list' -> list' = [].
Proof. unfold sameKinds. destruct list'; [reflexivity | discriminate]. Qed.

Lemma isDelimiter_kind token token' value :
  tok_type token' = tok_type token -> tok_value token' = tok_value token ->
  isDelimiter token' value = isDelimiter token value.
Proof. unfold isDelimiter. intros -> ->. reflexivity. Qed.

Lemma isAssignOperator_kind token token' :
  tok_type token' = tok_type token -> tok_value token' = tok_value token ->
  isAssignOperator token' = isAssignOperator token.
Proof. unfold isAssignOperator. intros -> ->. reflexivity. Qed.

Lemma skipSeparator_kinds separators tokens tokens' :
  sameKinds tokens tokens' ->
  sameKinds (skipSeparator separators tokens) (skipSeparator separators tokens').
Proof.
  intros H. destruct tokens as [|token tokens].
  - rewrite (sameKinds_nil _ H). reflexivity.
  - destruct (sameKinds_cons _ _ _ H) as (token' & rest' & -> & Ht & Hv & Hrest).
    cbn [skipSeparator].
    replace (existsb (isDelimiter token') separators)
      with (existsb (isDelimiter token) separators).
    + destruct (existsb (isDelimiter token) separators); [exact Hrest | exact H].
    + induction separators as [|s separators IH]; [reflexivity|]. cbn [existsb].
      rewrite IH, (isDelimiter_kind token token' s Ht Hv). reflexivity.
Qed.

Lemma parser_kinds fuel :
  (forall tokens tokens' value rest,
      sameKinds tokens tokens' ->
      parseValue fuel tokens = Return (value, rest) ->
      exists rest', parseValue fuel tokens' = Return (value, rest') /\ sameKinds rest rest')
  /\ (forall obj tokens tokens' value rest,
        sameKinds tokens tokens' ->
        parseObject fuel obj tokens = Return (value, rest) ->
        exists rest',
          parseObject fuel obj tokens' = Return (value, rest') /\ sameKinds rest rest')
  /\ (forall arr tokens tokens' value rest,
        sameKinds tokens tokens' ->
        parseArray fuel arr tokens = Return (value, rest) ->
        exists rest',
          parseArray fuel arr tokens' = Return (value, rest') /\ sameKinds rest rest').
Proof.
  induction fuel as [|fuel (IHv & IHo & IHa)].
  - repeat split; intros; discriminate.
  - split; [|split].
    + intros tokens tokens' value rest Hk. destruct tokens as [|token tokens];
        [discriminate|].
      destruct (sameKinds_cons _ _ _ Hk) as (token' & rest' & -> & Ht & Hv & Hrest).
      cbn [parseValue]. rewrite Ht, Hv.
      destruct (tok_type token); try discriminate;
        try (intros [= <- <-]; exists rest'; split; [reflexivity | exact Hrest]).
      destruct (String.eqb (tok_value token) "{"); [apply IHo; exact Hrest|].
      destruct (String.eqb (tok_value token) "("); [apply IHa; exact Hrest|].
      discriminate.
    + intros obj tokens tokens' value rest Hk. destruct tokens as [|token tokens].
      { rewrite (sameKinds_nil _ Hk). cbn [parseObject]. intros [= <- <-].
        exists []. split; reflexivity. }
      destruct (sameKinds_cons _ _ _ Hk) as (token' & rest' & -> & Ht & Hv & Hrest).
      cbn [parseObject]. rewrite (isDelimiter_kind token token' "}" Ht Hv), Ht, Hv.
      destruct (isDelimiter token "}").
      { intros [= <- <-]. exists rest'. split; [reflexivity | exact Hrest]. }
      destruct (tok_type token); try (apply IHo; exact Hrest).
      destruct tokens as [|op tokens].
      { rewrite (sameKinds_nil _ Hrest). discriminate. }
      destruct (sameKinds_cons _ _ _ Hrest) as (op' & rest'' & -> & Hot & Hov & Hrest'').
      rewrite (isAssignOperator_kind op op' Hot Hov).
      destruct (isAssignOperator op); [|discriminate].
      destruct (parseValue fuel tokens) as [[v next]| |] eqn:Hval; cbn [bind];
        try discriminate.
      destruct (IHv _ _ _ _ Hrest'' Hval) as (next' & -> & Hnext). cbn [bind].
      apply IHo. apply skipSeparator_kinds. exact Hnext.
    + intros arr tokens tokens' value rest Hk. destruct tokens as [|token tokens];
        [discriminate|].
      destruct (sameKinds_cons _ _ _ Hk) as (token' & rest' & -> & Ht & Hv & Hrest).
      cbn [parseArray]. rewrite (isDelimiter_kind token token' ")" Ht Hv).
      destruct (isDelimiter token ")").
      { intros [= <- <-]. exists rest'. split; [reflexivity | exact Hrest]. }
      destruct (parseValue fuel (token :: tokens)) as [[v next]| |] eqn:Hval; cbn [bind];
        try discriminate.
      destruct (IHv _ _ _ _ Hk Hval) as (next' & -> & Hnext). cbn [bind].
      apply IHa. apply skipSeparator_kinds. exact Hnext.
Qed.

Lemma sameKinds_tokenOf tokens : sameKinds (map tokenOf (map kind tokens)) tokens.
Proof.
  unfold sameKinds. rewrite !map_map. apply map_ext. intros token. reflexivity.
Qed.

Lemma sameKinds_length tokens tokens' :
  sameKinds tokens tokens' -> length tokens = length tokens'.
Proof. unfold sameKinds. intros H. rewrite <- (length_map kind tokens), H. apply length_map. Qed.

(** [parseLibconfig] on a text, from the kinds of its tokens. *)
Lemma parseLibconfig_kinds content tokens kinds value rest :
  tokenize content = Some tokens ->
  map kind tokens = kinds ->
  (if match kinds with
      | (TIdentifier, _) :: _ => true
      | _ => false
      end
   then parseObject (2 * length kinds + 2) [] (map tokenOf kinds)
   else parseValue (2 * length kinds + 2) (map tokenOf kinds)) = Return (value, rest) ->
  parseLibconfig content = Return value.
Proof.
  intros Htok <- Hparse. unfold parseLibconfig. rewrite Htok.
  rewrite length_map in Hparse. unfold parserFuel.
  destruct (parser_kinds (2 * length tokens + 2)) as (Hv & Ho & _).
  destruct tokens as [|token tokens].
  - cbn in Hparse. discriminate Hparse.
  - cbn [map kind] in Hparse. unfold kind at 1 in Hparse.
    fold (kind token) in Hparse.
    change (map tokenOf ((tok_type token, tok_value token) :: map kind tokens))
      with (map tokenOf (map kind (token :: tokens))) in Hparse.
    destruct (tok_type token);
      first [ destruct (Ho _ _ _ _ _ (sameKinds_tokenOf (token :: tokens)) Hparse)
                as (rest' & -> & _)
            | destruct (Hv _ _ _ _ (sameKinds_tokenOf (token :: tokens)) Hparse)
                as (rest' & -> & _) ];
      reflexivity.
Qed.

(** ** The kinds of the tokens of a line *)

Lemma scanString_shift_bounded n :
  forall rest c d,
    String.length rest <= n ->
    fst (fst (scanString rest c)) = fst (fst (scanString rest d))
    /\ snd (scanString rest c) = snd (scanString rest d).
Proof.
  induction n as [|n IH]; intros rest c d Hlen; destruct rest as [|a rest'];
    cbn [scanString]; cbn [String.length] in Hlen; try lia; try (split; reflexivity).
  destruct (Ascii.eqb a dquote); [split; reflexivity|].
  destruct (Ascii.eqb a backslash).
  - destruct rest' as [|escaped rest'']; [split; reflexivity|].
    cbn [String.length] in Hlen.
    destruct (IH rest'' (c + 2) (d + 2) ltac:(lia)) as [Hv Hr].
    destruct (scanString rest'' (c + 2)) as [[v1 c1] r1],
             (scanString rest'' (d + 2)) as [[v2 c2] r2].
    cbn [fst snd] in *. subst. split; reflexivity.
  - destruct (IH rest' (c + 1) (d + 1) ltac:(lia)) as [Hv Hr].
    destruct (scanString rest' (c + 1)) as [[v1 c1] r1],
             (scanString rest' (d + 1)) as [[v2 c2] r2].
    cbn [fst snd] in *. subst. split; reflexivity.
Qed.

Lemma scanString_shift rest c d :
  fst (fst (scanString rest c)) = fst (fst (scanString rest d))
  /\ snd (scanString rest c) = snd (scanString rest d).
Proof. apply (scanString_shift_bounded (String.length rest)). lia. Qed.

Lemma scanWhile_shift test rest :
  forall c d,
    fst (fst (scanWhile test rest c)) = fst (fst (scanWhile test rest d))
    /\ snd (scanWhile test rest c) = snd (scanWhile test rest d).
Proof.
  induction rest as [|a rest IH]; intros c d; cbn [scanWhile]; [split; reflexivity|].
  destruct (test a); [|split; reflexivity].
  destruct (IH (c + 1) (d + 1)) as [Hv Hr].
  destruct (scanWhile test rest (c + 1)) as [[v1 c1] r1],
           (scanWhile test rest (d + 1)) as [[v2 c2] r2].
  cbn [fst snd] in *. subst. split; reflexivity.
Qed.

Lemma lineStep_shift lineNum column char rest' :
  stepKind (lineStep lineNum column char rest') = stepKind (lineStep 0 0 char rest').
Proof.
  unfold lineStep.
  destruct (isSpace char); [reflexivity|].
  destruct (Ascii.eqb char "/" && nextIs (String char rest') "/"); [reflexivity|].
  destruct (Ascii.eqb char "#"); [reflexivity|].
  destruct (Ascii.eqb char dquote).
  { destruct (scanString_shift rest' (column + 1) (0 + 1)) as [Hv Hr].
    destruct (scanString rest' (column + 1)) as [[v1 c1] r1],
             (scanString rest' (0 + 1)) as [[v2 c2] r2].
    cbn [fst snd] in *. subst. destruct r2; reflexivity. }
  destruct (isDigit char).
  { destruct (Ascii.eqb char "0" && nextIs (String char rest') "x").
    - destruct rest' as [|x rest'']; [reflexivity|].
      destruct (scanWhile_shift isHexDigit rest'' (column + 2) (0 + 2)) as [Hv Hr].
      destruct (scanWhile isHexDigit rest'' (column + 2)) as [[v1 c1] r1],
               (scanWhile isHexDigit rest'' (0 + 2)) as [[v2 c2] r2].
      cbn [fst snd] in *. subst. reflexivity.
    - destruct (scanWhile_shift isDecimalChar (String char rest') column 0) as [Hv Hr].
      destruct (scanWhile isDecimalChar (String char rest') column) as [[v1 c1] r1],
               (scanWhile isDecimalChar (String char rest') 0) as [[v2 c2] r2].
      cbn [fst snd] in *. subst. reflexivity. }
  destruct (isIdentStart char).
  { destruct (scanWhile_shift isIdentChar (String char rest') column 0) as [Hv Hr].
    destruct (scanWhile isIdentChar (String char rest') column) as [[v1 c1] r1],
             (scanWhile isIdentChar (String char rest') 0) as [[v2 c2] r2].
    cbn [fst snd] in *. subst. reflexivity. }
  destruct (isPunctuation char); reflexivity.
Qed.

Lemma tokenizeLine_shift fuel :
  forall lineNum column rest,
    option_map (map kind) (tokenizeLine fuel lineNum column rest)
    = option_map (map kind) (tokenizeLine fuel 0 0 rest).
Proof.
  induction fuel as [|fuel IH]; intros lineNum column rest; [reflexivity|].
  cbn [tokenizeLine]. destruct rest as [|char rest']; [reflexivity|].
  pose proof (lineStep_shift lineNum column char rest') as Hstep.
  destruct (lineStep lineNum column char rest') as [|p1 c1 r1],
           (lineStep 0 0 char rest') as [|p2 c2 r2];
    cbn [stepKind] in Hstep; try discriminate Hstep; [reflexivity|].
  injection Hstep as Hp Hr. subst r2.
  pose proof (IH lineNum c1 r1) as H1. pose proof (IH 0 c2 r1) as H2.
  destruct p1 as [t1|], p2 as [t2|]; cbn [option_map] in Hp; try discriminate Hp.
  - assert (Hk : kind t1 = kind t2) by (injection Hp as Ht Hv; unfold kind; congruence).
    destruct (tokenizeLine fuel lineNum c1 r1), (tokenizeLine fuel 0 c2 r1),
             (tokenizeLine fuel 0 0 r1);
      cbn [option_map map] in *; try discriminate; try reflexivity.
    congruence.
  - congruence.
Qed.

Lemma lineKinds_step char rest' :
  lineKinds (String char rest')
  = match stepKind (lineStep 0 0 char rest') with
    | None => Some []
    | Some (None, remaining) => lineKinds remaining
    | Some (Some k, remaining) => option_map (cons k) (lineKinds remaining)
    end.
Proof.
  unfold lineKinds. rewrite tokenizeLine_unfold.
  destruct (lineStep 0 0 char rest') as [|[token|] column' remaining]; cbn [stepKind option_map].
  - reflexivity.
  - rewrite <- (tokenizeLine_shift _ 0 column' remaining).
    destruct (tokenizeLine (S (String.length remaining)) 0 column' remaining); reflexivity.
  - apply tokenizeLine_shift.
Qed.

Lemma lineKinds_tokensOf line kinds :
  allChars notNewline line = true -> lineKinds line = Some kinds -> tokensOf line kinds.
Proof.
  intros Hline Hkinds. split; [exact Hline|]. intros lineNum.
  unfold lineKinds in Hkinds. rewrite <- (tokenizeLine_shift _ lineNum 0 line) in Hkinds.
  destruct (tokenizeLine (S (String.length line)) lineNum 0 line) as [tokens|];
    [|discriminate Hkinds].
  exists tokens. split; [reflexivity|]. injection Hkinds as <-. reflexivity.
Qed.

Lemma lineKinds_space c rest : isSpace c = true -> lineKinds (String c rest) = lineKinds rest.
Proof. intros H. rewrite lineKinds_step. unfold lineStep. rewrite H. reflexivity. Qed.

Lemma lineKinds_spaces indent rest :
  allChars isSpace indent = true -> lineKinds (indent ++ rest) = lineKinds rest.
Proof.
  induction indent as [|c indent IH]; [reflexivity|]. cbn [allChars append].
  rewrite andb_true_iff. intros [Hc Hrest]. rewrite (lineKinds_space _ _ Hc). exact (IH Hrest).
Qed.

Lemma lineKinds_string value rest :
  allChars nameChar value = true ->
  lineKinds (quoted value ++ rest) = option_map (cons (TString, value)) (lineKinds rest).
Proof.
  intros Hvalue. unfold quoted. cbn [append]. rewrite append_assoc. cbn [append].
  rewrite lineKinds_step, (lineStep_string 0 0 value rest Hvalue). reflexivity.
Qed.

Lemma join_quoted key more :
  join ", " (map quoted (key :: more)) = quoted key ++ furtherKeys more.
Proof.
  revert key. induction more as [|next more IH]; intros key.
  - cbn [map join furtherKeys]. rewrite append_nil_r. reflexivity.
  - change (join ", " (map quoted (key :: next :: more)))
      with (quoted key ++ ", " ++ join ", " (map quoted (next :: more))).
    rewrite IH. reflexivity.
Qed.

Lemma furtherKeys_kinds more :
  Forall (fun key => allChars nameChar key = true) more ->
  lineKinds (furtherKeys more ++ "];") = Some (furtherKinds more +++ [ (TDelimiter, ";") ]).
Proof.
  induction 1 as [|key more Hkey _ IH]; [reflexivity|].
  cbn [furtherKeys furtherKinds]. rewrite !append_assoc.
  change ((", " ++ quoted key ++ furtherKeys more ++ "];"))
    with (String "," (String " " (quoted key ++ furtherKeys more ++ "];"))).
  rewrite lineKinds_step.
  change (stepKind (lineStep 0 0 "," (String " " (quoted key ++ furtherKeys more ++ "];"))))
    with (Some (Some (TDelimiter, ","), String " " (quoted key ++ furtherKeys more ++ "];"))).
  cbv beta iota. rewrite (lineKinds_space " " _ eq_refl), (lineKinds_string _ _ Hkey), IH.
  reflexivity.
Qed.

Lemma furtherKeys_notNewline more :
  Forall (fun key => allChars nameChar key = true) more ->
  allChars notNewline (furtherKeys more) = true.
Proof.
  induction 1 as [|key more Hkey _ IH]; [reflexivity|].
  cbn [furtherKeys]. change (", " ++ quoted key ++ furtherKeys more)
    with (String "," (String " " (String dquote ((key ++ String dquote EmptyString)
                                                  ++ furtherKeys more)))).
  cbn [allChars]. rewrite !allChars_app, IH, (allChars_nameChar_notNewline _ Hkey).
  reflexivity.
Qed.

Lemma keysLine_kinds indent key more :
  allChars isSpace indent = true ->
  allChars nameChar key = true ->
  Forall (fun k => allChars nameChar k = true) more ->
  lineKinds (indent ++ "keys: [" ++ join ", " (map quoted (key :: more)) ++ "];")
  = Some ([ (TIdentifier, "keys"); (TOperator, ":"); (TString, key) ]
          +++ furtherKinds more +++ [ (TDelimiter, ";") ]).
Proof.
  intros Hindent Hkey Hmore. rewrite (lineKinds_spaces _ _ Hindent), join_quoted.
  rewrite !append_assoc.
  set (X := quoted key ++ furtherKeys more ++ "];").
  change ("keys: [" ++ X)
    with (String "k" (String "e" (String "y" (String "s" (String ":" (String " "
            (String "[" X))))))).
  rewrite lineKinds_step.
  change (stepKind (lineStep 0 0 "k" (String "e" (String "y" (String "s" (String ":"
            (String " " (String "[" X))))))))
    with (Some (Some (TIdentifier, "keys"), String ":" (String " " (String "[" X)))).
  cbv beta iota. rewrite lineKinds_step.
  change (stepKind (lineStep 0 0 ":" (String " " (String "[" X))))
    with (Some (Some (TOperator, ":"), String " " (String "[" X))).
  cbv beta iota. rewrite (lineKinds_space " " _ eq_refl), lineKinds_step.
  change (stepKind (lineStep 0 0 "[" X)) with (Some (@None (TokenType * string), X)).
  cbv beta iota. unfold X.
  rewrite (lineKinds_string _ _ Hkey), (furtherKeys_kinds _ Hmore). reflexivity.
Qed.

Lemma keysLine_notNewline indent key more :
  allChars notNewline indent = true ->
  allChars nameChar key = true ->
  Forall (fun k => allChars nameChar k = true) more ->
  allChars notNewline
    (indent ++ "keys: [" ++ join ", " (map quoted (key :: more)) ++ "];") = true.
Proof.
  intros Hindent Hkey Hmore. rewrite join_quoted.
  rewrite !allChars_app, Hindent. unfold quoted. cbn [allChars].
  rewrite !allChars_app, (allChars_nameChar_notNewline _ Hkey),
    (furtherKeys_notNewline _ Hmore).
  reflexivity.
Qed.

(** ** Tokens that an object steps over *)

Lemma parseObject_steps_over tokens :
  Forall steppedOver tokens ->
  forall fuel obj, length tokens < fuel ->
    parseObject fuel obj tokens = Return (VObj obj, []).
Proof.
  induction 1 as [|token tokens [Hclose Hident] _ IH]; intros fuel obj Hfuel;
    (destruct fuel as [|fuel]; [inversion Hfuel|]); [reflexivity|].
  cbn [parseObject]. rewrite Hclose.
  cbn [length] in Hfuel.
  destruct (tok_type token); try (apply IH; lia). contradiction Hident. reflexivity.
Qed.

Lemma furtherKinds_steppedOver more :
  Forall steppedOver (map tokenOf (furtherKinds more +++ [ (TDelimiter, ";") ])).
Proof.
  induction more as [|key more IH]; cbn [furtherKinds app map].
  - repeat constructor. discriminate.
  - constructor; [split; [reflexivity | discriminate]|].
    constructor; [split; [reflexivity | discriminate]|]. exact IH.
Qed.

Lemma skipSeparator_steppedOver separators tokens :
  Forall steppedOver tokens -> Forall steppedOver (skipSeparator separators tokens).
Proof.
  intros H. destruct tokens as [|token tokens]; [exact H|]. cbn [skipSeparator].
  destruct (existsb (isDelimiter token) separators); [|exact H].
  inversion H. assumption.
Qed.

(** The object read from the two lines of a key action. *)
Lemma parseObject_keyAction key more fuel :
  2 * length more + 3 <= fuel ->
  exists rest,
    parseObject (S (S (S fuel))) []
      (map tokenOf
         ([ (TIdentifier, "type"); (TOperator, ":"); (TString, "Keypress");
            (TDelimiter, ";") ]
          +++ [ (TIdentifier, "keys"); (TOperator, ":"); (TString, key) ]
          +++ furtherKinds more +++ [ (TDelimiter, ";") ]))
    = Return (VObj [ ("type", VStr "Keypress"); ("keys", VStr key) ], rest).
Proof.
  intros Hfuel. exists []. cbn [app map].
  change (parseObject (S (S (S fuel))) []
            (tokenOf (TIdentifier, "type") :: tokenOf (TOperator, ":")
             :: tokenOf (TString, "Keypress") :: tokenOf (TDelimiter, ";")
             :: tokenOf (TIdentifier, "keys") :: tokenOf (TOperator, ":")
             :: tokenOf (TString, key)
             :: map tokenOf (furtherKinds more +++ [ (TDelimiter, ";") ])))
    with (parseObject (S fuel) [ ("type", VStr "Keypress"); ("keys", VStr key) ]
            (skipSeparator [ ";"; "," ]
               (map tokenOf (furtherKinds more +++ [ (TDelimiter, ";") ])))).
  apply parseObject_steps_over.
  - apply skipSeparator_steppedOver, furtherKinds_steppedOver.
  - pose proof (skipSeparator_length [ ";"; "," ]
                  (map tokenOf (furtherKinds more +++ [ (TDelimiter, ";") ]))) as Hlen.
    rewrite length_map, length_app in Hlen. cbn [length] in Hlen.
    assert (length (furtherKinds more) = 2 * length more)
      by (clear; induction more; cbn [furtherKinds length]; lia).
    lia.
Qed.

(** ** A document with several devices *)

Lemma devicesLines_written entries :
  devicesLines (map written entries) = Return (bodyLines entries).
Proof.
  induction entries as [|entry rest IH]; [reflexivity|].
  cbn [map devicesLines].
  change (generateDeviceConfig (written entry) "  ") with (Return (entryLines entry)).
  cbn [bind]. rewrite IH. cbn [bind bodyLines]. destruct rest; reflexivity.
Qed.

Lemma generateConfigFile_written metadata entries :
  entries <> [] ->
  generateConfigFile (mkConfiguration (Some (map written entries)) (Some metadata))
  = Return (join newlineStr
              (generatedHeader metadata +++ [ "devices: ("; "{" ] +++ bodyLines entries
               +++ [ "});" ])).
Proof.
  intros Hne. unfold generateConfigFile. cbn [cfg_metadata cfg_devices].
  destruct entries as [|entry rest]; [congruence|].
  change (map written (entry :: rest)) with (written entry :: map written rest).
  cbv beta iota.
  change (written entry :: map written rest) with (map written (entry :: rest)).
  rewrite devicesLines_written. reflexivity.
Qed.

Lemma separator_tokensOf :
  tokensOf "}," [ (TDelimiter, "}"); (TDelimiter, ",") ].
Proof. split; [reflexivity|]. intros lineNum. eexists. split; reflexivity. Qed.

Lemma entryLines_tokensOf entry :
  validEntry entry -> Forall2 tokensOf (entryLines entry) (entryKinds entry).
Proof.
  intros ((_ & Hname) & Hvid & Hpid). unfold entryLines, entryKinds.
  constructor.
  { apply silent_tokensOf. pose proof (deviceComment_silent _ Hname) as H.
    inversion H. assumption. }
  constructor; [apply nameLine_tokensOf; exact Hname|].
  apply (Forall2_app (idLine_tokensOf "vid" (Some (entry_vid entry)) (or_introl eq_refl) Hvid)).
  exact (idLine_tokensOf "pid" (Some (entry_pid entry)) (or_intror eq_refl) Hpid).
Qed.

Lemma bodyLines_tokensOf entries :
  Forall validEntry entries -> Forall2 tokensOf (bodyLines entries) (bodyKinds entries).
Proof.
  induction 1 as [|entry rest Hentry Hrest IH]; [constructor|].
  cbn [bodyLines bodyKinds].
  apply Forall2_app; [apply entryLines_tokensOf; exact Hentry|].
  apply Forall2_app; [|exact IH].
  destruct rest; [constructor|].
  constructor; [exact separator_tokensOf|].
  constructor; [exact (proj1 (proj2 fixedLine_tokensOf)) | constructor].
Qed.

Lemma concat_bodyKinds entries :
  entries <> [] ->
  (TDelimiter, "{") :: concat (bodyKinds entries)
  +++ [ (TDelimiter, "}"); (TDelimiter, ")"); (TDelimiter, ";") ]
  = arrayKinds entries [ (TDelimiter, ";") ].
Proof.
  induction entries as [|entry rest IH]; [congruence|]. intros _.
  cbn [bodyKinds arrayKinds]. rewrite !concat_app.
  destruct rest as [|next rest].
  - cbn [bodyKinds arrayKinds concat app]. rewrite !app_nil_r. reflexivity.
  - specialize (IH ltac:(discriminate)).
    rewrite <- IH. cbn [concat app]. rewrite <- ?app_assoc. reflexivity.
Qed.

Lemma parseObject_entry entry fuel more :
  parseObject (S (S (S (S fuel)))) []
    (map tokenOf (concat (entryKinds entry)) +++ tokenOf (TDelimiter, "}") :: more)
  = Return (entryTree entry, more).
Proof. destruct entry as [name vid pid]. reflexivity. Qed.

Lemma parseArray_block fuel arr tokens :
  parseArray (S (S fuel)) arr (tokenOf (TDelimiter, "{") :: tokens)
  = '(value, next) <- parseObject fuel [] tokens ;;
    parseArray (S fuel) (arr +++ [value]) (skipSeparator [","] next).
Proof. reflexivity. Qed.

Lemma parseArray_entries entries :
  forall arr fuel tail,
    parseArray (length entries + 5 + fuel) arr (map tokenOf (arrayKinds entries tail))
    = Return (VArr (arr +++ map entryTree entries), map tokenOf tail).
Proof.
  induction entries as [|entry rest IH]; intros arr fuel tail.
  - cbn [length Nat.add arrayKinds map]. rewrite app_nil_r. reflexivity.
  - cbn [arrayKinds]. rewrite map_cons, map_app, map_cons, map_app.
    replace (length (entry :: rest) + 5 + fuel)
      with (S (S (S (S (S (S (length rest + fuel))))))) by (cbn [length]; lia).
    rewrite parseArray_block, parseObject_entry.
    replace (S (S (S (S (S (length rest + fuel)))))) with (length rest + 5 + fuel) by lia.
    cbv beta iota delta [bind].
    destruct rest as [|next rest].
    + change (skipSeparator [","] (map tokenOf [] +++ map tokenOf (arrayKinds [] tail)))
        with (map tokenOf (arrayKinds [] tail)).
      rewrite IH. rewrite <- app_assoc. reflexivity.
    + change (skipSeparator [","]
                (map tokenOf [ (TDelimiter, ",") ]
                 +++ map tokenOf (arrayKinds (next :: rest) tail)))
        with (map tokenOf (arrayKinds (next :: rest) tail)).
      rewrite IH. rewrite <- app_assoc. reflexivity.
Qed.

Lemma arrayKinds_length entries tail : length entries < length (arrayKinds entries tail).
Proof.
  induction entries as [|entry rest IH]; cbn [arrayKinds length]; [lia|].
  repeat (rewrite length_app || rewrite length_cons). lia.
Qed.

Lemma parseObject_devices entries fuel :
  length entries + 8 <= fuel ->
  parseObject fuel []
    (map tokenOf ([ (TIdentifier, "devices"); (TOperator, ":"); (TDelimiter, "(") ]
                  +++ arrayKinds entries [ (TDelimiter, ";") ]))
  = Return (VObj [ ("devices", VArr (map entryTree entries)) ], []).
Proof.
  intros Hfuel.
  replace fuel with (S (S (length entries + 5 + (fuel - length entries - 7)))) by lia.
  cbn [app map]. cbn [parseObject].
  change (isDelimiter (tokenOf (TIdentifier, "devices")) "}") with false. cbv iota.
  change (tok_type (tokenOf (TIdentifier, "devices"))) with TIdentifier. cbv iota.
  change (isAssignOperator (tokenOf (TOperator, ":"))) with true. cbv iota.
  cbn [parseValue].
  change (tok_type (tokenOf (TDelimiter, "("))) with TDelimiter.
  change (tok_value (tokenOf (TDelimiter, "("))) with "(". cbv iota.
  change ("(" =? "{")%string with false. change ("(" =? "(")%string with true. cbv iota.
  rewrite parseArray_entries. cbn [bind app].
  replace (S (length entries + 5 + (fuel - length entries - 7)))
    with (S (S (length entries + 4 + (fuel - length entries - 7)))) by lia.
  reflexivity.
Qed.

Lemma parseDevicesFromData_entries entries :
  Forall validEntry entries ->
  parseDevicesFromData (VArr (map entryTree entries)) = Return (map readBack entries).
Proof.
  intros Hall. unfold parseDevicesFromData. cbn [iterate bind].
  assert (Hmap : mapM parseDeviceFromData (map entryTree entries)
                 = Return (map (fun entry => Some (readBack entry)) entries)).
  { induction Hall as [|entry rest ((Hne & _) & Hvid & Hpid) _ IH]; [reflexivity|].
    assert (Hd : parseDeviceFromData (entryTree entry) = Return (Some (readBack entry)))
      by exact (parseDeviceFromData_plain (entry_name entry) (Some (entry_vid entry))
                  (Some (entry_pid entry)) Hne Hvid Hpid).
    cbn [map mapM]. rewrite Hd. cbn [bind]. rewrite IH. reflexivity. }
  rewrite Hmap. cbn [bind]. f_equal.
  clear. induction entries as [|entry rest IH]; [reflexivity|].
  cbn [map filterSome]. rewrite IH. reflexivity.
Qed.

Lemma identityOf_entry entry :
  validEntry entry ->
  identityOf (entryTree entry) = Return (Some (identityOfDevice (readBack entry))).
Proof.
  destruct entry as [name vid pid]. intros ((Hne & _) & Hvid & Hpid).
  cbn [entry_name entry_vid entry_pid] in Hne, Hvid, Hpid. unfold identityOf.
  change (get (entryTree (mkEntry name vid pid)) "name") with (Some (VStr name)).
  change (get (entryTree (mkEntry name vid pid)) "vid") with (Some (VStr ("0x" ++ vid))).
  change (get (entryTree (mkEntry name vid pid)) "pid") with (Some (VStr ("0x" ++ pid))).
  rewrite (hexOrEmpty_given _ Hvid), (hexOrEmpty_given _ Hpid).
  destruct name as [|c name]; [congruence|]. reflexivity.
Qed.

Lemma identities_of_entries entries :
  Forall validEntry entries ->
  identitiesOf (map entryTree entries) = map identityOfDevice (map readBack entries).
Proof.
  induction 1 as [|entry rest Hentry _ IH]; [reflexivity|].
  cbn [map identitiesOf]. rewrite (identityOf_entry entry Hentry). rewrite IH.
  reflexivity.
Qed.

(* ================================================================== *)
(** * The claims of the specification *)
(* ================================================================== *)




(** C2.  The code at the inputs where it departs from the claim: of two
    [devices] entries only the last one is read, since an assignment to a
    member that exists overwrites it; and a [devices] entry given as a
    single object makes [parseConfigFile] fail, no object being iterable. *)
Theorem devices_entries_are_not_accumulated :
  parseConfigFile sampleClock devicesTwice None
  = parsedAt sampleClock devicesTwice [ plainDevice "G502 HERO" "0x046d" "0xc08b" ]
  /\ parseConfigFile sampleClock devicesAsObject None
     = failedToParse "devicesData is not iterable"
  /\ (forall key earlier later members,
        lookup key (assign key later (assign key earlier members)) = Some later)
  /\ (forall members,
        parseDevicesFromData (VObj members)
        = Throw (TypeError "devicesData is not iterable")).
Proof.
  split; [vm_compute; reflexivity|]. split; [vm_compute; reflexivity|].
  split; [|reflexivity].
  intros key earlier later members. apply lookup_assign.
Qed.

(** C3.  The code at the inputs where it departs from the claim: an object
    that is not closed before the end of the input is returned as it stands,
    so that the text parses to a configuration (with no device), and the
    syntax check accepts it; inside a device given as a single object the
    error raised is the one of C2, and its message does not contain "Unclosed
    section". *)
Theorem unclosed_object_is_accepted :
  parseLibconfig unclosedButtons
  = Return (VObj [ ("timeout", VNum (num_of_Z 1500));
                   ("buttons", VObj [ ("cid", VStr "0x50") ]) ])
  /\ parseConfigFile sampleClock unclosedButtons None
     = parsedAt sampleClock unclosedButtons []
  /\ validateConfigSyntax sampleClock unclosedButtons = Return (true, [])
  /\ parseConfigFile sampleClock unclosedButtonsInDevice None
     = failedToParse "devicesData is not iterable"
  /\ includes "Failed to parse configuration file: devicesData is not iterable"
              "Unclosed section" = false
  /\ (forall fuel obj, parseObject (S fuel) obj [] = Return (VObj obj, [])).
Proof. repeat apply conj; try (intros; reflexivity); vm_compute; reflexivity. Qed.







(** C6.  For every non-empty run of hexadecimal digits in any case, with
    or without a [0x]/[0X] prefix and with white space around it that [trim]
    removes, [normalizeHexValue] is idempotent and its result matches
    [^0x[0-9a-f]+$]. *)
Theorem normalizeHexValue_idempotent_canonical :
  forall h, hexInput h ->
    normalizeHexValue (normalizeHexValue h) = normalizeHexValue h
    /\ lowerHexPattern (normalizeHexValue h) = true.
Proof.
  intros h Hh. destruct (normalizeHexValue_hexInput h Hh) as (digits & -> & Hne & Hd).
  split.
  - apply normalizeHexValue_canonical; assumption.
  - simpl. rewrite Hd, andb_true_r. destruct digits; [congruence | reflexivity].
Qed.

Lemma normalizeHexValue_witness :
  hexInput "  0X04Ad " /\
  (normalizeHexValue (normalizeHexValue "  0X04Ad ") = normalizeHexValue "  0X04Ad "
   /\ lowerHexPattern (normalizeHexValue "  0X04Ad ") = true).
Proof.
  assert (H : hexInput "  0X04Ad ").
  { exists "  ", "0X", "04Ad", " ". repeat split; auto. discriminate. }
  split; [exact H | exact (normalizeHexValue_idempotent_canonical _ H)].
Defined.

(** C7.  For DPI settings whose sensors list is non-empty and whose every
    sensor has a numeric dpi in [50, 25600] that is a multiple of 50,
    [validateDPISettings] returns no error and no warning when exactly one
    sensor is marked default; no error and exactly one warning, mentioning
    "No default DPI sensor", when none is; and exactly one error, mentioning
    "Only one DPI sensor can be marked as default", when two or more are. *)
Theorem validateDPISettings_default_rule :
  forall (dpi : Value) (sensors : list Value) (basePath : string),
    get dpi "sensors" = Some (VArr sensors) ->
    sensors <> [] ->
    Forall regularSensor sensors ->
    let r := validateDPISettings dpi basePath in
    let defaults := length (filter markedDefault sensors) in
    (defaults = 1 -> errors r = [] /\ warnings r = [])
    /\ (defaults = 0 ->
        errors r = []
        /\ exists w, warnings r = [w]
                     /\ includes (err_message w) "No default DPI sensor" = true)
    /\ (2 <= defaults ->
        exists e, errors r = [e]
                  /\ includes (err_message e)
                       "Only one DPI sensor can be marked as default" = true).
Proof.
  intros dpi sensors basePath Hget Hne Hall r defaults.
  assert (Hr : r = validateDPISettings dpi basePath) by reflexivity.
  unfold validateDPISettings in Hr. rewrite Hget in Hr.
  destruct sensors as [|s sensors]; [congruence|].
  rewrite collect_clean in Hr.
  2:{ intros x index Hin. apply validateDPISensor_regular.
      rewrite Forall_forall in Hall. apply Hall. exact Hin. }
  change (defaultCount (s :: sensors)) with defaults in Hr.
  split; [|split].
  - intros E. rewrite E in Hr. rewrite Hr. split; reflexivity.
  - intros E. rewrite E in Hr. rewrite Hr. split; [reflexivity|].
    eexists. split; reflexivity.
  - intros E. destruct defaults as [|[|n]]; try lia.
    rewrite Hr. eexists. split; reflexivity.
Qed.

Lemma validateDPISettings_default_rule_witness :
  get sampleDpi "sensors" = Some (VArr sampleSensors)
  /\ sampleSensors <> []
  /\ Forall regularSensor sampleSensors
  /\ length (filter markedDefault sampleSensors) = 1
  /\ errors (validateDPISettings sampleDpi "device.dpi") = []
  /\ warnings (validateDPISettings sampleDpi "device.dpi") = [].
Proof.
  assert (Hget : get sampleDpi "sensors" = Some (VArr sampleSensors)) by reflexivity.
  assert (Hne : sampleSensors <> []) by discriminate.
  assert (Hall : Forall regularSensor sampleSensors).
  { repeat constructor.
    - exists (dec_of_Z 800), 800%Z. repeat split; vm_compute; congruence.
    - exists (dec_of_Z 1600), 1600%Z. repeat split; vm_compute; congruence. }
  repeat (split; [assumption|]). split; [reflexivity|].
  exact (proj1 (validateDPISettings_default_rule sampleDpi sampleSensors "device.dpi"
                  Hget Hne Hall)
               eq_refl).
Defined.

(** C8.  For every configuration that holds two devices with the same
    (vid, pid) pair, [validateConfiguration] returns [isValid: false] and
    an error whose message contains "Duplicate devices". *)
Theorem validateConfiguration_duplicate_devices :
  forall (config : LogiopsConfiguration) (devices : list Device)
         (i j : nat) (d1 d2 : Device),
    cfg_devices config = Some devices ->
    i <> j ->
    nth_error devices i = Some d1 ->
    nth_error devices j = Some d2 ->
    dev_vid d1 = dev_vid d2 ->
    dev_pid d1 = dev_pid d2 ->
    isValid (validateConfiguration config) = false
    /\ exists e, In e (errors (validateConfiguration config))
                 /\ includes (err_message e) "Duplicate devices" = true.
Proof.
  intros config devices i j d1 d2 Hdev Hij Hi Hj Hvid Hpid.
  assert (Hid : deviceId d1 = deviceId d2).
  { unfold deviceId. rewrite Hvid, Hpid. reflexivity. }
  destruct (Nat.lt_total i j) as [Hlt | [Heq | Hgt]]; [|congruence|].
  - exact (validateConfiguration_same_id config devices i j d1 d2 Hdev Hlt Hi Hj Hid).
  - exact (validateConfiguration_same_id config devices j i d2 d1 Hdev Hgt Hj Hi
             (eq_sym Hid)).
Qed.

Lemma validateConfiguration_duplicate_devices_witness :
  cfg_devices twinConfig = Some [ twinA; twinB ]
  /\ 0 <> 1
  /\ nth_error [ twinA; twinB ] 0 = Some twinA
  /\ nth_error [ twinA; twinB ] 1 = Some twinB
  /\ dev_vid twinA = dev_vid twinB
  /\ dev_pid twinA = dev_pid twinB
  /\ isValid (validateConfiguration twinConfig) = false
  /\ exists e, In e (errors (validateConfiguration twinConfig))
               /\ includes (err_message e) "Duplicate devices" = true.
Proof.
  repeat (split; [first [reflexivity | discriminate]|]).
  apply (validateConfiguration_duplicate_devices twinConfig [ twinA; twinB ] 0 1
           twinA twinB);
    first [reflexivity | discriminate].
Defined.

(** C9.  For every input the tokenizer terminates and returns a token list,
    and it has no way to raise an error; a character that is not white
    space, a comment start, a quote, a digit, a letter or underscore, an
    operator or a delimiter where the loop meets it is stepped over without
    a token, so that the tokens from that character on are the tokens from
    the next column on, and a text made of such characters alone has no
    token. *)
Theorem tokenize_never_raises_and_skips_unrecognized :
  (forall content, exists tokens, tokenize content = Some tokens)
  /\ (forall fuel lineNum column char rest',
        unrecognized char rest' = true ->
        String.length rest' < fuel ->
        lineStep lineNum column char rest' = Continue None (column + 1) rest'
        /\ tokenizeLine (S fuel) lineNum column (String char rest')
           = tokenizeLine fuel lineNum (column + 1) rest'
        /\ exists tokens, tokenizeLine fuel lineNum (column + 1) rest' = Some tokens)
  /\ (forall content, allChars stray content = true -> tokenize content = Some []).
Proof.
  split; [|split].
  - intros content. apply tokenizeLines_total.
  - intros fuel lineNum column char rest' Hc Hlen.
    pose proof (lineStep_unrecognized lineNum column char rest' Hc) as Hstep.
    split; [exact Hstep|]. split.
    + simpl. rewrite Hstep. reflexivity.
    + apply tokenizeLine_total. exact Hlen.
  - intros content Hall. unfold tokenize. rewrite (splitLines_stray _ Hall).
    cbn [tokenizeLines].
    rewrite (tokenizeLine_stray _ Hall) by lia. reflexivity.
Qed.

Lemma tokenize_never_raises_and_skips_unrecognized_witness :
  unrecognized "@"%char "b" = true
  /\ String.length "b" < 2
  /\ lineStep 0 1 "@"%char "b" = Continue None 2 "b"
  /\ tokenizeLine 3 0 1 "@b" = tokenizeLine 2 0 2 "b"
  /\ allChars stray "@$%" = true
  /\ tokenize "@$%" = Some [].
Proof.
  destruct tokenize_never_raises_and_skips_unrecognized as (_ & Hskip & Hstray).
  destruct (Hskip 2 0 1 "@"%char "b" eq_refl (le_n 2)) as (Hstep & Hline & _).
  split; [reflexivity|]. split; [apply le_n|]. split; [exact Hstep|].
  split; [exact Hline|]. split; [reflexivity | exact (Hstray "@$%" eq_refl)].
Defined.

(** C10.  Every exported validator returns a result whose [isValid] is true
    exactly when its [errors] list is empty, whatever its warnings are. *)
Theorem validators_isValid_iff_no_errors :
  (forall config, consistent (validateConfiguration config))
  /\ (forall device basePath, consistent (validateDevice device basePath))
  /\ (forall dpi basePath, consistent (validateDPISettings dpi basePath))
  /\ (forall sensor basePath, consistent (validateDPISensor sensor basePath))
  /\ (forall button basePath, consistent (validateButtonMapping button basePath))
  /\ (forall action basePath, consistent (validateButtonAction action basePath))
  /\ (forall gesture basePath, consistent (validateGestureMapping gesture basePath))
  /\ (forall scrollWheel basePath,
        consistent (validateScrollWheelSettings scrollWheel basePath)).
Proof.
  repeat apply conj; intros.
  - unfold validateConfiguration. consistency.
  - unfold validateDevice. consistency.
  - unfold validateDPISettings. consistency.
  - unfold validateDPISensor. consistency.
  - unfold validateButtonMapping. consistency.
  - unfold validateButtonAction. consistency.
  - unfold validateGestureMapping. consistency.
  - unfold validateScrollWheelSettings. consistency.
Qed.

(* ================================================================== *)
(** * Further properties of the code *)
(* ================================================================== *)

(** X1.  A text whose every line is blank or a comment has no token, and
    the parser has nothing to read: [parseLibconfig] throws "Unexpected end
    of input", [parseConfigFile] wraps it in a [ConfigParseError],
    [validateConfigSyntax] reports that message, and [extractDeviceInfo]
    returns the empty list. *)
Theorem text_without_token_is_rejected :
  forall (clock : Clock) (content : string) (filename : option string),
    forallb blankOrComment (splitLines content) = true ->
    parseLibconfig content = Throw (PlainError "Unexpected end of input")
    /\ parseConfigFile clock content filename = failedToParse "Unexpected end of input"
    /\ validateConfigSyntax clock content
       = Return (false, [ "Failed to parse configuration file: Unexpected end of input" ])
    /\ extractDeviceInfo content = Return [].
Proof.
  intros clock content filename Hlines.
  assert (Htok : tokenize content = Some [])
    by (apply tokenizeLines_blankOrComment; exact Hlines).
  pose proof (parseLibconfig_no_token _ Htok) as Hparse.
  split; [exact Hparse|]. split; [apply parseConfigFile_no_token; exact Htok|]. split.
  - unfold validateConfigSyntax. rewrite (parseConfigFile_no_token _ _ _ Htok).
    reflexivity.
  - unfold extractDeviceInfo. rewrite Hparse. reflexivity.
Qed.

Lemma text_without_token_is_rejected_witness :
  forallb blankOrComment (splitLines commentsOnly) = true
  /\ parseConfigFile sampleClock commentsOnly None
     = failedToParse "Unexpected end of input"
  /\ extractDeviceInfo commentsOnly = Return [].
Proof.
  assert (H : forallb blankOrComment (splitLines commentsOnly) = true) by reflexivity.
  destruct (text_without_token_is_rejected sampleClock commentsOnly None H)
    as (_ & Hparse & _ & Hinfo).
  split; [exact H|]. split; [exact Hparse | exact Hinfo].
Defined.

(** X2.  A configuration without devices is not written in a form that is
    read back.  With an empty devices list, the text [generateConfigFile]
    writes is its header of comments alone, and [parseConfigFile] throws
    "Unexpected end of input" on it, as on every text without a token.
    Without a devices list, [generateConfigFile] itself throws, on reading
    the length of the list. *)
Theorem generated_text_without_devices_is_rejected :
  forall (clock : Clock) (filename : option string) (config : LogiopsConfiguration)
         (metadata : ConfigurationMetadata),
    cfg_metadata config = Some metadata ->
    wellFormedMetadata metadata ->
    (cfg_devices config = Some [] ->
     generateConfigFile config = Return (join newlineStr (generatedHeader metadata))
     /\ parseConfigFile clock (join newlineStr (generatedHeader metadata)) filename
        = failedToParse "Unexpected end of input")
    /\ (cfg_devices config = None ->
        generateConfigFile config = Throw (cannotRead "length")).
Proof.
  intros clock filename config metadata Hmeta Hwf. split.
  - intros Hdevices. split.
    + unfold generateConfigFile. rewrite Hmeta, Hdevices. reflexivity.
    + apply parseConfigFile_no_token.
      destruct (tokenize_lines (generatedHeader metadata)
                  (map (fun _ => []) (generatedHeader metadata)))
        as (tokens & Htok & Hkinds).
      * discriminate.
      * apply Forall2_silent, generatedHeader_silent. exact Hwf.
      * rewrite concat_map_nil in Hkinds. apply map_eq_nil in Hkinds.
        rewrite Htok, Hkinds. reflexivity.
  - intros Hdevices. unfold generateConfigFile. rewrite Hmeta, Hdevices. reflexivity.
Qed.

Lemma generated_text_without_devices_is_rejected_witness :
  cfg_devices (createDefaultConfiguration sampleClock) = Some []
  /\ wellFormedMetadata defaultMetadata
  /\ generateConfigFile (createDefaultConfiguration sampleClock)
     = Return (join newlineStr (generatedHeader defaultMetadata))
  /\ parseConfigFile sampleClock (join newlineStr (generatedHeader defaultMetadata)) None
     = failedToParse "Unexpected end of input"
  /\ cfg_devices withoutDevices = None
  /\ generateConfigFile withoutDevices = Throw (cannotRead "length").
Proof.
  assert (Hwf : wellFormedMetadata defaultMetadata) by (split; reflexivity).
  assert (Hsample : wellFormedMetadata sampleMetadata) by (split; reflexivity).
  split; [reflexivity|]. split; [exact Hwf|].
  destruct (proj1 (generated_text_without_devices_is_rejected sampleClock None
                     (createDefaultConfiguration sampleClock) defaultMetadata
                     eq_refl Hwf) eq_refl) as [Hwritten Hread].
  split; [exact Hwritten|]. split; [exact Hread|]. split; [reflexivity|].
  exact (proj2 (generated_text_without_devices_is_rejected sampleClock None
                  withoutDevices sampleMetadata eq_refl Hsample) eq_refl).
Defined.



(** X4.  [validateConfigSyntax] never throws.  It answers [isValid: true]
    with no error exactly when [parseConfigFile] returns, and otherwise
    [isValid: false] with one error, the message of the [ConfigParseError]
    thrown, which starts with "Failed to parse configuration file: ". *)
Theorem validateConfigSyntax_follows_parseConfigFile :
  forall (clock : Clock) (content : string),
    (exists config,
        parseConfigFile clock content None = Return config
        /\ validateConfigSyntax clock content = Return (true, []))
    \/ (exists message,
          parseConfigFile clock content None
          = Throw (ConfigParseError message None None)
          /\ startsWith message "Failed to parse configuration file: " = true
          /\ validateConfigSyntax clock content = Return (false, [ message ])).
Proof.
  intros clock content.
  destruct (parseConfigFile_cases clock content None)
    as (tokens & _ & [[devices H] | (e & _ & H)]).
  - left. eexists. split; [exact H|]. unfold validateConfigSyntax. rewrite H. reflexivity.
  - right. eexists. split; [exact H|]. split; [reflexivity|].
    unfold validateConfigSyntax. rewrite H. reflexivity.
Qed.

(** X5.  [extractDeviceInfo] never throws: on every text it returns a list,
    empty when the libconfig parser fails.  When [parseConfigFile] returns
    a configuration for the text, the list holds the name, the vid and the
    pid of its devices, in order. *)
Theorem extractDeviceInfo_follows_parseConfigFile :
  forall content : string,
  exists infos,
    extractDeviceInfo content = Return infos
    /\ (forall e, parseLibconfig content = Throw e -> infos = [])
    /\ (forall clock filename config devices,
          parseConfigFile clock content filename = Return config ->
          cfg_devices config = Some devices ->
          infos = map identityOfDevice devices).
Proof.
  intros content. unfold extractDeviceInfo.
  destruct (parseLibconfig content) as [parsed|e|] eqn:Hparse.
  - destruct (iterate "devicesData" (devicesDataOf parsed)) as [items|e|] eqn:Hit.
    + eexists. split; [reflexivity|]. split; [discriminate|].
      intros clock filename config devices Hconfig Hdevices.
      rewrite parseConfigFile_unfold, Hparse in Hconfig. cbn [bind] in Hconfig.
      unfold parseDevicesFromData in Hconfig. rewrite Hit in Hconfig.
      cbn [bind] in Hconfig.
      destruct (mapM parseDeviceFromData items) as [mapped| |] eqn:Hmap;
        cbn [bind wrapParseError] in Hconfig.
      * injection Hconfig as <-. cbn in Hdevices. injection Hdevices as <-.
        apply identities_of_mapped, mapM_Forall2. exact Hmap.
      * destruct (isConfigParseError e); discriminate Hconfig.
      * discriminate Hconfig.
    + exists []. split; [reflexivity|]. split; [reflexivity|].
      intros clock filename config devices Hconfig _.
      rewrite parseConfigFile_unfold, Hparse in Hconfig. cbn [bind] in Hconfig.
      unfold parseDevicesFromData in Hconfig. rewrite Hit in Hconfig.
      cbn [bind wrapParseError] in Hconfig.
      destruct (isConfigParseError e); discriminate Hconfig.
    + exfalso. destruct (devicesDataOf parsed); discriminate Hit.
  - exists []. split; [reflexivity|]. split; [reflexivity|].
    intros clock filename config devices Hconfig _.
    rewrite parseConfigFile_unfold, Hparse in Hconfig. cbn [bind wrapParseError] in Hconfig.
    destruct (isConfigParseError e); discriminate Hconfig.
  - exfalso. apply (parseLibconfig_settled content). exact Hparse.
Qed.

(** X6.  The parser only moves forward.  When [parseValue], [parseObject]
    or [parseArray] returns, the tokens left are what follows, in the tokens
    given, the tokens consumed, and [parseValue] has consumed one token at
    least. *)
Theorem parser_moves_forward :
  forall (fuel : nat) (tokens : list Token) (value : Value) (rest : list Token),
    (parseValue fuel tokens = Return (value, rest) ->
     exists consumed, consumed <> [] /\ tokens = consumed +++ rest)
    /\ (forall obj, parseObject fuel obj tokens = Return (value, rest) ->
                    exists consumed, tokens = consumed +++ rest)
    /\ (forall arr, parseArray fuel arr tokens = Return (value, rest) ->
                    exists consumed, tokens = consumed +++ rest).
Proof.
  intros fuel tokens value rest.
  destruct (parser_leaves fuel) as (Hv & Ho & Ha). split; [|split].
  - apply Hv.
  - intros obj H. exact (Ho _ _ _ _ H).
  - intros arr H. destruct (Ha _ _ _ _ H) as (consumed & Hc & _).
    exists consumed. exact Hc.
Qed.

Lemma parser_moves_forward_witness :
  parseValue 6 closedArray = Return (VArr [ VBool true; VStr "b" ], afterArray)
  /\ exists consumed, consumed <> [] /\ closedArray = consumed +++ afterArray.
Proof.
  assert (H : parseValue 6 closedArray
              = Return (VArr [ VBool true; VStr "b" ], afterArray)) by reflexivity.
  split; [exact H|].
  exact (proj1 (parser_moves_forward 6 closedArray _ afterArray) H).
Defined.



(** X8.  [normalizeHexValue] brings every string, hexadecimal or not, to a
    canonical form: the result starts with [0x], has no upper-case letter
    and no white space around it, and [normalizeHexValue] leaves it as it
    is.  So the vid and the pid of a device the mapper returns are, each,
    the empty string or such a canonical identifier. *)
Theorem normalizeHexValue_is_canonical_on_every_string :
  (forall value : string,
      canonicalId (normalizeHexValue value)
      /\ normalizeHexValue (normalizeHexValue value) = normalizeHexValue value)
  /\ (forall (data : Value) (device : Device),
        parseDeviceFromData data = Return (Some device) ->
        exists vid pid,
          dev_vid device = Some vid /\ dev_pid device = Some pid
          /\ (vid = EmptyString \/ canonicalId vid)
          /\ (pid = EmptyString \/ canonicalId pid)).
Proof.
  split.
  - intros value. split; [apply normalizeHexValue_canonicalId|].
    apply normalizeHexValue_fixed, normalizeHexValue_canonicalId.
  - intros data device Hdev.
    destruct (parseDeviceFromData_returned data device Hdev) as (_ & _ & Hvid & Hpid).
    exists (storedHex (get data "vid")), (storedHex (get data "pid")).
    split; [exact Hvid|]. split; [exact Hpid|].
    unfold storedHex.
    split; match goal with
           | |- context [if ?b then _ else _] => destruct b
           end;
      first [ left; reflexivity | right; apply normalizeHexValue_canonicalId ].
Qed.

Lemma normalizeHexValue_is_canonical_on_every_string_witness :
  parseDeviceFromData blockWithoutPid
  = Return (Some (plainDevice "Test Device" "0x1234" EmptyString))
  /\ exists vid pid,
      dev_vid (plainDevice "Test Device" "0x1234" EmptyString) = Some vid
      /\ dev_pid (plainDevice "Test Device" "0x1234" EmptyString) = Some pid
      /\ (vid = EmptyString \/ canonicalId vid)
      /\ (pid = EmptyString \/ canonicalId pid).
Proof.
  assert (H : parseDeviceFromData blockWithoutPid
              = Return (Some (plainDevice "Test Device" "0x1234" EmptyString)))
    by reflexivity.
  split; [exact H|].
  exact (proj2 normalizeHexValue_is_canonical_on_every_string blockWithoutPid _ H).
Defined.



(** X10.  A missing identifier is left to the validator.  For a device the
    mapper returns, the vid stored is the empty string exactly when the
    block has no truthy [vid], and then [validateDevice] reports "Vendor ID
    (vid) is required" at the path of the vid and the device is not valid;
    the same holds of the pid. *)
Theorem missing_identifier_is_reported_by_validateDevice :
  forall (data : Value) (device : Device) (basePath : string),
    parseDeviceFromData data = Return (Some device) ->
    (dev_vid device = Some EmptyString <-> truthy (get data "vid") = false)
    /\ (dev_pid device = Some EmptyString <-> truthy (get data "pid") = false)
    /\ (truthy (get data "vid") = false ->
        In (error (basePath ++ ".vid") "Vendor ID (vid) is required" (Some "vid"))
           (errors (validateDevice device basePath))
        /\ isValid (validateDevice device basePath) = false)
    /\ (truthy (get data "pid") = false ->
        In (error (basePath ++ ".pid") "Product ID (pid) is required" (Some "pid"))
           (errors (validateDevice device basePath))
        /\ isValid (validateDevice device basePath) = false).
Proof.
  intros data device' basePath Hdev.
  destruct (parseDeviceFromData_returned data device' Hdev) as (_ & _ & Hvid & Hpid).
  assert (Hstored : forall x, storedHex x = EmptyString <-> truthy x = false).
  { intros x. unfold storedHex. destruct (truthy x); split; try reflexivity;
      try discriminate.
    intros H. exfalso.
    apply (canonicalId_nonEmpty _ (normalizeHexValue_canonicalId (String_ x))). exact H. }
  assert (Hinvalid : forall e,
             In e (errors (validateDevice device' basePath)) ->
             isValid (validateDevice device' basePath) = false).
  { intros e. apply invalid_by_error, validateDevice_consistent. }
  split; [|split; [|split]].
  - rewrite Hvid. split.
    + intros [= H]. apply Hstored. exact H.
    + intros H. f_equal. apply Hstored. exact H.
  - rewrite Hpid. split.
    + intros [= H]. apply Hstored. exact H.
    + intros H. f_equal. apply Hstored. exact H.
  - intros H. apply Hstored in H.
    assert (Hin : In (error (basePath ++ ".vid") "Vendor ID (vid) is required" (Some "vid"))
                     (errors (validateDevice device' basePath))).
    { unfold validateDevice. rewrite Hvid, H.
      repeat match goal with
             | |- context [let '(_, _) := ?p in _] => destruct p
             end.
      cbn [errors validationResult]. rewrite !in_app_iff. right. left. left. reflexivity. }
    split; [exact Hin | exact (Hinvalid _ Hin)].
  - intros H. apply Hstored in H.
    assert (Hin : In (error (basePath ++ ".pid") "Product ID (pid) is required" (Some "pid"))
                     (errors (validateDevice device' basePath))).
    { unfold validateDevice. rewrite Hpid, H.
      repeat match goal with
             | |- context [let '(_, _) := ?p in _] => destruct p
             end.
      cbn [errors validationResult]. rewrite !in_app_iff. right. right. left. left.
      reflexivity. }
    split; [exact Hin | exact (Hinvalid _ Hin)].
Qed.

Lemma missing_identifier_is_reported_by_validateDevice_witness :
  parseDeviceFromData blockWithoutPid
  = Return (Some (plainDevice "Test Device" "0x1234" EmptyString))
  /\ truthy (get blockWithoutPid "pid") = false
  /\ In (error "device.pid" "Product ID (pid) is required" (Some "pid"))
        (errors (validateDevice (plainDevice "Test Device" "0x1234" EmptyString) "device"))
  /\ isValid (validateDevice (plainDevice "Test Device" "0x1234" EmptyString) "device")
     = false.
Proof.
  assert (H : parseDeviceFromData blockWithoutPid
              = Return (Some (plainDevice "Test Device" "0x1234" EmptyString)))
    by reflexivity.
  split; [exact H|]. split; [reflexivity|].
  exact (proj2 (proj2 (proj2 (missing_identifier_is_reported_by_validateDevice
                                blockWithoutPid _ "device" H)))
               eq_refl).
Defined.

(** X11.  The pseudo-Axis action of a scroll-wheel direction, written back.
    For a direction whose entry has a truthy [mode] and [axis] and no truthy
    [type], in settings without a member [__proto__], reading the direction
    throws nothing but the exception of a conversion, and nothing when the
    entry has no member [toString].  The action it returns has type
    [cycleHiRes] and an axis, the text of the entry when that is a string,
    and an axis_multiplier exactly when the entry has one; it passes
    [validateButtonAction] without an error, and [generateActionConfig]
    writes it without a [type] line, in the axis form: the line
    [mode: "Axis";], whatever the mode read was, the line of the axis and,
    exactly when the entry has an axis_multiplier, a line for it.  Only when
    the axis prints as the empty text, as an empty array does, is the [type]
    line all that is written. *)
Theorem scroll_axis_entry_is_valid_and_written_in_axis_form :
  forall (fuel : nat) (data directionData : Value) (direction indent basePath : string),
    get data direction = Some directionData ->
    truthy (get directionData "type") = false ->
    truthy (get directionData "mode") = true ->
    truthy (get directionData "axis") = true ->
    ordinary data = true ->
    throwsOnly conversionError (parseDirection fuel data direction)
    /\ (plain directionData = true ->
        exists stored, parseDirection fuel data direction = Return stored)
    /\ (forall stored,
          parseDirection fuel data direction = Return stored ->
          exists action mode axis multiplier written,
            stored = Some action
            /\ action = mkAction "cycleHiRes" (Some (axisParameters mode axis multiplier))
            /\ (forall text, get directionData "axis" = Some (VStr text) -> axis = text)
            /\ (multiplier = None <-> get directionData "axis_multiplier" = None)
            /\ errors (validateButtonAction action basePath) = []
            /\ generateActionConfig action indent
               = (if nonEmpty axis
                  then [ indent ++ "mode: " ++ quoted "Axis" ++ ";";
                         indent ++ "axis: " ++ quoted axis ++ ";" ] +++ written
                  else [ indent ++ "type: " ++ quoted "cycleHiRes" ++ ";" ])
            /\ (multiplier = None -> written = [])
            /\ (multiplier <> None ->
                exists text, written = [ indent ++ "axis_multiplier: " ++ text ++ ";" ])).
Proof.
  intros fuel data directionData direction indent basePath Hget Htype Hmode Haxis _.
  rewrite (parseDirection_axis fuel data direction directionData Hget Htype Hmode Haxis).
  split; [|split].
  - apply bind_throwsOnly; [apply axisParametersOf_throwsOnly | intros; exact I].
  - intros Hplain.
    destruct (axisParametersOf_plain directionData Hplain) as [parameters ->].
    eexists. reflexivity.
  - intros stored Hstored.
    destruct (axisParametersOf directionData) as [parameters| |] eqn:Hpar;
      cbn [bind] in Hstored; try discriminate Hstored.
    injection Hstored as <-.
    destruct (axisParametersOf_returned _ _ Hpar) as (multiplier & -> & Hnone & _).
    exists (mkAction "cycleHiRes"
              (Some (axisParameters (String_ (get directionData "mode"))
                                    (String_ (get directionData "axis")) multiplier))),
           (String_ (get directionData "mode")), (String_ (get directionData "axis")),
           multiplier,
           (match multiplier with
            | Some m => [ indent ++ "axis_multiplier: " ++ string_of_number m ++ ";" ]
            | None => []
            end).
    split; [reflexivity|]. split; [reflexivity|].
    split; [intros text ->; reflexivity|]. split; [exact Hnone|].
    split; [reflexivity|]. split.
    + unfold axisParameters. cbn [generateActionConfig].
      change (emittedType "cycleHiRes") with "cycleHiRes".
      cbn [String.eqb Ascii.eqb Bool.eqb orb].
      destruct (nonEmpty (String_ (get directionData "axis"))); reflexivity.
    + split; [intros ->; reflexivity|].
      destruct multiplier as [m|]; [intros _; eexists; reflexivity | congruence].
Qed.

Lemma scroll_axis_entry_is_valid_and_written_in_axis_form_witness :
  get axisScroll "up" = Some axisEntry
  /\ ordinary axisScroll = true
  /\ plain axisEntry = true
  /\ parseDirection 4 axisScroll "up"
     = Return (Some (mkAction "cycleHiRes"
                       (Some (axisParameters "Axis" "REL_WHEEL"
                                (Some (JNum (mkDecimal 3 1)))))))
  /\ generateActionConfig
       (mkAction "cycleHiRes"
          (Some (axisParameters "Axis" "REL_WHEEL" (Some (JNum (mkDecimal 3 1))))))
       "  "
     = [ "  mode: " ++ quoted "Axis" ++ ";";
         "  axis: " ++ quoted "REL_WHEEL" ++ ";";
         "  axis_multiplier: 0.3;" ]
  /\ (exists stored, parseDirection 4 emptyAxisScroll "up" = Return stored
                     /\ exists action, stored = Some action
                        /\ generateActionConfig action "  "
                           = [ "  type: " ++ quoted "cycleHiRes" ++ ";" ]).
Proof.
  split; [reflexivity|]. split; [reflexivity|]. split; [reflexivity|].
  split; [reflexivity|]. split; [reflexivity|].
  destruct (scroll_axis_entry_is_valid_and_written_in_axis_form
              4 emptyAxisScroll emptyAxisEntry "up" "  " "device.scrollWheel.up"
              eq_refl eq_refl eq_refl eq_refl eq_refl) as (_ & Hreturns & Hwritten).
  destruct (Hreturns eq_refl) as [stored Hstored].
  exists stored. split; [exact Hstored|].
  destruct (Hwritten stored Hstored)
    as (action & mode & axis & multiplier & written & -> & Haction & _ & _ & _ & Hlines & _).
  exists action. split; [reflexivity|].
  assert (Hrun : parseDirection 4 emptyAxisScroll "up"
                 = Return (Some (mkAction "cycleHiRes"
                                   (Some (axisParameters "Axis" EmptyString None)))))
    by reflexivity.
  rewrite Hrun in Hstored. injection Hstored as <-. reflexivity.
Defined.

(** X12.  [validateDevice] accepts a device exactly when its name is not
    blank, its vid and its pid are [0x] and four hexadecimal digits, and
    each section it has (the dpi settings, every button, every gesture, the
    scroll wheel) passes its own validator at its own path. *)
Theorem validateDevice_accepts_exactly :
  forall (device : Device) (basePath : string),
    isValid (validateDevice device basePath) = true <-> acceptable device basePath.
Proof.
  intros device basePath. split; intros H.
  - apply (proj1 (validateDevice_acceptable device basePath)). exact H.
  - apply (proj2 (validateDevice_acceptable device basePath)). exact H.
Qed.

Lemma validateDevice_accepts_exactly_witness :
  acceptable createDefaultDevice "device"
  /\ isValid (validateDevice createDefaultDevice "device") = true.
Proof.
  assert (H : acceptable createDefaultDevice "device").
  { apply plainDevice_acceptable. repeat split. discriminate. }
  split; [exact H|].
  exact (proj2 (validateDevice_accepts_exactly createDefaultDevice "device") H).
Defined.

(** X13.  A device that validates is written and read back.  For a device
    with a name, a vid and a pid and nothing else that [validateDevice]
    accepts, and whose name has no quote, backslash or line feed,
    [parseConfigFile] reads the text [generateConfigFile] writes for it as
    a configuration with that one device, the vid and the pid in lower
    case, and [validateDevice] accepts the device read. *)
Theorem valid_plain_device_is_written_and_read_back :
  forall (clock : Clock) (filename : option string) (metadata : ConfigurationMetadata)
         (name vid pid basePath : string),
    isValid (validateDevice (plainDevice name vid pid) basePath) = true ->
    allChars nameChar name = true ->
    wellFormedMetadata metadata ->
    exists text,
      generateConfigFile
        (mkConfiguration (Some [ plainDevice name vid pid ]) (Some metadata))
      = Return text
      /\ parseConfigFile clock text filename
         = Return (mkConfiguration
                     (Some [ plainDevice name (toLowerCase vid) (toLowerCase pid) ])
                     (Some (mkMetadata "1.0.0" (clock_created clock)
                              (clock_modified clock) filename (Some text))))
      /\ isValid (validateDevice (plainDevice name (toLowerCase vid) (toLowerCase pid))
                                 basePath) = true.
Proof.
  intros clock filename metadata name vid pid basePath Hvalid Hchars Hmeta.
  apply validateDevice_acceptable, plainDevice_acceptable in Hvalid.
  destruct Hvalid as (Hname & Hvid & Hpid).
  assert (Hne : name <> EmptyString) by (intros ->; apply Hname; reflexivity).
  destruct (hexPattern_inv _ _ Hvid) as (dv & -> & _ & Hdv).
  destruct (hexPattern_inv _ _ Hpid) as (dp & -> & _ & Hdp).
  eexists. split; [apply generateConfigFile_plainDevice|]. split.
  - apply (parseConfigFile_deviceDocument clock filename (generatedHeader metadata)
             [ "  // For the " ++ name ] name (Some dv) (Some dp)).
    + apply generatedHeader_silent. exact Hmeta.
    + apply deviceComment_silent. exact Hchars.
    + split; assumption.
    + exact Hdv.
    + exact Hdp.
  - apply validateDevice_acceptable, plainDevice_acceptable.
    split; [exact Hname|]. split; apply hexPattern_toLowerCase; assumption.
Qed.

Lemma valid_plain_device_is_written_and_read_back_witness :
  isValid (validateDevice (plainDevice "MX Master 3" "0x046D" "0x4082") "device") = true
  /\ allChars nameChar "MX Master 3" = true
  /\ wellFormedMetadata sampleMetadata
  /\ exists text,
      generateConfigFile
        (mkConfiguration (Some [ plainDevice "MX Master 3" "0x046D" "0x4082" ])
                         (Some sampleMetadata))
      = Return text
      /\ parseConfigFile sampleClock text None
         = Return (mkConfiguration
                     (Some [ plainDevice "MX Master 3" "0x046d" "0x4082" ])
                     (Some (mkMetadata "1.0.0" (clock_created sampleClock)
                              (clock_modified sampleClock) None (Some text)))).
Proof.
  assert (Hmeta : wellFormedMetadata sampleMetadata) by (split; reflexivity).
  split; [reflexivity|]. split; [reflexivity|]. split; [exact Hmeta|].
  destruct (valid_plain_device_is_written_and_read_back sampleClock None sampleMetadata
              "MX Master 3" "0x046D" "0x4082" "device" eq_refl eq_refl Hmeta)
    as (text & Hgen & Hparse & _).
  exists text. split; [exact Hgen | exact Hparse].
Defined.

(** X14.  [validateConfiguration] accepts a configuration exactly when it
    has its metadata and its devices list, [validateDevice] accepts every
    device at the path [devices[index]], and no two devices have the same
    identifier [vid:pid].  A configuration without devices is accepted. *)
Theorem validateConfiguration_accepts_exactly :
  forall config : LogiopsConfiguration,
    isValid (validateConfiguration config) = true
    <-> cfg_metadata config <> None
        /\ exists devices,
            cfg_devices config = Some devices
            /\ (forall index device,
                  nth_error devices index = Some device ->
                  isValid (validateDevice device (indexed "devices" index)) = true)
            /\ NoDup (map deviceId devices).
Proof.
  intros config. split.
  - intros H. apply (proj1 (validateConfiguration_valid config)) in H.
    destruct H as (Hmeta & devices & Hdevices & Hall & Hdistinct).
    split; [exact Hmeta|]. exists devices. split; [exact Hdevices|].
    split; [exact Hall | exact Hdistinct].
  - intros (Hmeta & devices & Hdevices & Hall & Hdistinct).
    apply (proj2 (validateConfiguration_valid config)).
    split; [exact Hmeta|]. exists devices. split; [exact Hdevices|].
    split; [exact Hall | exact Hdistinct].
Qed.

Lemma validateConfiguration_accepts_exactly_witness :
  cfg_metadata (createDefaultConfiguration sampleClock) <> None
  /\ isValid (validateConfiguration (createDefaultConfiguration sampleClock)) = true.
Proof.
  split; [discriminate|].
  apply (proj2 (validateConfiguration_accepts_exactly
                  (createDefaultConfiguration sampleClock))).
  split; [discriminate|]. exists []. split; [reflexivity|]. split; [|constructor].
  intros [|index] device H; discriminate H.
Defined.

(** X15.  In a configuration that [validateConfiguration] accepts, every
    device has a vid and a pid, and [extractDeviceConfiguration] finds the
    device by them.  In every configuration with a devices list, what it
    finds is a device of the list with the vid and the pid asked for;
    without a devices list it throws, on calling [find]. *)
Theorem extractDeviceConfiguration_finds_each_device :
  forall config : LogiopsConfiguration,
    (forall devices,
        cfg_devices config = Some devices ->
        (isValid (validateConfiguration config) = true ->
         forall device, In device devices ->
           exists vid pid,
             dev_vid device = Some vid /\ dev_pid device = Some pid
             /\ extractDeviceConfiguration config vid pid = Return (Some device))
        /\ (forall vid pid device,
              extractDeviceConfiguration config vid pid = Return (Some device) ->
              In device devices /\ dev_vid device = Some vid /\ dev_pid device = Some pid))
    /\ (cfg_devices config = None ->
        forall vid pid,
          extractDeviceConfiguration config vid pid = Throw (cannotRead "find")).
Proof.
  intros config. split.
  - intros devices Hdevices. split.
    + intros Hvalid device Hin.
      apply validateConfiguration_valid in Hvalid.
      destruct Hvalid as (_ & ds & Hds & Hall & Hnodup).
      rewrite Hdevices in Hds. injection Hds as <-.
      destruct (In_nth_error _ _ Hin) as [index Hindex].
      pose proof (Hall index device Hindex) as Hdev.
      apply validateDevice_acceptable in Hdev.
      destruct Hdev as (_ & (vid & Hvid & _) & (pid & Hpid & _) & _).
      exists vid, pid. split; [exact Hvid|]. split; [exact Hpid|].
      unfold extractDeviceConfiguration. rewrite Hdevices.
      rewrite (find_by_ids devices device vid pid Hnodup Hin Hvid Hpid). reflexivity.
    + intros vid pid device. unfold extractDeviceConfiguration. rewrite Hdevices.
      intros [= H]. exact (find_hasIds _ _ _ _ H).
  - intros Hdevices vid pid. unfold extractDeviceConfiguration. rewrite Hdevices.
    reflexivity.
Qed.

Lemma extractDeviceConfiguration_finds_each_device_witness :
  cfg_devices pairConfig = Some [ deviceWithButtons; twinB ]
  /\ isValid (validateConfiguration pairConfig) = true
  /\ In twinB [ deviceWithButtons; twinB ]
  /\ (exists vid pid,
        dev_vid twinB = Some vid /\ dev_pid twinB = Some pid
        /\ extractDeviceConfiguration pairConfig vid pid = Return (Some twinB))
  /\ cfg_devices withoutDevices = None
  /\ extractDeviceConfiguration withoutDevices "0x046d" "0x4082"
     = Throw (cannotRead "find").
Proof.
  assert (Hin : In twinB [ deviceWithButtons; twinB ]) by (right; left; reflexivity).
  split; [reflexivity|]. split; [reflexivity|]. split; [exact Hin|].
  split.
  - exact (proj1 (proj1 (extractDeviceConfiguration_finds_each_device pairConfig)
                    _ eq_refl)
                 eq_refl twinB Hin).
  - split; [reflexivity|].
    exact (proj2 (extractDeviceConfiguration_finds_each_device withoutDevices)
                 eq_refl "0x046d" "0x4082").
Defined.



(** X17.  The diagnostics of a device, field by field.  Every error and
    every warning of [validateDevice] has a path at or below the base path,
    so that [useFieldValidation] at the base path returns them all and is
    valid exactly when the device is.  At the field path of the dpi settings
    it returns the diagnostics of [validateDPISettings] and no other.  At
    the field path [buttons] it returns nothing, whatever the buttons are:
    the diagnostics of a button have a path that goes on with an index,
    [buttons[0]...], not with a dot. *)
Theorem field_validation_of_a_device :
  forall (device : Device) (basePath : string),
    let result := validateDevice device basePath in
    useFieldValidation basePath (errors result) (warnings result)
    = mkFieldValidation (negb (isValid result)) (0 <? length (warnings result))
                        (errors result) (warnings result) (isValid result)
    /\ (forall dpi,
          dev_dpi device = Some dpi -> truthyV dpi = true ->
          let field := useFieldValidation (basePath ++ ".dpi")
                                          (errors result) (warnings result) in
          field_errors field = errors (validateDPISettings dpi (basePath ++ ".dpi"))
          /\ field_warnings field
             = warnings (validateDPISettings dpi (basePath ++ ".dpi")))
    /\ useFieldValidation (basePath ++ ".buttons") (errors result) (warnings result)
       = mkFieldValidation false false [] [] true.
Proof.
  intros device b result.
  destruct (device_sections device b)
    as ((Hde & Hdw) & (Hbe & Hbw) & (Hge & Hgw) & (Hse & Hsw)).
  cbv zeta in *.
  pose proof (validateDevice_errors device b) as He.
  pose proof (validateDevice_warnings device b) as Hw.
  fold result in He, Hw.
  split; [|split].
  - assert (Hes : filter (atField b) (errors result) = errors result).
    { apply filter_all. rewrite He. repeat (apply Forall_app; split).
      + apply (exact_atField b ".name"); [apply nameErrors_path | right; reflexivity].
      + apply (exact_atField b ".vid"); [apply idErrors_path | right; reflexivity].
      + apply (exact_atField b ".pid"); [apply idErrors_path | right; reflexivity].
      + apply below_all, (pathsBelow_sub b "dpi"). exact Hde.
      + apply (item_atField b ".buttons["); [reflexivity | exact Hbe].
      + apply (item_atField b ".gestures["); [reflexivity | exact Hge].
      + apply below_all, (pathsBelow_sub b "scrollWheel"). exact Hse. }
    assert (Hws : filter (atField b) (warnings result) = warnings result).
    { apply filter_all. rewrite Hw. repeat (apply Forall_app; split).
      + apply (exact_atField b EmptyString); [apply knownWarnings_path | left; reflexivity].
      + apply below_all, (pathsBelow_sub b "dpi"). exact Hdw.
      + apply (item_atField b ".buttons["); [reflexivity | exact Hbw].
      + apply (item_atField b ".gestures["); [reflexivity | exact Hgw].
      + apply below_all, (pathsBelow_sub b "scrollWheel"). exact Hsw. }
    unfold useFieldValidation. rewrite Hes, Hws. subst result.
    rewrite validateDevice_isValid, positive_length. reflexivity.
  - intros dpi Hdpi Htruthy. cbv zeta. unfold useFieldValidation.
    cbn [field_errors field_warnings].
    rewrite Hdpi, Htruthy in He, Hw, Hde, Hdw.
    rewrite He, Hw, !filter_app.
    rewrite (filter_exact_field b ".name" ".dpi" _ eq_refl (nameErrors_path _ b)).
    rewrite (filter_exact_field b ".vid" ".dpi" _ eq_refl (idErrors_path b "vid" _ _ _)).
    rewrite (filter_exact_field b ".pid" ".dpi" _ eq_refl (idErrors_path b "pid" _ _ _)).
    rewrite (filter_exact_field b EmptyString ".dpi" _ eq_refl (knownWarnings_path b _ _)).
    rewrite (pathsBelow_filter _ _ Hde), (pathsBelow_filter _ _ Hdw).
    rewrite (filter_other_field b ".buttons[" ".dpi" _ (fun _ => eq_refl) Hbe).
    rewrite (filter_other_field b ".buttons[" ".dpi" _ (fun _ => eq_refl) Hbw).
    rewrite (filter_other_field b ".gestures[" ".dpi" _ (fun _ => eq_refl) Hge).
    rewrite (filter_other_field b ".gestures[" ".dpi" _ (fun _ => eq_refl) Hgw).
    rewrite (filter_other_field b ".scrollWheel." ".dpi" _ (fun _ => eq_refl)
               (pathsBelow_section b "scrollWheel" _ Hse)).
    rewrite (filter_other_field b ".scrollWheel." ".dpi" _ (fun _ => eq_refl)
               (pathsBelow_section b "scrollWheel" _ Hsw)).
    cbn [app]. rewrite !app_nil_r. split; reflexivity.
  - unfold useFieldValidation. rewrite He, Hw, !filter_app.
    rewrite (filter_exact_field b ".name" ".buttons" _ eq_refl (nameErrors_path _ b)).
    rewrite (filter_exact_field b ".vid" ".buttons" _ eq_refl
               (idErrors_path b "vid" _ _ _)).
    rewrite (filter_exact_field b ".pid" ".buttons" _ eq_refl
               (idErrors_path b "pid" _ _ _)).
    rewrite (filter_exact_field b EmptyString ".buttons" _ eq_refl
               (knownWarnings_path b _ _)).
    rewrite (filter_other_field b ".dpi." ".buttons" _ (fun _ => eq_refl)
               (pathsBelow_section b "dpi" _ Hde)).
    rewrite (filter_other_field b ".dpi." ".buttons" _ (fun _ => eq_refl)
               (pathsBelow_section b "dpi" _ Hdw)).
    rewrite (filter_other_field b ".buttons[" ".buttons" _ (fun _ => eq_refl) Hbe).
    rewrite (filter_other_field b ".buttons[" ".buttons" _ (fun _ => eq_refl) Hbw).
    rewrite (filter_other_field b ".gestures[" ".buttons" _ (fun _ => eq_refl) Hge).
    rewrite (filter_other_field b ".gestures[" ".buttons" _ (fun _ => eq_refl) Hgw).
    rewrite (filter_other_field b ".scrollWheel." ".buttons" _ (fun _ => eq_refl)
               (pathsBelow_section b "scrollWheel" _ Hse)).
    rewrite (filter_other_field b ".scrollWheel." ".buttons" _ (fun _ => eq_refl)
               (pathsBelow_section b "scrollWheel" _ Hsw)).
    reflexivity.
Qed.

Lemma field_validation_of_a_device_witness :
  dev_dpi faultyDevice = Some faultyDpi
  /\ truthyV faultyDpi = true
  /\ length (errors (validateDevice faultyDevice "device")) = 3
  /\ field_errors (useFieldValidation "device.dpi"
                     (errors (validateDevice faultyDevice "device"))
                     (warnings (validateDevice faultyDevice "device")))
     = errors (validateDPISettings faultyDpi "device.dpi")
  /\ length (errors (validateDPISettings faultyDpi "device.dpi")) = 2.
Proof.
  split; [reflexivity|]. split; [reflexivity|]. split; [reflexivity|].
  split; [|reflexivity].
  exact (proj1 (proj1 (proj2 (field_validation_of_a_device faultyDevice "device"))
                      faultyDpi eq_refl eq_refl)).
Defined.

(** X18.  A token is where it says.  Every token of [tokenize] records a
    line number, counted from 1, of a line of the text, and a column,
    counted from 1, within that line, and the line has at that column the
    text of the token: the opening quote of a string literal, the value of
    a number, an identifier, a boolean, an operator or a delimiter. *)
Theorem token_is_at_its_position :
  forall (content : string) (tokens : list Token) (token : Token),
    tokenize content = Some tokens ->
    In token tokens ->
    exists line,
      nth_error (splitLines content) (tok_line token - 1) = Some line
      /\ 1 <= tok_line token <= length (splitLines content)
      /\ 1 <= tok_column token <= String.length line
      /\ startsWith (dropChars (tok_column token - 1) line) (tokenText token) = true.
Proof.
  intros content tokens token Htok Hin.
  destruct (tokenizeLines_positions _ _ _ _ Htok Hin)
    as (index & line & Hnth & Hline & Hcol & Hstart).
  exists line. replace (tok_line token - 1) with index by lia.
  split; [exact Hnth|]. split; [|split; [exact Hcol | exact Hstart]].
  assert (index < length (splitLines content))
    by (apply nth_error_Some; rewrite Hnth; discriminate).
  lia.
Qed.

Lemma token_is_at_its_position_witness :
  tokenize positionedText = Some positionedTokens
  /\ In (mkToken TNumber "0x1F" 3 9) positionedTokens
  /\ exists line,
      nth_error (splitLines positionedText) 2 = Some line
      /\ 1 <= 9 <= String.length line
      /\ startsWith (dropChars 8 line) "0x1F" = true.
Proof.
  assert (Htok : tokenize positionedText = Some positionedTokens) by reflexivity.
  assert (Hin : In (mkToken TNumber "0x1F" 3 9) positionedTokens)
    by (do 5 right; left; reflexivity).
  split; [exact Htok|]. split; [exact Hin|].
  destruct (token_is_at_its_position _ _ _ Htok Hin) as (line & Hnth & _ & Hcol & Hstart).
  exists line. split; [exact Hnth|]. split; [exact Hcol | exact Hstart].
Defined.

(** X19.  The parser does not look at positions.  Two texts whose tokens
    have the same types and values, one by one, are read alike: when
    [parseLibconfig] returns a tree for one, it returns the same tree for
    the other, however the tokens are laid out in lines and columns. *)
Theorem layout_does_not_change_the_tree :
  forall (content content' : string) (tokens tokens' : list Token) (value : Value),
    tokenize content = Some tokens ->
    tokenize content' = Some tokens' ->
    sameKinds tokens tokens' ->
    parseLibconfig content = Return value ->
    parseLibconfig content' = Return value.
Proof.
  intros content content' tokens tokens' value Htok Htok' Hkinds.
  unfold parseLibconfig. rewrite Htok, Htok'. unfold parserFuel.
  rewrite <- (sameKinds_length _ _ Hkinds).
  destruct (parser_kinds (2 * length tokens + 2)) as (Hv & Ho & _).
  destruct tokens as [|token tokens].
  - rewrite (sameKinds_nil _ Hkinds). intros H. exact H.
  - destruct (sameKinds_cons _ _ _ Hkinds) as (token' & rest' & -> & Ht & _ & _).
    rewrite Ht.
    destruct (tok_type token).
    + destruct (parseObject _ [] (token :: tokens)) as [[v next]| |] eqn:E; cbn [bind];
        try discriminate.
      intros [= <-]. destruct (Ho _ _ _ _ _ Hkinds E) as (next' & -> & _). reflexivity.
    + destruct (parseValue _ (token :: tokens)) as [[v next]| |] eqn:E; cbn [bind];
        try discriminate.
      intros [= <-]. destruct (Hv _ _ _ _ Hkinds E) as (next' & -> & _). reflexivity.
    + destruct (parseValue _ (token :: tokens)) as [[v next]| |] eqn:E; cbn [bind];
        try discriminate.
      intros [= <-]. destruct (Hv _ _ _ _ Hkinds E) as (next' & -> & _). reflexivity.
    + destruct (parseValue _ (token :: tokens)) as [[v next]| |] eqn:E; cbn [bind];
        try discriminate.
      intros [= <-]. destruct (Hv _ _ _ _ Hkinds E) as (next' & -> & _). reflexivity.
    + destruct (parseValue _ (token :: tokens)) as [[v next]| |] eqn:E; cbn [bind];
        try discriminate.
      intros [= <-]. destruct (Hv _ _ _ _ Hkinds E) as (next' & -> & _). reflexivity.
    + destruct (parseValue _ (token :: tokens)) as [[v next]| |] eqn:E; cbn [bind];
        try discriminate.
      intros [= <-]. destruct (Hv _ _ _ _ Hkinds E) as (next' & -> & _). reflexivity.
    + destruct (parseValue _ (token :: tokens)) as [[v next]| |] eqn:E; cbn [bind];
        try discriminate.
      intros [= <-]. destruct (Hv _ _ _ _ Hkinds E) as (next' & -> & _). reflexivity.
Qed.

Lemma layout_does_not_change_the_tree_witness :
  sameKinds spreadTokens denseTokens
  /\ parseLibconfig spreadText
     = Return (VObj [ ("dpi", VObj [ ("sensors", VArr [ VNum (num_of_Z 800) ]) ]) ])
  /\ parseLibconfig denseText
     = Return (VObj [ ("dpi", VObj [ ("sensors", VArr [ VNum (num_of_Z 800) ]) ]) ]).
Proof.
  assert (Hkinds : sameKinds spreadTokens denseTokens) by reflexivity.
  assert (Hspread : parseLibconfig spreadText
                    = Return (VObj [ ("dpi", VObj [ ("sensors",
                                                     VArr [ VNum (num_of_Z 800) ]) ]) ]))
    by reflexivity.
  split; [exact Hkinds|]. split; [exact Hspread|].
  exact (layout_does_not_change_the_tree spreadText denseText spreadTokens denseTokens _
           eq_refl eq_refl Hkinds Hspread).
Defined.

(** X20.  Of the keys of an action, the first alone is read back.  The
    generator writes the keys of a key action between square brackets, which
    the tokenizer steps over, and the parser keeps of a member the first
    value after its name.  So for a key action with keys that have no quote,
    backslash or line feed, the first not empty, the text
    [generateActionConfig] writes parses, and both [normalizeActionData] and
    [parseActionFromData] make of the tree a key action with the first key
    alone: the further keys are lost. *)
Theorem written_keys_are_read_back_as_the_first_key :
  forall (indent key : string) (more : list string),
    allChars (Ascii.eqb " ") indent = true ->
    validName key ->
    Forall (fun k => allChars nameChar k = true) more ->
    let action := mkAction "key" (Some (keysParameters (key :: more))) in
    let tree := VObj [ ("type", VStr "Keypress"); ("keys", VStr key) ] in
    parseLibconfig (join newlineStr (generateActionConfig action indent)) = Return tree
    /\ normalizeActionData (mapperFuel tree) (Some tree)
       = Return (mkAction "key" (Some (keysParameters [ key ])))
    /\ parseActionFromData (mapperFuel tree) (Some tree)
       = Return (Some (mkAction "key" (Some (keysParameters [ key ])))).
Proof.
  intros indent key more Hindent [Hne Hkey] Hmore action tree.
  assert (Hspace : allChars isSpace indent = true).
  { revert Hindent. apply allChars_impl. intros c Hc.
    apply Ascii.eqb_eq in Hc. subst c. reflexivity. }
  assert (Hnl : allChars notNewline indent = true).
  { revert Hindent. apply allChars_impl. intros c Hc.
    apply Ascii.eqb_eq in Hc. subst c. reflexivity. }
  split; [|split].
  - change (generateActionConfig action indent)
      with [ indent ++ "type: " ++ quoted "Keypress" ++ ";";
             indent ++ "keys: [" ++ join ", " (map quoted (key :: more)) ++ "];" ].
    destruct (tokenize_lines
                [ indent ++ "type: " ++ quoted "Keypress" ++ ";";
                  indent ++ "keys: [" ++ join ", " (map quoted (key :: more)) ++ "];" ]
                [ [ (TIdentifier, "type"); (TOperator, ":"); (TString, "Keypress");
                    (TDelimiter, ";") ];
                  [ (TIdentifier, "keys"); (TOperator, ":"); (TString, key) ]
                  +++ furtherKinds more +++ [ (TDelimiter, ";") ] ])
      as (tokens & Htok & Hkinds).
    + discriminate.
    + constructor; [|constructor; [|constructor]].
      * apply lineKinds_tokensOf.
        -- rewrite allChars_app, Hnl. reflexivity.
        -- rewrite (lineKinds_spaces _ _ Hspace). reflexivity.
      * apply lineKinds_tokensOf.
        -- apply keysLine_notNewline; assumption.
        -- apply keysLine_kinds; assumption.
    + destruct (parseObject_keyAction key more (4 * length more + 15))
        as [rest Hparse]; [lia|].
      cbn [concat app] in Hkinds, Hparse. rewrite app_nil_r in Hkinds.
      apply (parseLibconfig_kinds _ tokens _ _ rest Htok Hkinds).
      cbv beta iota.
      match goal with
      | |- parseObject ?f _ _ = _ =>
          replace f with (S (S (S (4 * length more + 15))))
      end; [exact Hparse|].
      cbn [length]. rewrite length_app. cbn [length].
      assert (length (furtherKinds more) = 2 * length more)
        by (clear; induction more; cbn [furtherKinds length]; lia).
      lia.
  - apply String.eqb_neq in Hne.
    cbn. rewrite Hne. reflexivity.
  - apply String.eqb_neq in Hne.
    cbn. rewrite Hne. reflexivity.
Qed.

Lemma written_keys_are_read_back_as_the_first_key_witness :
  allChars (Ascii.eqb " ") "  " = true
  /\ validName "KEY_LEFTCTRL"
  /\ Forall (fun k => allChars nameChar k = true) [ "KEY_C" ]
  /\ generateActionConfig
       (mkAction "key" (Some (keysParameters [ "KEY_LEFTCTRL"; "KEY_C" ]))) "  "
     = [ "  type: " ++ quoted "Keypress" ++ ";";
         "  keys: [" ++ quoted "KEY_LEFTCTRL" ++ ", " ++ quoted "KEY_C" ++ "];" ]
  /\ parseLibconfig
       (join newlineStr
          (generateActionConfig
             (mkAction "key" (Some (keysParameters [ "KEY_LEFTCTRL"; "KEY_C" ]))) "  "))
     = Return (VObj [ ("type", VStr "Keypress"); ("keys", VStr "KEY_LEFTCTRL") ]).
Proof.
  assert (Hname : validName "KEY_LEFTCTRL") by (split; [discriminate | reflexivity]).
  assert (Hmore : Forall (fun k => allChars nameChar k = true) [ "KEY_C" ])
    by (repeat constructor).
  split; [reflexivity|]. split; [exact Hname|]. split; [exact Hmore|].
  split; [reflexivity|].
  exact (proj1 (written_keys_are_read_back_as_the_first_key
                  "  " "KEY_LEFTCTRL" [ "KEY_C" ] eq_refl Hname Hmore)).
Defined.

(** X21.  Any number of devices is written and read back.  For a non-empty
    list of devices that have a name without quote, backslash or line feed,
    a vid and a pid written [0x] and hexadecimal digits, and nothing else,
    [generateConfigFile] returns a text that [parseLibconfig] reads as one
    [devices] array with a block of three members for each device, in the
    order of the list; [parseConfigFile] reads it as the same devices in the
    same order, the digits of the identifiers in lower case, and
    [extractDeviceInfo] lists their names and identifiers. *)
Theorem several_devices_are_written_and_read_back :
  forall (clock : Clock) (filename : option string) (metadata : ConfigurationMetadata)
         (entries : list DeviceEntry),
    entries <> [] ->
    Forall validEntry entries ->
    wellFormedMetadata metadata ->
    exists text,
      generateConfigFile (mkConfiguration (Some (map written entries)) (Some metadata))
      = Return text
      /\ parseLibconfig text = Return (VObj [ ("devices", VArr (map entryTree entries)) ])
      /\ parseConfigFile clock text filename
         = Return (mkConfiguration (Some (map readBack entries))
                     (Some (mkMetadata "1.0.0" (clock_created clock)
                              (clock_modified clock) filename (Some text))))
      /\ extractDeviceInfo text = Return (map identityOfDevice (map readBack entries)).
Proof.
  intros clock filename metadata entries Hne Hall Hmeta.
  eexists. split; [apply generateConfigFile_written; exact Hne|].
  set (text := join newlineStr _).
  assert (Hparse : parseLibconfig text
                   = Return (VObj [ ("devices", VArr (map entryTree entries)) ])).
  { destruct (tokenize_lines
                (generatedHeader metadata +++ [ "devices: ("; "{" ] +++ bodyLines entries
                 +++ [ "});" ])
                (map (fun _ => []) (generatedHeader metadata)
                 +++ [ [ (TIdentifier, "devices"); (TOperator, ":"); (TDelimiter, "(") ];
                      [ (TDelimiter, "{") ] ]
                 +++ bodyKinds entries
                 +++ [ [ (TDelimiter, "}"); (TDelimiter, ")"); (TDelimiter, ";") ] ]))
      as (tokens & Htok & Hkinds).
    { discriminate. }
    { apply Forall2_app; [apply Forall2_silent, generatedHeader_silent; exact Hmeta|].
      apply Forall2_app.
      { constructor; [exact (proj1 fixedLine_tokensOf)|].
        constructor; [exact (proj1 (proj2 fixedLine_tokensOf)) | constructor]. }
      apply Forall2_app; [apply bodyLines_tokensOf; exact Hall|].
      constructor; [exact (proj2 (proj2 fixedLine_tokensOf)) | constructor]. }
    rewrite !concat_app, concat_map_nil in Hkinds.
    cbn [concat app] in Hkinds.
    change ((TIdentifier, "devices") :: (TOperator, ":") :: (TDelimiter, "(")
            :: (TDelimiter, "{")
            :: concat (bodyKinds entries)
               +++ [ (TDelimiter, "}"); (TDelimiter, ")"); (TDelimiter, ";") ])
      with ([ (TIdentifier, "devices"); (TOperator, ":"); (TDelimiter, "(") ]
            +++ ((TDelimiter, "{") :: concat (bodyKinds entries)
                 +++ [ (TDelimiter, "}"); (TDelimiter, ")"); (TDelimiter, ";") ]))
      in Hkinds.
    rewrite (concat_bodyKinds entries Hne) in Hkinds.
    apply (parseLibconfig_kinds text tokens _ _ [] Htok Hkinds).
    cbv beta iota. cbn [app]. cbv iota.
    apply (parseObject_devices entries). cbn [length].
    pose proof (arrayKinds_length entries [ (TDelimiter, ";") ]). lia. }
  split; [exact Hparse|]. split.
  - rewrite parseConfigFile_unfold, Hparse. cbn [bind].
    change (devicesDataOf (VObj [ ("devices", VArr (map entryTree entries)) ]))
      with (VArr (map entryTree entries)).
    rewrite (parseDevicesFromData_entries entries Hall). reflexivity.
  - unfold extractDeviceInfo. rewrite Hparse. cbn [bind].
    change (devicesDataOf (VObj [ ("devices", VArr (map entryTree entries)) ]))
      with (VArr (map entryTree entries)).
    cbn [iterate bind]. rewrite (identities_of_entries entries Hall). reflexivity.
Qed.

Lemma several_devices_are_written_and_read_back_witness :
  exists text,
    generateConfigFile (mkConfiguration (Some (map written sampleEntries))
                                        (Some sampleMetadata))
    = Return text
    /\ parseLibconfig text = Return (VObj [ ("devices", VArr (map entryTree sampleEntries)) ])
    /\ parseConfigFile sampleClock text None
       = Return (mkConfiguration
                   (Some [ plainDevice "MX Master 3" "0x046d" "0x4082";
                           plainDevice "G502 HERO" "0x046d" "0xc08b" ])
                   (Some (mkMetadata "1.0.0" (clock_created sampleClock)
                            (clock_modified sampleClock) None (Some text))))
    /\ extractDeviceInfo text
       = Return [ mkIdentity "MX Master 3" "0x046d" "0x4082";
                  mkIdentity "G502 HERO" "0x046d" "0xc08b" ].
Proof.
  apply (several_devices_are_written_and_read_back sampleClock None sampleMetadata
           sampleEntries).
  - discriminate.
  - repeat constructor; try discriminate.
  - split; reflexivity.
Defined.
